(** * MinieSASS test-data generator: a model of [generate_test_fits.py]

    The script simulates X-ray photon events for a list of point sources and
    a uniform background, derives detector columns, and writes one binary
    table per observation plus a plain-text source catalog.

    Conventions of the model.
    - A Python [float] is the rational number ([Q]) it denotes; there is no
      infinity or NaN.  The columns PI and FRAME are quantised, so there the
      rounding of each float operation decides the result: the operations
      that feed them round to binary64 ([binary64]).  The sky and detector
      coordinates are computed exactly.  A Python or numpy [int] is [Z]; a
      size or a count is [nat].
    - A numpy array is a [list]; the dict of parallel arrays returned by
      [create_simple_events] is a record of lists.
    - [np.random] is a global sampler.  Its algorithms are not part of the
      script, so the sampler is an interface ([NumpyRandom]) whose laws are
      the documented ranges and sizes of each distribution.  A small
      congruential sampler implements the interface so that the model runs.
    - Global effects (sampler state, the wall clock, files, printed lines)
      are threaded by a state monad that also carries raised exceptions.
    - The disk holds regular files.  Whether the operating system lets the
      script create a directory or write a path is not the script's to
      decide: it is an interface too ([OperatingSystem]), and a refusal
      raises [OSError]. *)

From Stdlib Require Import String Ascii DecimalString.
From Stdlib Require Import ZArith QArith Qround Qabs Qpower Lqa Lia.
From Stdlib Require Import Bool Arith List Permutation Sorted.
Import ListNotations.
Open Scope Q_scope.

(** ** numpy array functions used by the script *)

Definition maximum (x y : Q) : Q := if Qlt_le_dec x y then y else x.
Definition minimum (x y : Q) : Q := if Qlt_le_dec y x then y else x.

(** [np.clip(a, lo, hi)] is [minimum(maximum(a, lo), hi)], element-wise. *)
Definition clip1 (lo hi x : Q) : Q := minimum (maximum x lo) hi.
Definition np_clip (a : list Q) (lo hi : Q) : list Q := map (clip1 lo hi) a.

Definition clip1_int (lo hi x : Z) : Z := Z.min (Z.max x lo) hi.
Definition np_clip_int (a : list Z) (lo hi : Z) : list Z :=
  map (clip1_int lo hi) a.

(** [np.round] rounds to the nearest integer, halves to the even one. *)
Definition round_half_even (x : Q) : Z :=
  let f := Qfloor x in
  match Qcompare (x - inject_Z f) (1 # 2) with
  | Lt => f
  | Gt => (f + 1)%Z
  | Eq => if Z.even f then f else (f + 1)%Z
  end.

Definition np_round (a : list Q) : list Q :=
  map (fun x => inject_Z (round_half_even x)) a.

(** [.astype(int)] drops the fractional part (truncation toward zero). *)
Definition trunc (x : Q) : Z := Z.quot (Qnum x) (Zpos (Qden x)).
Definition astype_int (a : list Q) : list Z := map trunc a.

(** ** binary64 *)

(** The binary64 number nearest to [x], halves to the even significand: the
    result of an IEEE 754 operation whose exact result is [x], and the value
    of a literal.  A positive [x] is scaled by a power of two into
    [[2^52, 2^53)], or by [2^1074] if it is too small for that (a subnormal),
    and rounded to an integer.  No number of the script comes near the
    largest finite binary64, and there is no overflow here. *)
Definition pow2 (e : Z) : Q := 2 ^ e.

Definition binade (x : Q) : Z :=
  let e := (Z.log2 (Qnum x) - Z.log2 (Zpos (Qden x)) - 52)%Z in
  Z.max (-1074)
    (if Qle_bool (pow2 52) (x * pow2 (- e)) then e else (e - 1)%Z).

Definition round_pos (x : Q) : Q :=
  inject_Z (round_half_even (x * pow2 (- binade x))) * pow2 (binade x).

Definition binary64 (x : Q) : Q :=
  match Qcompare x 0 with
  | Gt => round_pos x
  | Lt => - round_pos (- x)
  | Eq => 0
  end.

(** [x - y] and [x / y] on floats. *)
Definition float_sub (x y : Q) : Q := binary64 (x - y).
Definition float_div (x y : Q) : Q := binary64 (x / y).

(** [np.argsort]: the indices that sort the array.  Keys are paired with
    their positions and inserted in order; equal keys keep their order. *)
Fixpoint insert_key (p : Q * nat) (l : list (Q * nat)) : list (Q * nat) :=
  match l with
  | [] => [p]
  | q :: l' =>
      if Qle_bool (fst p) (fst q) then p :: q :: l'
      else q :: insert_key p l'
  end.

Definition sort_keys (l : list (Q * nat)) : list (Q * nat) :=
  fold_right insert_key [] l.

Definition np_argsort (a : list Q) : list nat :=
  map snd (sort_keys (combine a (seq 0 (length a)))).

(** [a[idx]] for an integer index array.  Every index the script uses comes
    from [np_argsort] of an array of the same length (see [argsort_lt]), so
    the default is never read. *)
Definition take {A : Type} (d : A) (a : list A) (idx : list nat) : list A :=
  map (fun i => nth i a d) idx.

(** [np.sum(cond)] over a boolean array. *)
Definition count_if {A : Type} (f : A -> bool) (a : list A) : nat :=
  length (filter f a).

(** ** Text formatting *)

Definition str_of_nat (n : nat) : string :=
  NilZero.string_of_uint (Nat.to_uint n).

Definition spaces (n : nat) : string :=
  string_of_list_ascii (repeat " "%char n).

Definition zeros (n : nat) : string :=
  string_of_list_ascii (repeat "0"%char n).

(** Right-align in a field of [width] characters (longer text is kept). *)
Definition pad_left (width : nat) (s : string) : string :=
  (spaces (width - String.length s) ++ s)%string.

(** [format(i, "<width>d")]. *)
Definition format_d (width : nat) (i : Z) : string :=
  pad_left width
    (if (i <? 0)%Z then ("-" ++ str_of_nat (Z.abs_nat i))%string
     else str_of_nat (Z.abs_nat i)).

(** [format(x, "<width>.<prec>f")] for [prec >= 1]: the value rounded to
    [prec] decimals (halves to even), sign first, right-aligned. *)
Definition format_f (width prec : nat) (x : Q) : string :=
  let unit := (10 ^ Z.of_nat prec)%Z in
  let scaled := round_half_even (Qabs x * inject_Z unit) in
  let int_part := str_of_nat (Z.to_nat (scaled / unit)) in
  let frac := str_of_nat (Z.to_nat (scaled mod unit)) in
  let frac_part := (zeros (prec - String.length frac) ++ frac)%string in
  let digits := (int_part ++ "." ++ frac_part)%string in
  pad_left width
    (if Qlt_le_dec x 0 then ("-" ++ digits)%string else digits).

(** [os.path.join(a, b)] on POSIX ([posixpath.join]): a [b] that starts
    with a slash replaces [a]; otherwise [b] is appended, after a slash
    unless [a] is empty or ends with one. *)
Definition startswith_sep (s : string) : bool :=
  match s with
  | String c _ => Ascii.eqb c "/"
  | EmptyString => false
  end.

Fixpoint endswith_sep (s : string) : bool :=
  match s with
  | EmptyString => false
  | String c EmptyString => Ascii.eqb c "/"
  | String _ rest => endswith_sep rest
  end.

Definition path_join (a b : string) : string :=
  if startswith_sep b then b
  else if (String.eqb a EmptyString || endswith_sep a)%bool then (a ++ b)%string
  else (a ++ "/" ++ b)%string.

(** ** The sampler interface *)

(** The distributions of [np.random] the script draws from.  Each array
    sampler takes the requested size and the sampler state and returns the
    drawn array with the next state.  The laws are the sizes of the returned
    arrays, the half-open range of [uniform], and that [choice] returns
    members of the array it is given. *)
Class NumpyRandom : Type := {
  rng_state : Type;
  seed : Z -> rng_state;
  poisson : Q -> rng_state -> nat * rng_state;
  normal : Q -> Q -> nat -> rng_state -> list Q * rng_state;
  uniform : Q -> Q -> nat -> rng_state -> list Q * rng_state;
  exponential : Q -> nat -> rng_state -> list Q * rng_state;
  choice : list Z -> nat -> list Q -> rng_state -> list Z * rng_state;
  normal_size : forall loc scale n s,
      length (fst (normal loc scale n s)) = n;
  uniform_size : forall lo hi n s,
      length (fst (uniform lo hi n s)) = n;
  exponential_size : forall scale n s,
      length (fst (exponential scale n s)) = n;
  choice_size : forall a n p s,
      a <> [] -> length (fst (choice a n p s)) = n;
  uniform_range : forall lo hi n s,
      lo < hi ->
      Forall (fun x => lo <= x /\ x < hi) (fst (uniform lo hi n s));
  choice_range : forall a n p s,
      a <> [] -> Forall (fun x => In x a) (fst (choice a n p s))
}.

(** ** The operating system *)

(** What the operating system answers when the script asks for a directory
    ([os.makedirs(path, exist_ok=True)]) or opens a path for writing: it
    depends on what the disk holds besides regular files (directories,
    permissions, free space), which the script neither reads nor controls.
    The answers are those of one machine: the same throughout a run and in
    every run compared with it. *)
Class OperatingSystem : Type := {
  can_makedirs : string -> bool;
  can_write : string -> bool
}.

(** ** Data *)

(** The dict returned by [create_simple_events]: one list per key. *)
Record events : Type := mk_events {
  ev_det_x : list Q;
  ev_det_y : list Q;
  ev_time : list Q;
  ev_energy : list Q;
  ev_ra : list Q;
  ev_dec : list Q;
  ev_source_id : list Z
}.

(** The same dict after [add_realistic_columns] has added four keys. *)
Record detector_events : Type := mk_detector_events {
  ev_base : events;
  ev_pi : list Z;
  ev_grade : list Z;
  ev_status : list Z;
  ev_frame : list Z
}.

(** A source is the tuple [(ra, dec, flux)]. *)
Definition source : Type := (Q * Q * Q)%type.

Record observation : Type := mk_observation {
  cfg_obs_id : string;
  cfg_ra_center : Q;
  cfg_dec_center : Q;
  cfg_sources : list source
}.

(** The attributes set by [XRayEventSimulator.__init__]. *)
Record XRayEventSimulator : Type := mk_simulator {
  obs_id : string;
  detector_size : Z * Z;
  pixel_scale : Q;
  exposure_time : Q;
  energy_gain : Q;
  energy_offset : Q;
  energy_range : Q * Q;
  background_rate : Q
}.

(** FITS structures as [astropy.io.fits] receives them. *)
Inductive card : Type :=
| CardStr (s : string)
| CardFloat (x : Q).

Definition header : Type := list (string * card).

Inductive array : Type :=
| FloatArray (a : list Q)
| IntArray (a : list Z).

Record column : Type := mk_column {
  col_name : string;
  col_format : string;
  col_unit : option string;
  col_array : array
}.

Record fits_file : Type := mk_fits {
  primary_header : header;
  table_name : string;
  table_header : header;
  table_columns : list column
}.

Inductive file : Type :=
| FitsFile (f : fits_file)
| TextFile (lines : list string).

(** ** Printed output and exceptions *)

(** One constructor per [print] call of the script, carrying the values its
    f-string interpolates. *)
Inductive message : Type :=
| MsgSimulating (n_sources : nat)
| MsgSource (id : Z) (ra dec flux : Q) (total_counts : nat)
| MsgBackground (bg_counts : nat)
| MsgWriting (n_events : nat) (filename : string)
| MsgWritten (filename : string)
| MsgBanner
| MsgIntro
| MsgObservation (id : string)
| MsgFieldCenter (ra dec : Q)
| MsgSources (n_sources : nat)
| MsgEventSummary
| MsgTotalEvents (total : nat)
| MsgSourceEvents (source_events total : nat)
| MsgBackgroundEvents (bg_events total : nat)
| MsgEnergyRange (lo hi : Q)
| MsgComplete
| MsgGenerated (n_files : nat)
| MsgFile (filename : string)
| MsgCatalog (filename : string)
| MsgReady
| MsgMissingPackages (error : string)
| MsgInstallHint.

(** The exceptions the script meets.  The text of a [ValueError] names the
    check that failed; it is a label, not the wording of numpy.  [OSError]
    stands for its subclasses too ([FileExistsError], [PermissionError],
    ...) and carries the path refused. *)
Inductive exception : Type :=
| ValueError (what : string)
| ImportError (module_name : string)
| OSError (path : string)
| SystemExit (code : Z).

Inductive result (A : Type) : Type :=
| Ok (a : A)
| Raise (e : exception).
Arguments Ok {A} a.
Arguments Raise {A} e.

Open Scope string_scope.
Open Scope list_scope.
Open Scope Q_scope.

(** ** The script's effects *)

Section Simulator.

Context {sampler : NumpyRandom} {os : OperatingSystem}.

(** What the script reads and changes outside its own variables: the global
    sampler state, the wall clock ([wall_clock w k] is the [k]-th next
    reading of [datetime.now().isoformat()]) and the files on disk. *)
Record world : Type := mk_world {
  np_random : rng_state;
  wall_clock : nat -> string;
  files : list (string * file)
}.

Record outcome (A : Type) : Type := mk_outcome {
  value : result A;
  after : world;
  printed : list message
}.
Arguments mk_outcome {A} value after printed.
Arguments value {A} o.
Arguments after {A} o.
Arguments printed {A} o.

Definition M (A : Type) : Type := world -> outcome A.

Definition ret {A : Type} (a : A) : M A :=
  fun w => mk_outcome (Ok a) w [].

Definition bind {A B : Type} (m : M A) (k : A -> M B) : M B :=
  fun w =>
    let r := m w in
    match value r with
    | Ok a =>
        let r' := k a (after r) in
        mk_outcome (value r') (after r') (printed r ++ printed r')
    | Raise e => mk_outcome (Raise e) (after r) (printed r)
    end.

Definition raise {A : Type} (e : exception) : M A :=
  fun w => mk_outcome (Raise e) w [].

(** [try: body except ImportError as e: handler(e)]. *)
Definition try_except_ImportError {A : Type} (body : M A)
    (handler : string -> M A) : M A :=
  fun w =>
    let r := body w in
    match value r with
    | Raise (ImportError name) =>
        let r' := handler name (after r) in
        mk_outcome (value r') (after r') (printed r ++ printed r')
    | _ => r
    end.

Definition print (m : message) : M unit :=
  fun w => mk_outcome (Ok tt) w [m].

Definition draw {A : Type} (f : rng_state -> A * rng_state) : M A :=
  fun w =>
    let r := f (np_random w) in
    mk_outcome (Ok (fst r)) (mk_world (snd r) (wall_clock w) (files w)) [].

Notation "x <- m ;; k" := (bind m (fun x => k))
  (at level 61, m at next level, right associativity).
Notation "m ;; k" := (bind m (fun _ => k))
  (at level 61, right associativity).

(** *** [np.random] as called by the script *)

Definition np_random_seed (k : Z) : M unit :=
  fun w => mk_outcome (Ok tt) (mk_world (seed k) (wall_clock w) (files w)) [].

(** [np.random.poisson] rejects a negative rate. *)
Definition np_random_poisson (lam : Q) : M nat :=
  if Qlt_le_dec lam 0 then raise (ValueError "lam < 0")
  else draw (poisson lam).

(** The scales passed to [normal] and [exponential] and the probabilities
    passed to [choice] are positive literals, which numpy accepts. *)
Definition np_random_normal (loc scale : Q) (size : nat) : M (list Q) :=
  draw (normal loc scale size).

Definition np_random_uniform (low high : Q) (size : nat) : M (list Q) :=
  draw (uniform low high size).

Definition np_random_exponential (scale : Q) (size : nat) : M (list Q) :=
  draw (exponential scale size).

Definition np_random_choice (a : list Z) (size : nat) (p : list Q)
  : M (list Z) :=
  draw (choice a size p).

(** [np.random.choice(5, ...)] draws from [np.arange(5)]. *)
Definition arange (n : nat) : list Z := map Z.of_nat (seq 0 n).

Definition datetime_now_isoformat : M string :=
  fun w =>
    mk_outcome (Ok (wall_clock w 0%nat))
      (mk_world (np_random w) (fun k => wall_clock w (S k)) (files w)) [].

(** Writing a file replaces what the path held ([overwrite=True], mode "w"),
    if the operating system lets the path be opened for writing (the
    directory is there, the permissions allow it, the path is no
    directory).  A refusal comes before anything is written.  A failure
    once the path is open, as on a full disk, is not modelled. *)
Definition write_file (path : string) (f : file) : M unit :=
  fun w =>
    if can_write path then
      mk_outcome (Ok tt)
        (mk_world (np_random w) (wall_clock w)
           ((path, f)
              :: filter (fun e => negb (String.eqb (fst e) path)) (files w)))
        []
    else mk_outcome (Raise (OSError path)) w [].

(** [os.makedirs(path, exist_ok=True)].  Directories are not regular files:
    creating them changes no entry of [files]. *)
Definition os_makedirs (path : string) : M unit :=
  if can_makedirs path then ret tt else raise (OSError path).

(** The content of the file at [path], if there is one. *)
Fixpoint read_file (path : string) (fs : list (string * file))
  : option file :=
  match fs with
  | [] => None
  | (p, f) :: rest => if String.eqb p path then Some f else read_file path rest
  end.

(** [a.min()] and [a.max()] raise on an array of size zero. *)
Definition array_min (a : list Q) : M Q :=
  match a with
  | [] => raise (ValueError "zero-size array to reduction operation minimum")
  | x :: a' => ret (fold_left minimum a' x)
  end.

Definition array_max (a : list Q) : M Q :=
  match a with
  | [] => raise (ValueError "zero-size array to reduction operation maximum")
  | x :: a' => ret (fold_left maximum a' x)
  end.

(** ** [XRayEventSimulator] *)

(** The attribute values assigned by [__init__]. *)
Definition attributes (id : string) : XRayEventSimulator :=
  {| obs_id := id;
     detector_size := (384, 384)%Z;
     pixel_scale := 41 # 10;
     exposure_time := 1000;
     energy_gain := 5 # 1000;
     energy_offset := 2 # 10;
     energy_range := (2 # 10, 10);
     background_rate := 1 # 10000 |}.

(** [__init__]: the last statement seeds the global sampler. *)
Definition init (id : string) : M XRayEventSimulator :=
  np_random_seed 42 ;;
  ret (attributes id).

(** The linear map between sky coordinates and detector pixels, and back. *)
Definition sky_to_det (self : XRayEventSimulator) (center sky : Q) : Q :=
  192 + (sky - center) * 3600 / pixel_scale self.

Definition det_to_sky (self : XRayEventSimulator) (center det : Q) : Q :=
  center + (det - 192) * pixel_scale self / 3600.

Definition no_events : events := mk_events [] [] [] [] [] [] [].

(** The seven [extend] calls on the accumulator lists. *)
Definition extend (acc blk : events) : events :=
  mk_events (ev_det_x acc ++ ev_det_x blk) (ev_det_y acc ++ ev_det_y blk)
    (ev_time acc ++ ev_time blk) (ev_energy acc ++ ev_energy blk)
    (ev_ra acc ++ ev_ra blk) (ev_dec acc ++ ev_dec blk)
    (ev_source_id acc ++ ev_source_id blk).

(** One iteration of the loop over [enumerate(sources)]. *)
Definition simulate_source (self : XRayEventSimulator)
    (ra_center dec_center : Q) (i : nat) (src : source) (acc : events)
  : M events :=
  let '(ra, dec, flux) := src in
  let det_x := sky_to_det self ra_center ra in
  let det_y := sky_to_det self dec_center dec in
  total_counts <- np_random_poisson (flux * exposure_time self) ;;
  if (0 <? total_counts)%nat then
    source_x <- np_random_normal det_x 2 total_counts ;;
    source_y <- np_random_normal det_y 2 total_counts ;;
    times <- np_random_uniform 0 (exposure_time self) total_counts ;;
    draws <- np_random_exponential (3 # 2) total_counts ;;
    let energies := map (fun e => e + (1 # 2)) draws in
    let energies := np_clip energies (2 # 10) 10 in
    let ra_vals := map (det_to_sky self ra_center) source_x in
    let dec_vals := map (det_to_sky self dec_center) source_y in
    let acc' :=
      extend acc
        (mk_events source_x source_y times energies ra_vals dec_vals
           (repeat (Z.of_nat i + 1)%Z total_counts)) in
    print (MsgSource (Z.of_nat i + 1) ra dec flux total_counts) ;;
    ret acc'
  else ret acc.

Fixpoint simulate_sources (self : XRayEventSimulator)
    (ra_center dec_center : Q) (i : nat) (sources : list source)
    (acc : events) : M events :=
  match sources with
  | [] => ret acc
  | src :: rest =>
      acc' <- simulate_source self ra_center dec_center i src acc ;;
      simulate_sources self ra_center dec_center (S i) rest acc'
  end.

Definition simulate_background (self : XRayEventSimulator)
    (ra_center dec_center : Q) (acc : events) : M events :=
  bg_counts <-
    np_random_poisson (background_rate self * 384 * 384 * exposure_time self) ;;
  if (0 <? bg_counts)%nat then
    bg_x <- np_random_uniform 0 384 bg_counts ;;
    bg_y <- np_random_uniform 0 384 bg_counts ;;
    bg_times <- np_random_uniform 0 (exposure_time self) bg_counts ;;
    bg_energies <- np_random_uniform (2 # 10) 10 bg_counts ;;
    let bg_ra := map (det_to_sky self ra_center) bg_x in
    let bg_dec := map (det_to_sky self dec_center) bg_y in
    let acc' :=
      extend acc
        (mk_events bg_x bg_y bg_times bg_energies bg_ra bg_dec
           (repeat 0%Z bg_counts)) in
    print (MsgBackground bg_counts) ;;
    ret acc'
  else ret acc.

(** Lines 61-129: the accumulators before they are sorted. *)
Definition accumulate_events (self : XRayEventSimulator)
    (sources : list source) (ra_center dec_center : Q) : M events :=
  print (MsgSimulating (length sources)) ;;
  acc <- simulate_sources self ra_center dec_center 0 sources no_events ;;
  simulate_background self ra_center dec_center acc.

(** Lines 131-151: every array indexed by the same [time_order]. *)
Definition sort_by_time (all : events) : events :=
  let time_order := np_argsort (ev_time all) in
  mk_events (take 0 (ev_det_x all) time_order)
    (take 0 (ev_det_y all) time_order)
    (take 0 (ev_time all) time_order)
    (take 0 (ev_energy all) time_order)
    (take 0 (ev_ra all) time_order)
    (take 0 (ev_dec all) time_order)
    (take 0%Z (ev_source_id all) time_order).

Definition create_simple_events (self : XRayEventSimulator)
    (sources : list source) (ra_center dec_center : Q) : M events :=
  all <- accumulate_events self sources ra_center dec_center ;;
  ret (sort_by_time all).

Definition add_realistic_columns (self : XRayEventSimulator) (evs : events)
  : M detector_events :=
  let n_events := length (ev_time evs) in
  let pi :=
    astype_int
      (np_round
         (map
            (fun e =>
               float_div (float_sub e (binary64 (energy_offset self)))
                 (binary64 (energy_gain self)))
            (ev_energy evs))) in
  let pi := np_clip_int pi 0 4095 in
  let grade_probs := [7 # 10; 2 # 10; 5 # 100; 3 # 100; 2 # 100] in
  grade <- np_random_choice (arange 5) n_events grade_probs ;;
  status <- np_random_choice [0; 1]%Z n_events [95 # 100; 5 # 100] ;;
  let frame :=
    astype_int
      (map (fun t => float_div t (binary64 (26 # 10))) (ev_time evs)) in
  ret (mk_detector_events evs pi grade status frame).

Definition primary_cards (self : XRayEventSimulator)
    (ra_center dec_center : Q) (date_obs : string) : header :=
  [ ("TELESCOP", CardStr "eROSITA-SIM");
    ("INSTRUME", CardStr "TM1");
    ("OBS_ID", CardStr (obs_id self));
    ("OBJECT", CardStr "Simulated Field");
    ("RA_NOM", CardFloat ra_center);
    ("DEC_NOM", CardFloat dec_center);
    ("EXPOSURE", CardFloat (exposure_time self));
    ("TSTART", CardFloat 0);
    ("TSTOP", CardFloat (exposure_time self));
    ("DATE-OBS", CardStr date_obs);
    ("CREATOR", CardStr "MinieSASS Test Data Generator") ].

Definition table_cols (evs : detector_events) : list column :=
  let e := ev_base evs in
  [ mk_column "TIME" "D" (Some "s") (FloatArray (ev_time e));
    mk_column "X" "E" (Some "pixel") (FloatArray (ev_det_x e));
    mk_column "Y" "E" (Some "pixel") (FloatArray (ev_det_y e));
    mk_column "RA" "D" (Some "deg") (FloatArray (ev_ra e));
    mk_column "DEC" "D" (Some "deg") (FloatArray (ev_dec e));
    mk_column "ENERGY" "E" (Some "keV") (FloatArray (ev_energy e));
    mk_column "PI" "I" (Some "channel") (IntArray (ev_pi evs));
    mk_column "GRADE" "I" None (IntArray (ev_grade evs));
    mk_column "STATUS" "I" None (IntArray (ev_status evs));
    mk_column "FRAME" "J" None (IntArray (ev_frame evs));
    mk_column "SRC_ID" "I" None (IntArray (ev_source_id e)) ].

Definition table_cards (self : XRayEventSimulator) : header :=
  [ ("EXTNAME", CardStr "EVENTS");
    ("HDUCLASS", CardStr "OGIP");
    ("HDUCLAS1", CardStr "EVENTS");
    ("TLMIN1", CardFloat 0);
    ("TLMAX1", CardFloat (exposure_time self)) ].

Definition write_fits_file (self : XRayEventSimulator)
    (evs : detector_events) (filename : string) (ra_center dec_center : Q)
  : M string :=
  print (MsgWriting (length (ev_time (ev_base evs))) filename) ;;
  date_obs <- datetime_now_isoformat ;;
  let hdul :=
    mk_fits (primary_cards self ra_center dec_center date_obs) "EVENTS"
      (table_cards self) (table_cols evs) in
  write_file filename (FitsFile hdul) ;;
  print (MsgWritten filename) ;;
  ret filename.

(** ** The script: observations, [main], and the module body *)

Definition create_test_observations : list observation :=
  [ mk_observation "TEST001" 30 10
      [ (3005 # 100, 1003 # 100, 150 # 1000);
        (2995 # 100, 1008 # 100, 80 # 1000);
        (3008 # 100, 992 # 100, 40 # 1000);
        (2992 # 100, 995 # 100, 25 # 1000);
        (3002 # 100, 1015 # 100, 200 # 1000) ];
    mk_observation "TEST002" 45 (-5)
      [ (4503 # 100, - (497 # 100), 120 # 1000);
        (4498 # 100, - (505 # 100), 60 # 1000);
        (4512 # 100, - (488 # 100), 180 # 1000) ] ].

(** The body of the loop over [observations] in [main]. *)
Definition generate_observation (output_dir : string)
    (obs_config : observation) : M string :=
  print (MsgObservation (cfg_obs_id obs_config)) ;;
  print (MsgFieldCenter (cfg_ra_center obs_config)
           (cfg_dec_center obs_config)) ;;
  print (MsgSources (length (cfg_sources obs_config))) ;;
  simulator <- init (cfg_obs_id obs_config) ;;
  evs <- create_simple_events simulator (cfg_sources obs_config)
           (cfg_ra_center obs_config) (cfg_dec_center obs_config) ;;
  evs <- add_realistic_columns simulator evs ;;
  let filename :=
    path_join output_dir (cfg_obs_id obs_config ++ "_events.fits")%string in
  write_fits_file simulator evs filename (cfg_ra_center obs_config)
    (cfg_dec_center obs_config) ;;
  let total_events := length (ev_time (ev_base evs)) in
  let source_events :=
    count_if (fun s => (0 <? s)%Z) (ev_source_id (ev_base evs)) in
  let bg_events :=
    count_if (fun s => (s =? 0)%Z) (ev_source_id (ev_base evs)) in
  print MsgEventSummary ;;
  print (MsgTotalEvents total_events) ;;
  print (MsgSourceEvents source_events total_events) ;;
  print (MsgBackgroundEvents bg_events total_events) ;;
  lo <- array_min (ev_energy (ev_base evs)) ;;
  hi <- array_max (ev_energy (ev_base evs)) ;;
  print (MsgEnergyRange lo hi) ;;
  ret filename.

Fixpoint generate_observations (output_dir : string)
    (observations : list observation) (generated_files : list string)
  : M (list string) :=
  match observations with
  | [] => ret generated_files
  | obs_config :: rest =>
      filename <- generate_observation output_dir obs_config ;;
      generate_observations output_dir rest (generated_files ++ [filename])
  end.

Fixpoint print_files (generated_files : list string) : M unit :=
  match generated_files with
  | [] => ret tt
  | filename :: rest => print (MsgFile filename) ;; print_files rest
  end.

(** One catalog row: the f-string of line 337. *)
Definition catalog_row (id : string) (i : nat) (src : source) : string :=
  let '(ra, dec, flux) := src in
  (id ++ "  " ++ format_d 2 (Z.of_nat i + 1) ++ "  " ++ format_f 8 4 ra
     ++ "  " ++ format_f 8 4 dec ++ "  " ++ format_f 8 4 flux)%string.

Definition catalog_rows (obs_config : observation) : list string :=
  map (fun p => catalog_row (cfg_obs_id obs_config) (fst p) (snd p))
    (combine (seq 0 (length (cfg_sources obs_config)))
       (cfg_sources obs_config)).

(** The lines written to the catalog file, in order. *)
Definition catalog_lines (observations : list observation) : list string :=
  [ "# MinieSASS Test Source Catalog";
    "# Format: OBS_ID  SOURCE_ID  RA_DEG  DEC_DEG  FLUX_CTS_PER_SEC" ]
    ++ flat_map catalog_rows observations.

Definition catalog_path : string :=
  path_join "data/simulated" "source_catalog.txt".

Definition main : M unit :=
  print MsgBanner ;;
  print MsgIntro ;;
  let output_dir := "data/simulated/raw" in
  os_makedirs output_dir ;;
  let observations := create_test_observations in
  generated_files <- generate_observations output_dir observations [] ;;
  let catalog_file := catalog_path in
  write_file catalog_file (TextFile (catalog_lines observations)) ;;
  print MsgComplete ;;
  print (MsgGenerated (length generated_files)) ;;
  print_files generated_files ;;
  print (MsgCatalog catalog_file) ;;
  print MsgReady.

(** *** Module level: imports, then [main()] *)

(** [import name] in an installation where [importable] tells which
    modules can be loaded. *)
Definition import_module (importable : string -> bool) (name : string)
  : M unit :=
  if importable name then ret tt else raise (ImportError name).

Definition guarded_imports : list string :=
  [ "matplotlib.pyplot"; "astropy.io.fits"; "astropy.wcs"; "astropy.time";
    "astropy.coordinates"; "astropy.units" ].

Definition required_imports : list string := "numpy" :: guarded_imports.

Fixpoint import_all (importable : string -> bool) (names : list string)
  : M unit :=
  match names with
  | [] => ret tt
  | name :: rest =>
      import_module importable name ;; import_all importable rest
  end.

(** Lines 19-31, then the definitions, then [main()] under the
    [__name__ == "__main__"] test. *)
Definition script (importable : string -> bool) : M unit :=
  import_module importable "numpy" ;;
  try_except_ImportError (import_all importable guarded_imports)
    (fun name =>
       print (MsgMissingPackages name) ;;
       print MsgInstallHint ;;
       raise (SystemExit 1)) ;;
  main.

(** What the operating system sees of a run of the interpreter. *)
Record process : Type := mk_process {
  exit_status : Z;
  proc_stdout : list message;
  traceback : option exception;
  final : world
}.

(** [SystemExit] ends the process with its code; any other exception that
    reaches the top is reported on standard error with status 1. *)
Definition run_script (importable : string -> bool) (w : world) : process :=
  let r := script importable w in
  match value r with
  | Ok _ => mk_process 0 (printed r) None (after r)
  | Raise (SystemExit code) => mk_process code (printed r) None (after r)
  | Raise e => mk_process 1 (printed r) (Some e) (after r)
  end.

End Simulator.

Arguments mk_outcome {sampler A} value after printed.
Arguments value {sampler A} o.
Arguments after {sampler A} o.
Arguments printed {sampler A} o.

Notation "x <- m ;; k" := (bind m (fun x => k))
  (at level 61, m at next level, right associativity).
Notation "m ;; k" := (bind m (fun _ => k))
  (at level 61, right associativity).

(** * Properties of the event generation *)

Section EventProperties.

Context {sampler : NumpyRandom}.



(** ** Arithmetic of the array functions *)

Lemma maximum_ge_l (x y : Q) : x <= maximum x y.
Proof. unfold maximum. destruct (Qlt_le_dec x y); lra. Qed.

Lemma maximum_ge_r (x y : Q) : y <= maximum x y.
Proof. unfold maximum. destruct (Qlt_le_dec x y); lra. Qed.

Lemma maximum_cases (x y : Q) : maximum x y = x \/ maximum x y = y.
Proof. unfold maximum. destruct (Qlt_le_dec x y); auto. Qed.

Lemma minimum_le_l (x y : Q) : minimum x y <= x.
Proof. unfold minimum. destruct (Qlt_le_dec y x); lra. Qed.

Lemma minimum_le_r (x y : Q) : minimum x y <= y.
Proof. unfold minimum. destruct (Qlt_le_dec y x); lra. Qed.

Lemma minimum_cases (x y : Q) : minimum x y = x \/ minimum x y = y.
Proof. unfold minimum. destruct (Qlt_le_dec y x); auto. Qed.

Lemma clip1_range (lo hi x : Q) : lo <= hi -> lo <= clip1 lo hi x <= hi.
Proof.
  intros Hlh. unfold clip1, minimum, maximum.
  destruct (Qlt_le_dec x lo); destruct (Qlt_le_dec hi _); lra.
Qed.

Lemma clip1_int_range (lo hi x : Z) :
  (lo <= hi)%Z -> (lo <= clip1_int lo hi x <= hi)%Z.
Proof. unfold clip1_int. lia. Qed.

(** The clamp of the specification, by cases. *)
Definition clamp (x lo hi : Z) : Z :=
  if (x <? lo)%Z then lo else if (hi <? x)%Z then hi else x.

Lemma clip1_int_clamp (lo hi x : Z) :
  (lo <= hi)%Z -> clip1_int lo hi x = clamp x lo hi.
Proof.
  intros H. unfold clip1_int, clamp.
  destruct (Z.ltb_spec x lo); destruct (Z.ltb_spec hi x); lia.
Qed.

(** [n] is an integer nearest to [x], the even one when two are. *)
Definition nearest_even (x : Q) (n : Z) : Prop :=
  Qabs (x - inject_Z n) <= 1 # 2 /\
  (Qabs (x - inject_Z n) == 1 # 2 -> Z.even n = true).

Lemma floor_frac (x : Q) :
  0 <= x - inject_Z (Qfloor x) /\ x - inject_Z (Qfloor x) < 1.
Proof.
  pose proof (Qfloor_le x) as H1. pose proof (Qlt_floor x) as H2.
  rewrite inject_Z_plus in H2. change (inject_Z 1) with 1 in H2. lra.
Qed.

Lemma round_half_even_nearest (x : Q) : nearest_even x (round_half_even x).
Proof.
  unfold nearest_even, round_half_even.
  destruct (floor_frac x) as [H0 H1].
  set (f := Qfloor x) in *.
  destruct (Qcompare (x - inject_Z f) (1 # 2)) eqn:Hc.
  - apply Qeq_alt in Hc.
    destruct (Z.even f) eqn:He.
    + split; [rewrite Qabs_pos; lra | auto].
    + rewrite inject_Z_plus. change (inject_Z 1) with 1.
      split.
      * rewrite Qabs_neg; lra.
      * intros _. rewrite Z.even_add, He. reflexivity.
  - apply Qlt_alt in Hc. rewrite Qabs_pos by lra. split; [lra |].
    intros E. lra.
  - apply Qgt_alt in Hc. rewrite inject_Z_plus. change (inject_Z 1) with 1.
    rewrite Qabs_neg by lra. split; [lra |]. intros E. lra.
Qed.

Lemma trunc_inject_Z (z : Z) : trunc (inject_Z z) = z.
Proof. unfold trunc. simpl. apply Z.quot_1_r. Qed.

Lemma trunc_floor (x : Q) : 0 <= x -> trunc x = Qfloor x.
Proof.
  intros H. destruct x as [n d]. unfold trunc, Qfloor. simpl.
  unfold Qle in H. simpl in H.
  apply Z.quot_div_nonneg; lia.
Qed.

Lemma trunc_range (x hi : Q) :
  0 <= x -> x <= hi -> (0 <= trunc x <= Qfloor hi)%Z.
Proof.
  intros H0 H1. rewrite trunc_floor by exact H0. split.
  - change 0%Z with (Qfloor 0). apply Qfloor_resp_le. exact H0.
  - apply Qfloor_resp_le. exact H1.
Qed.

(** ** Rounding to binary64 is monotone *)

Lemma round_half_even_near (x : Q) :
  x - (1 # 2) <= inject_Z (round_half_even x) /\
  inject_Z (round_half_even x) <= x + (1 # 2).
Proof.
  unfold round_half_even.
  destruct (floor_frac x) as [H0 H1].
  set (f := Qfloor x) in *.
  destruct (Qcompare (x - inject_Z f) (1 # 2)) eqn:Hc.
  - apply Qeq_alt in Hc.
    destruct (Z.even f); [lra |].
    rewrite inject_Z_plus. change (inject_Z 1) with 1. lra.
  - apply Qlt_alt in Hc. lra.
  - apply Qgt_alt in Hc. rewrite inject_Z_plus. change (inject_Z 1) with 1.
    lra.
Qed.

Lemma round_half_even_eq (x y : Q) :
  x == y -> round_half_even x = round_half_even y.
Proof.
  intros E. unfold round_half_even.
  rewrite (Qfloor_comp x y E).
  assert (Hc : Qcompare (x - inject_Z (Qfloor y)) (1 # 2)
               = Qcompare (y - inject_Z (Qfloor y)) (1 # 2)).
  { apply Qcompare_comp; [rewrite E; reflexivity | reflexivity]. }
  rewrite Hc. reflexivity.
Qed.

Lemma round_half_even_monotone (x y : Q) :
  x <= y -> (round_half_even x <= round_half_even y)%Z.
Proof.
  intros Hxy.
  destruct (Z_le_gt_dec (round_half_even x) (round_half_even y))
    as [H | H]; [exact H | exfalso].
  destruct (round_half_even_near x) as [_ Hx].
  destruct (round_half_even_near y) as [Hy _].
  assert (H1 : inject_Z (round_half_even y) + 1
               <= inject_Z (round_half_even x)).
  { change 1 with (inject_Z 1). rewrite <- inject_Z_plus.
    rewrite <- Zle_Qle. lia. }
  assert (E : x == y) by lra.
  rewrite (round_half_even_eq x y E) in H. lia.
Qed.

Lemma round_half_even_inject_Z (z : Z) : round_half_even (inject_Z z) = z.
Proof.
  unfold round_half_even. rewrite Qfloor_Z.
  assert (E : Qcompare (inject_Z z - inject_Z z) (1 # 2) = Lt).
  { apply Qlt_alt. setoid_replace (inject_Z z - inject_Z z) with 0 by ring.
    reflexivity. }
  rewrite E. reflexivity.
Qed.

(** Powers of two. *)

Lemma pow2_pos (e : Z) : 0 < pow2 e.
Proof. apply Qpower_0_lt. reflexivity. Qed.

Lemma pow2_add (a b : Z) : pow2 (a + b) == pow2 a * pow2 b.
Proof. apply Qpower_plus. discriminate. Qed.

Lemma pow2_cancel (e : Z) : pow2 e * pow2 (- e) == 1.
Proof.
  rewrite <- pow2_add. rewrite Z.add_opp_diag_r. reflexivity.
Qed.

Lemma pow2_succ (e : Z) : pow2 (e + 1) == 2 * pow2 e.
Proof. rewrite pow2_add. change (pow2 1) with 2. lra. Qed.

Lemma pow2_nonneg (k : Z) : (0 <= k)%Z -> pow2 k == inject_Z (2 ^ k).
Proof.
  intros H. unfold pow2. rewrite Zpower_Qpower by exact H. reflexivity.
Qed.

Lemma pow2_ge_1 (k : Z) : (0 <= k)%Z -> 1 <= pow2 k.
Proof.
  intros H. rewrite pow2_nonneg by exact H.
  change 1 with (inject_Z 1). rewrite <- Zle_Qle.
  pose proof (Z.pow_pos_nonneg 2 k). lia.
Qed.

Lemma pow2_le (a b : Z) : (a <= b)%Z -> pow2 a <= pow2 b.
Proof.
  intros H. replace b with (a + (b - a))%Z by lia.
  rewrite pow2_add.
  pose proof (pow2_pos a). pose proof (pow2_ge_1 (b - a) ltac:(lia)). nra.
Qed.

(** The binade of a positive number: its significand has 53 bits, fewer
    for a subnormal. *)

Lemma scale_lt (x c : Q) (e : Z) : x * pow2 (- e) < c <-> x < c * pow2 e.
Proof.
  pose proof (pow2_pos e) as Hp. pose proof (pow2_pos (- e)) as Hq.
  pose proof (pow2_cancel e) as Hc.
  set (p := pow2 e) in *. set (q := pow2 (- e)) in *.
  split; intros H.
  - assert (H1 : x * q * p < c * p) by nra.
    assert (E : x * q * p == x)
      by (rewrite <- Qmult_assoc, (Qmult_comm q p), Hc; ring).
    lra.
  - assert (H1 : x * q < c * p * q) by nra.
    assert (E : c * p * q == c) by (rewrite <- Qmult_assoc, Hc; ring).
    lra.
Qed.

Lemma scale_le (x c : Q) (e : Z) : c <= x * pow2 (- e) <-> c * pow2 e <= x.
Proof.
  split; intros H.
  - destruct (Qlt_le_dec x (c * pow2 e)) as [Hlt | Hge]; [| exact Hge].
    apply scale_lt in Hlt. lra.
  - destruct (Qlt_le_dec (x * pow2 (- e)) c) as [Hlt | Hge]; [| exact Hge].
    apply scale_lt in Hlt. lra.
Qed.

Lemma log2_bounds (n : Z) :
  (0 < n)%Z ->
  pow2 (Z.log2 n) <= inject_Z n /\ inject_Z n < pow2 (Z.log2 n + 1).
Proof.
  intros Hn. destruct (Z.log2_spec n Hn) as [H1 H2].
  pose proof (Z.log2_nonneg n) as H0.
  rewrite !pow2_nonneg by lia.
  rewrite <- Zle_Qle, <- Zlt_Qlt. unfold Z.succ in H2. auto.
Qed.

Lemma Qmake_num_den (x : Q) : x * inject_Z (Zpos (Qden x)) == inject_Z (Qnum x).
Proof.
  destruct x as [n d]. unfold Qeq, Qmult, inject_Z. simpl.
  rewrite ?Pos.mul_1_r. ring.
Qed.

Lemma Qeq_refl_eq (x y : Q) : x = y -> x == y.
Proof. intros ->. reflexivity. Qed.

Lemma ratio_bounds (x n d pa pa1 pb pb1 p1 p2 : Q) :
  x * d == n -> pa <= n -> n < pa1 -> pb <= d -> d < pb1 ->
  pa == p1 * pb1 -> pa1 == p2 * pb ->
  0 < x -> 0 < p1 -> 0 < p2 -> 0 < pb -> 0 < pb1 ->
  p1 < x /\ x < p2.
Proof.
  intros E Na Nb Da Db E1 E2 Hx H1 H2 H3 H4. split.
  - destruct (Qlt_le_dec p1 x) as [Hlt | Hle]; [exact Hlt | exfalso].
    assert (x * d < p1 * pb1) by nra. lra.
  - destruct (Qlt_le_dec x p2) as [Hlt | Hle]; [exact Hlt | exfalso].
    assert (p2 * pb <= x * d) by nra. lra.
Qed.

Lemma raw_exponent (x : Q) :
  0 < x ->
  pow2 (Z.log2 (Qnum x) - Z.log2 (Zpos (Qden x)) - 1) < x /\
  x < pow2 (Z.log2 (Qnum x) - Z.log2 (Zpos (Qden x)) + 1).
Proof.
  intros Hx.
  assert (Hn : (0 < Qnum x)%Z).
  { destruct x as [n d]. unfold Qlt in Hx. simpl in *. lia. }
  destruct (log2_bounds (Qnum x) Hn) as [Na Nb].
  destruct (log2_bounds (Zpos (Qden x)) eq_refl) as [Da Db].
  apply (ratio_bounds x (inject_Z (Qnum x)) (inject_Z (Zpos (Qden x)))
           (pow2 (Z.log2 (Qnum x))) (pow2 (Z.log2 (Qnum x) + 1))
           (pow2 (Z.log2 (Zpos (Qden x))))
           (pow2 (Z.log2 (Zpos (Qden x)) + 1)));
    try assumption; try apply pow2_pos.
  - apply Qmake_num_den.
  - rewrite <- pow2_add. apply Qeq_refl_eq. f_equal. lia.
  - rewrite <- pow2_add. apply Qeq_refl_eq. f_equal. lia.
Qed.

Lemma binade_spec (x : Q) :
  0 < x ->
  (-1074 <= binade x)%Z /\
  x < pow2 53 * pow2 (binade x) /\
  ((-1074 < binade x)%Z -> pow2 52 * pow2 (binade x) <= x).
Proof.
  intros Hx. unfold binade.
  destruct (raw_exponent x Hx) as [Hlo Hhi].
  set (e := (Z.log2 (Qnum x) - Z.log2 (Zpos (Qden x)) - 52)%Z) in *.
  replace (Z.log2 (Qnum x) - Z.log2 (Zpos (Qden x)) - 1)%Z
    with (51 + e)%Z in Hlo by (unfold e; lia).
  replace (Z.log2 (Qnum x) - Z.log2 (Zpos (Qden x)) + 1)%Z
    with (53 + e)%Z in Hhi by (unfold e; lia).
  rewrite pow2_add in Hlo, Hhi.
  set (e1 := if Qle_bool (pow2 52) (x * pow2 (- e)) then e else (e - 1)%Z).
  assert (H1 : x < pow2 53 * pow2 e1 /\ pow2 52 * pow2 e1 <= x).
  { unfold e1. destruct (Qle_bool (pow2 52) (x * pow2 (- e))) eqn:T.
    - apply Qle_bool_iff in T. apply scale_le in T. split; assumption.
    - assert (T' : x * pow2 (- e) < pow2 52).
      { destruct (Qlt_le_dec (x * pow2 (- e)) (pow2 52)) as [Hlt | Hge];
          [exact Hlt |].
        apply Qle_bool_iff in Hge. congruence. }
      apply scale_lt in T'.
      assert (E : pow2 e == 2 * pow2 (e - 1)).
      { rewrite <- pow2_succ. replace (e - 1 + 1)%Z with e by lia.
        reflexivity. }
      assert (E52 : pow2 52 == 2 * pow2 51) by reflexivity.
      assert (E53 : pow2 53 == 4 * pow2 51) by reflexivity.
      rewrite E52 in T'. rewrite E52, E53, E in *.
      set (q := pow2 (e - 1)) in *. set (c := pow2 51) in *.
      split; nra. }
  destruct H1 as [Hup Hdown].
  destruct (Z.max_spec (-1074) e1) as [[Hlt ->] | [Hge ->]].
  - split; [lia |]. split; [exact Hup |]. intros _. exact Hdown.
  - split; [lia |]. split; [| lia].
    pose proof (pow2_le e1 (-1074) Hge) as Hl.
    assert (0 < pow2 53) by apply pow2_pos.
    set (c := pow2 53) in *. set (p := pow2 e1) in *.
    set (p' := pow2 (-1074)) in *. nra.
Qed.

Lemma binade_monotone (x y : Q) :
  0 < x -> x <= y -> (binade x <= binade y)%Z.
Proof.
  intros Hx Hxy.
  destruct (binade_spec x Hx) as (Hx0 & Hx1 & Hx2).
  destruct (binade_spec y ltac:(lra)) as (Hy0 & Hy1 & Hy2).
  destruct (Z_le_gt_dec (binade x) (binade y)) as [H | H];
    [exact H | exfalso].
  specialize (Hx2 ltac:(lia)).
  pose proof (pow2_le (binade y + 1) (binade x) ltac:(lia)) as Hl.
  rewrite pow2_succ in Hl.
  change (pow2 53) with (2 * pow2 52) in Hy1.
  assert (0 < pow2 52) by apply pow2_pos.
  set (c := pow2 52) in *. set (p := pow2 (binade x)) in *.
  set (q := pow2 (binade y)) in *. nra.
Qed.

Lemma binade_eq (x y : Q) : 0 < x -> x == y -> binade x = binade y.
Proof.
  intros Hx E.
  pose proof (binade_monotone x y Hx ltac:(lra)).
  pose proof (binade_monotone y x ltac:(lra) ltac:(lra)). lia.
Qed.

Lemma significand_bounds (x : Q) :
  0 < x ->
  (0 <= round_half_even (x * pow2 (- binade x)) <= 2 ^ 53)%Z /\
  ((-1074 < binade x)%Z ->
   (2 ^ 52 <= round_half_even (x * pow2 (- binade x)))%Z).
Proof.
  intros Hx. destruct (binade_spec x Hx) as (H0 & H1 & H2).
  apply scale_lt in H1.
  pose proof (pow2_pos (- binade x)) as Hq.
  split; [split |].
  - rewrite <- (round_half_even_inject_Z 0).
    apply round_half_even_monotone. change (inject_Z 0) with 0. nra.
  - rewrite <- (round_half_even_inject_Z (2 ^ 53)).
    apply round_half_even_monotone.
    rewrite <- pow2_nonneg by lia. lra.
  - intros Hn. specialize (H2 Hn). apply scale_le in H2.
    rewrite <- (round_half_even_inject_Z (2 ^ 52)).
    apply round_half_even_monotone.
    rewrite <- pow2_nonneg by lia. exact H2.
Qed.

Lemma round_pos_nonneg (x : Q) : 0 < x -> 0 <= round_pos x.
Proof.
  intros Hx. unfold round_pos.
  destruct (significand_bounds x Hx) as [[H0 _] _].
  rewrite Zle_Qle in H0. change (inject_Z 0) with 0 in H0.
  pose proof (pow2_pos (binade x)). nra.
Qed.

Lemma round_pos_monotone (x y : Q) :
  0 < x -> x <= y -> round_pos x <= round_pos y.
Proof.
  intros Hx Hxy. assert (Hy : 0 < y) by lra.
  pose proof (binade_monotone x y Hx Hxy) as He.
  unfold round_pos.
  destruct (significand_bounds x Hx) as [[_ Hxu] _].
  destruct (significand_bounds y Hy) as [[Hy0 _] Hyl].
  pose proof (pow2_pos (binade x)) as Hpx.
  pose proof (pow2_pos (binade y)) as Hpy.
  destruct (Z.eq_dec (binade x) (binade y)) as [E | Hne].
  - rewrite E.
    assert (Hm : (round_half_even (x * pow2 (- binade y))
                  <= round_half_even (y * pow2 (- binade y)))%Z).
    { apply round_half_even_monotone.
      pose proof (pow2_pos (- binade y)). nra. }
    rewrite Zle_Qle in Hm. nra.
  - specialize (Hyl ltac:(destruct (binade_spec x Hx); lia)).
    rewrite Zle_Qle in Hxu, Hyl.
    rewrite <- !pow2_nonneg in Hxu, Hyl by lia.
    pose proof (pow2_le (binade x + 1) (binade y) ltac:(lia)) as Hl.
    rewrite pow2_succ in Hl.
    change (pow2 53) with (2 * pow2 52) in Hxu.
    assert (0 < pow2 52) by apply pow2_pos.
    set (c := pow2 52) in *.
    set (mx := inject_Z (round_half_even (x * pow2 (- binade x)))) in *.
    set (my := inject_Z (round_half_even (y * pow2 (- binade y)))) in *.
    set (p := pow2 (binade x)) in *. set (q := pow2 (binade y)) in *.
    assert (mx * p <= 2 * c * p) by nra.
    assert (c * q <= my * q) by nra.
    nra.
Qed.

Lemma binary64_positive (x : Q) : 0 < x -> binary64 x = round_pos x.
Proof.
  intros H. assert (E : Qcompare x 0 = Gt) by (apply Qgt_alt; exact H).
  unfold binary64. rewrite E. reflexivity.
Qed.

Lemma binary64_negative (x : Q) : x < 0 -> binary64 x = - round_pos (- x).
Proof.
  intros H. assert (E : Qcompare x 0 = Lt) by (apply Qlt_alt; exact H).
  unfold binary64. rewrite E. reflexivity.
Qed.

Lemma binary64_zero (x : Q) : x == 0 -> binary64 x = 0.
Proof.
  intros H. assert (E : Qcompare x 0 = Eq) by (apply Qeq_alt; exact H).
  unfold binary64. rewrite E. reflexivity.
Qed.

Lemma binary64_monotone (x y : Q) : x <= y -> binary64 x <= binary64 y.
Proof.
  intros Hxy.
  destruct (Q_dec x 0) as [[Hx | Hx] | Hx];
    destruct (Q_dec y 0) as [[Hy | Hy] | Hy]; try lra.
  - rewrite (binary64_negative x Hx), (binary64_negative y Hy).
    pose proof (round_pos_monotone (- y) (- x) ltac:(lra) ltac:(lra)). lra.
  - rewrite (binary64_negative x Hx), (binary64_positive y Hy).
    pose proof (round_pos_nonneg (- x) ltac:(lra)).
    pose proof (round_pos_nonneg y Hy). lra.
  - rewrite (binary64_negative x Hx), (binary64_zero y Hy).
    pose proof (round_pos_nonneg (- x) ltac:(lra)). lra.
  - rewrite (binary64_positive x Hx), (binary64_positive y Hy).
    apply round_pos_monotone; assumption.
  - rewrite (binary64_zero x Hx), (binary64_positive y Hy).
    apply round_pos_nonneg. exact Hy.
  - rewrite (binary64_zero x Hx), (binary64_zero y Hy). lra.
Qed.

Lemma binary64_eq (x y : Q) : x == y -> binary64 x == binary64 y.
Proof.
  intros E. apply Qle_antisym; apply binary64_monotone; lra.
Qed.

(** Float division by a positive number keeps the order. *)
Lemma float_div_monotone (x y c : Q) :
  0 < c -> x <= y -> float_div x c <= float_div y c.
Proof.
  intros Hc Hxy. unfold float_div. apply binary64_monotone.
  unfold Qdiv. pose proof (Qinv_lt_0_compat c Hc). nra.
Qed.

Lemma float_sub_monotone (x y c : Q) :
  x <= y -> float_sub x c <= float_sub y c.
Proof.
  intros Hxy. unfold float_sub. apply binary64_monotone. lra.
Qed.

(** ** [np_argsort] returns a sorting permutation *)

Definition key_le (p q : Q * nat) : Prop := fst p <= fst q.

Lemma insert_key_perm (p : Q * nat) (l : list (Q * nat)) :
  Permutation (insert_key p l) (p :: l).
Proof.
  induction l as [| q l IH]; simpl.
  - apply Permutation_refl.
  - destruct (Qle_bool (fst p) (fst q)).
    + apply Permutation_refl.
    + apply perm_trans with (q :: p :: l).
      * apply perm_skip. exact IH.
      * apply perm_swap.
Qed.

Lemma insert_key_sorted (p : Q * nat) (l : list (Q * nat)) :
  Sorted key_le l -> Sorted key_le (insert_key p l).
Proof.
  induction 1 as [| q l Hs IH Hhd]; simpl.
  - repeat constructor.
  - destruct (Qle_bool (fst p) (fst q)) eqn:E.
    + apply Qle_bool_iff in E. repeat constructor; assumption.
    + assert (Hqp : key_le q p).
      { unfold key_le. destruct (Qlt_le_dec (fst q) (fst p)) as [Hlt | Hle].
        - lra.
        - apply Qle_bool_iff in Hle. congruence. }
      constructor; [exact IH |].
      destruct Hhd as [| r l Hqr]; simpl.
      * constructor. exact Hqp.
      * destruct (Qle_bool (fst p) (fst r)); constructor; assumption.
Qed.

Lemma sort_keys_perm (l : list (Q * nat)) : Permutation (sort_keys l) l.
Proof.
  induction l as [| p l IH]; simpl.
  - apply Permutation_refl.
  - eapply perm_trans; [apply insert_key_perm |].
    apply perm_skip. exact IH.
Qed.

Lemma sort_keys_sorted (l : list (Q * nat)) :
  StronglySorted key_le (sort_keys l).
Proof.
  apply Sorted_StronglySorted.
  - intros a b c Hab Hbc. unfold key_le in *. lra.
  - induction l as [| p l IH]; simpl.
    + constructor.
    + apply insert_key_sorted. exact IH.
Qed.

Lemma map_snd_combine_seq {A : Type} (a : list A) (k : nat) :
  map snd (combine a (seq k (length a))) = seq k (length a).
Proof.
  revert k. induction a as [| x a IH]; intros k; simpl.
  - reflexivity.
  - f_equal. apply IH.
Qed.

Lemma in_combine_seq (a : list Q) (p : Q * nat) :
  In p (combine a (seq 0 (length a))) ->
  (snd p < length a)%nat /\ nth (snd p) a 0 = fst p.
Proof.
  intros Hin.
  destruct (In_nth _ _ (0, 0%nat) Hin) as [i [Hi Hp]].
  rewrite length_combine, length_seq, Nat.min_id in Hi.
  rewrite combine_nth in Hp by (rewrite length_seq; reflexivity).
  rewrite seq_nth in Hp by exact Hi.
  subst p. simpl. split; [exact Hi | reflexivity].
Qed.

Lemma argsort_perm (a : list Q) :
  Permutation (np_argsort a) (seq 0 (length a)).
Proof.
  unfold np_argsort.
  rewrite <- (map_snd_combine_seq a 0) at 2.
  apply Permutation_map. apply sort_keys_perm.
Qed.

Lemma argsort_length (a : list Q) : length (np_argsort a) = length a.
Proof.
  rewrite (Permutation_length (argsort_perm a)). apply length_seq.
Qed.

(** Every index of [np_argsort a] is a position of [a]. *)
Lemma argsort_lt (a : list Q) (i : nat) :
  In i (np_argsort a) -> (i < length a)%nat.
Proof.
  intros Hin.
  apply (Permutation_in _ (argsort_perm a)) in Hin.
  apply in_seq in Hin. lia.
Qed.

Lemma argsort_nth_lt (a : list Q) (k : nat) :
  (k < length a)%nat -> (nth k (np_argsort a) 0%nat < length a)%nat.
Proof.
  intros Hk. apply argsort_lt. apply nth_In.
  rewrite argsort_length. exact Hk.
Qed.

Lemma take_argsort_keys (a : list Q) :
  take 0 a (np_argsort a)
  = map fst (sort_keys (combine a (seq 0 (length a)))).
Proof.
  unfold take, np_argsort. rewrite map_map.
  apply map_ext_in. intros p Hp.
  apply (Permutation_in _ (sort_keys_perm _)) in Hp.
  apply in_combine_seq in Hp. tauto.
Qed.

Lemma strongly_sorted_map_fst (l : list (Q * nat)) :
  StronglySorted key_le l -> StronglySorted Qle (map fst l).
Proof.
  induction 1 as [| p l Hs IH Hall]; simpl; constructor.
  - exact IH.
  - apply Forall_map. exact Hall.
Qed.

Lemma take_argsort_sorted (a : list Q) :
  StronglySorted Qle (take 0 a (np_argsort a)).
Proof.
  rewrite take_argsort_keys.
  apply strongly_sorted_map_fst. apply sort_keys_sorted.
Qed.

Lemma strongly_sorted_nth (l : list Q) :
  StronglySorted Qle l ->
  forall i j, (i < j)%nat -> (j < length l)%nat -> nth i l 0 <= nth j l 0.
Proof.
  induction 1 as [| x l Hs IH Hall]; intros i j Hij Hj; simpl in Hj.
  - lia.
  - destruct j as [| j]; [lia |].
    destruct i as [| i]; simpl.
    + rewrite Forall_forall in Hall. apply Hall. apply nth_In. lia.
    + apply IH; lia.
Qed.

Lemma take_length {A : Type} (d : A) (a : list A) (idx : list nat) :
  length (take d a idx) = length idx.
Proof. unfold take. apply length_map. Qed.

Lemma take_nth {A : Type} (d : A) (a : list A) (idx : list nat) (k : nat) :
  (k < length idx)%nat ->
  nth k (take d a idx) d = nth (nth k idx 0%nat) a d.
Proof.
  intros Hk. unfold take.
  rewrite (nth_indep _ d (nth 0%nat a d)) by (rewrite length_map; exact Hk).
  apply (map_nth (fun i => nth i a d)).
Qed.

(** Indexing by a permutation of the positions permutes the array. *)
Lemma take_perm {A : Type} (d : A) (a : list A) (idx : list nat) :
  Permutation idx (seq 0 (length a)) -> Permutation (take d a idx) a.
Proof.
  intros Hp. unfold take.
  apply perm_trans with (map (fun i => nth i a d) (seq 0 (length a))).
  - apply Permutation_map. exact Hp.
  - clear Hp idx.
    assert (H : map (fun i => nth i a d) (seq 0 (length a)) = a).
    { apply (nth_ext _ _ d d).
      - rewrite length_map, length_seq. reflexivity.
      - intros n Hn. rewrite length_map, length_seq in Hn.
        rewrite (nth_indep _ d (nth 0%nat a d))
          by (rewrite length_map, length_seq; exact Hn).
        rewrite (map_nth (fun i => nth i a d)), seq_nth by exact Hn.
        reflexivity. }
    rewrite H. apply Permutation_refl.
Qed.

(** ** Rows of the parallel arrays *)

(** The values the arrays hold at one position. *)
Record row : Type := mk_row {
  r_det_x : Q;
  r_det_y : Q;
  r_time : Q;
  r_energy : Q;
  r_ra : Q;
  r_dec : Q;
  r_source_id : Z
}.

Definition n_events (e : events) : nat := length (ev_time e).

Definition row_at (e : events) (k : nat) : row :=
  mk_row (nth k (ev_det_x e) 0) (nth k (ev_det_y e) 0) (nth k (ev_time e) 0)
    (nth k (ev_energy e) 0) (nth k (ev_ra e) 0) (nth k (ev_dec e) 0)
    (nth k (ev_source_id e) 0%Z).

(** All seven arrays have the same length. *)
Definition aligned (e : events) : Prop :=
  length (ev_det_x e) = n_events e /\
  length (ev_det_y e) = n_events e /\
  length (ev_energy e) = n_events e /\
  length (ev_ra e) = n_events e /\
  length (ev_dec e) = n_events e /\
  length (ev_source_id e) = n_events e.

Definition all_rows (P : row -> Prop) (e : events) : Prop :=
  forall k, (k < n_events e)%nat -> P (row_at e k).

Lemma nth_map_lt {A B : Type} (f : A -> B) (l : list A) (d : A) (d' : B)
    (k : nat) :
  (k < length l)%nat -> nth k (map f l) d' = f (nth k l d).
Proof.
  intros Hk.
  rewrite (nth_indep _ d' (f d)) by (rewrite length_map; exact Hk).
  apply map_nth.
Qed.

Lemma nth_repeat_lt' {A : Type} (x d : A) (n k : nat) :
  (k < n)%nat -> nth k (repeat x n) d = x.
Proof.
  intros Hk. apply (repeat_spec n x). apply nth_In.
  rewrite repeat_length. exact Hk.
Qed.

Lemma Forall_nth_lt {A : Type} (P : A -> Prop) (l : list A) (d : A)
    (k : nat) :
  Forall P l -> (k < length l)%nat -> P (nth k l d).
Proof.
  intros Hall Hk. rewrite Forall_forall in Hall.
  apply Hall. apply nth_In. exact Hk.
Qed.

Lemma extend_no_events_r (acc : events) : extend acc no_events = acc.
Proof.
  destruct acc. unfold extend, no_events. simpl.
  rewrite !app_nil_r. reflexivity.
Qed.

Lemma extend_no_events_l (blk : events) : extend no_events blk = blk.
Proof. destruct blk. reflexivity. Qed.

Lemma extend_assoc (a b c : events) :
  extend (extend a b) c = extend a (extend b c).
Proof. unfold extend. simpl. rewrite <- !app_assoc. reflexivity. Qed.

Lemma n_events_extend (a b : events) :
  n_events (extend a b) = (n_events a + n_events b)%nat.
Proof. unfold n_events, extend. simpl. apply length_app. Qed.

Lemma aligned_no_events : aligned no_events.
Proof. unfold aligned, n_events. simpl. tauto. Qed.

Lemma aligned_extend (a b : events) :
  aligned a -> aligned b -> aligned (extend a b).
Proof.
  unfold aligned, n_events, extend. simpl.
  intros (A1 & A2 & A3 & A4 & A5 & A6) (B1 & B2 & B3 & B4 & B5 & B6).
  rewrite !length_app. repeat split; lia.
Qed.

Lemma row_at_extend_l (a b : events) (k : nat) :
  aligned a -> (k < n_events a)%nat -> row_at (extend a b) k = row_at a k.
Proof.
  intros (A1 & A2 & A3 & A4 & A5 & A6) Hk.
  unfold row_at, extend. simpl.
  rewrite !app_nth1 by (unfold n_events in *; lia).
  reflexivity.
Qed.

Lemma row_at_extend_r (a b : events) (k : nat) :
  aligned a -> (n_events a <= k)%nat ->
  row_at (extend a b) k = row_at b (k - n_events a).
Proof.
  intros (A1 & A2 & A3 & A4 & A5 & A6) Hk.
  unfold row_at, extend. simpl.
  rewrite !app_nth2 by (unfold n_events in *; lia).
  unfold n_events in *. rewrite A1, A2, A3, A4, A5, A6. reflexivity.
Qed.

Lemma all_rows_no_events (P : row -> Prop) : all_rows P no_events.
Proof. intros k Hk. unfold n_events in Hk. simpl in Hk. lia. Qed.

Lemma all_rows_extend (P : row -> Prop) (a b : events) :
  aligned a -> all_rows P a -> all_rows P b -> all_rows P (extend a b).
Proof.
  intros Ha Pa Pb k Hk. rewrite n_events_extend in Hk.
  destruct (Nat.lt_ge_cases k (n_events a)) as [Hlt | Hge].
  - rewrite row_at_extend_l by assumption. apply Pa. exact Hlt.
  - rewrite row_at_extend_r by assumption. apply Pb. lia.
Qed.

Lemma n_events_sort (e : events) : n_events (sort_by_time e) = n_events e.
Proof.
  unfold n_events, sort_by_time. simpl.
  rewrite take_length. apply argsort_length.
Qed.

Lemma aligned_sort (e : events) : aligned (sort_by_time e).
Proof.
  unfold aligned, n_events, sort_by_time. simpl.
  rewrite !take_length. tauto.
Qed.

Lemma row_at_sort (e : events) (k : nat) :
  (k < n_events e)%nat ->
  row_at (sort_by_time e) k
  = row_at e (nth k (np_argsort (ev_time e)) 0%nat).
Proof.
  intros Hk. unfold row_at, sort_by_time. simpl.
  rewrite !take_nth by (rewrite argsort_length; exact Hk).
  reflexivity.
Qed.

Lemma all_rows_sort (P : row -> Prop) (e : events) :
  all_rows P e -> all_rows P (sort_by_time e).
Proof.
  intros Pe k Hk. rewrite n_events_sort in Hk.
  rewrite row_at_sort by exact Hk.
  apply Pe. apply argsort_nth_lt. exact Hk.
Qed.

(** ** What one call generates *)

(** The conditions on an event row that the generation establishes. *)
Definition row_ok (self : XRayEventSimulator) (ra_center dec_center : Q)
    (r : row) : Prop :=
  (2 # 10 <= r_energy r /\ r_energy r <= 10) /\
  (0 <= r_time r /\ r_time r < exposure_time self) /\
  (r_source_id r = 0%Z ->
   (0 <= r_det_x r /\ r_det_x r < 384) /\
   (0 <= r_det_y r /\ r_det_y r < 384)) /\
  r_ra r = det_to_sky self ra_center (r_det_x r) /\
  r_dec r = det_to_sky self dec_center (r_det_y r) /\
  (0 <= r_source_id r)%Z.

(** The source ids announced by a printed line, one per counted event. *)
Definition message_ids (m : message) : list Z :=
  match m with
  | MsgSource id _ _ _ total_counts => repeat id total_counts
  | MsgBackground bg_counts => repeat 0%Z bg_counts
  | _ => []
  end.

Definition announced_ids (out : list message) : list Z :=
  flat_map message_ids out.

(** A block of [n] events all carrying the source id [id]. *)
Lemma block_rows (self : XRayEventSimulator) (rc dc : Q)
    (xs ys ts es : list Q) (id : Z) (n : nat) :
  length xs = n -> length ys = n -> length ts = n -> length es = n ->
  Forall (fun t => 0 <= t /\ t < exposure_time self) ts ->
  Forall (fun e => 2 # 10 <= e /\ e <= 10) es ->
  (0 <= id)%Z ->
  (id = 0%Z ->
   Forall (fun x => 0 <= x /\ x < 384) xs /\
   Forall (fun y => 0 <= y /\ y < 384) ys) ->
  let blk :=
    mk_events xs ys ts es (map (det_to_sky self rc) xs)
      (map (det_to_sky self dc) ys) (repeat id n) in
  aligned blk /\ n_events blk = n /\ all_rows (row_ok self rc dc) blk.
Proof.
  intros Lx Ly Lt Le Ht He Hid Hbg blk.
  assert (Hn : n_events blk = n) by exact Lt.
  split; [| split; [exact Hn |]].
  - unfold aligned. rewrite Hn. simpl.
    rewrite !length_map, repeat_length. tauto.
  - intros k Hk. rewrite Hn in Hk.
    unfold row_ok, row_at. simpl.
    rewrite (nth_repeat_lt' id 0%Z n k Hk).
    rewrite (nth_map_lt _ xs 0 0 k) by lia.
    rewrite (nth_map_lt _ ys 0 0 k) by lia.
    repeat split.
    + apply (Forall_nth_lt _ es 0 k He). lia.
    + apply (Forall_nth_lt _ es 0 k He). lia.
    + apply (Forall_nth_lt _ ts 0 k Ht). lia.
    + apply (Forall_nth_lt _ ts 0 k Ht). lia.
    + apply (Forall_nth_lt _ xs 0 k (proj1 (Hbg H))). lia.
    + apply (Forall_nth_lt _ xs 0 k (proj1 (Hbg H))). lia.
    + apply (Forall_nth_lt _ ys 0 k (proj2 (Hbg H))). lia.
    + apply (Forall_nth_lt _ ys 0 k (proj2 (Hbg H))). lia.
    + exact Hid.
Qed.

Lemma np_clip_range (a : list Q) (lo hi : Q) :
  lo <= hi -> Forall (fun e => lo <= e /\ e <= hi) (np_clip a lo hi).
Proof.
  intros H. unfold np_clip. apply Forall_map.
  apply Forall_forall. intros x _. apply clip1_range. exact H.
Qed.

Lemma bind_ok {A B : Type} (m : M A) (k : A -> M B) (w : world) (a : A) :
  value (m w) = Ok a ->
  value (bind m k w) = value (k a (after (m w))) /\
  printed (bind m k w) = printed (m w) ++ printed (k a (after (m w))) /\
  after (bind m k w) = after (k a (after (m w))).
Proof. intros H. unfold bind. rewrite H. simpl. auto. Qed.

Lemma bind_raise {A B : Type} (m : M A) (k : A -> M B) (w : world)
    (e : exception) :
  value (m w) = Raise e ->
  value (bind m k w) = Raise e /\
  printed (bind m k w) = printed (m w) /\
  after (bind m k w) = after (m w).
Proof. intros H. unfold bind. rewrite H. simpl. auto. Qed.

Lemma bind_draw_value {A B : Type} (f : rng_state -> A * rng_state)
    (k : A -> M B) (w : world) :
  value (bind (draw f) k w)
  = value (k (fst (f (np_random w))) (after (draw f w))).
Proof. reflexivity. Qed.

Lemma bind_draw_printed {A B : Type} (f : rng_state -> A * rng_state)
    (k : A -> M B) (w : world) :
  printed (bind (draw f) k w)
  = printed (k (fst (f (np_random w))) (after (draw f w))).
Proof. reflexivity. Qed.

Lemma bind_print_value {B : Type} (m : message) (k : unit -> M B)
    (w : world) :
  value (bind (print m) k w) = value (k tt w).
Proof. reflexivity. Qed.

Lemma bind_print_printed {B : Type} (m : message) (k : unit -> M B)
    (w : world) :
  printed (bind (print m) k w) = m :: printed (k tt w).
Proof. reflexivity. Qed.

(** Run the draws and prints at the head of a computation. *)
Ltac run_head :=
  repeat (first [ rewrite bind_draw_value | rewrite bind_draw_printed
                | rewrite bind_print_value | rewrite bind_print_printed ];
          cbv beta).

Lemma simulate_source_spec (self : XRayEventSimulator) (rc dc : Q)
    (i : nat) (ra dec flux : Q) (acc : events) (w : world) :
  0 < exposure_time self ->
  0 <= flux * exposure_time self ->
  let r := simulate_source self rc dc i (ra, dec, flux) acc w in
  let n := fst (poisson (flux * exposure_time self) (np_random w)) in
  exists blk,
    value r = Ok (extend acc blk) /\
    printed r
    = (if (0 <? n)%nat then [MsgSource (Z.of_nat i + 1) ra dec flux n]
       else []) /\
    aligned blk /\
    n_events blk = n /\
    ev_source_id blk = repeat (Z.of_nat i + 1)%Z n /\
    all_rows (row_ok self rc dc) blk.
Proof.
  intros HT Hlam r n. subst r.
  unfold simulate_source, np_random_poisson.
  destruct (Qlt_le_dec (flux * exposure_time self) 0) as [Hneg | _];
    [lra |].
  rewrite bind_draw_value, bind_draw_printed. cbv beta. fold n.
  destruct (0 <? n)%nat eqn:Hn.
  - unfold np_random_normal, np_random_uniform, np_random_exponential.
    run_head. unfold ret. cbn [value printed].
    eexists. split; [reflexivity |]. split; [reflexivity |].
    match goal with
    | |- aligned ?b /\ _ =>
        pose proof (block_rows self rc dc (ev_det_x b) (ev_det_y b)
                      (ev_time b) (ev_energy b) (Z.of_nat i + 1)%Z n) as HB
    end.
    cbn [ev_det_x ev_det_y ev_time ev_energy] in HB.
    destruct HB as (Hal & Hne & Hrows);
      try apply normal_size; try apply uniform_size.
    + unfold np_clip. rewrite !length_map. apply exponential_size.
    + eapply Forall_impl; [| apply uniform_range; exact HT].
      simpl. intros t Ht. exact Ht.
    + apply np_clip_range. lra.
    + lia.
    + intros Hz. lia.
    + split; [exact Hal | split; [exact Hne | split; [reflexivity |]]].
      exact Hrows.
  - apply Nat.ltb_ge in Hn. assert (n = 0%nat) as Hn0 by lia.
    exists no_events. rewrite extend_no_events_r, Hn0.
    split; [reflexivity |]. split; [reflexivity |].
    split; [exact aligned_no_events |]. split; [reflexivity |].
    split; [reflexivity | apply all_rows_no_events].
Qed.

Lemma simulate_background_spec (self : XRayEventSimulator) (rc dc : Q)
    (acc : events) (w : world) :
  0 < exposure_time self ->
  0 <= background_rate self * 384 * 384 * exposure_time self ->
  let r := simulate_background self rc dc acc w in
  let n :=
    fst (poisson (background_rate self * 384 * 384 * exposure_time self)
           (np_random w)) in
  exists blk,
    value r = Ok (extend acc blk) /\
    printed r = (if (0 <? n)%nat then [MsgBackground n] else []) /\
    aligned blk /\
    n_events blk = n /\
    ev_source_id blk = repeat 0%Z n /\
    all_rows (row_ok self rc dc) blk.
Proof.
  intros HT Hlam r n. subst r.
  unfold simulate_background, np_random_poisson.
  destruct (Qlt_le_dec _ 0) as [Hneg | _]; [lra |].
  rewrite bind_draw_value, bind_draw_printed. cbv beta. fold n.
  destruct (0 <? n)%nat eqn:Hn.
  - unfold np_random_uniform.
    run_head. unfold ret. cbn [value printed].
    eexists. split; [reflexivity |]. split; [reflexivity |].
    match goal with
    | |- aligned ?b /\ _ =>
        pose proof (block_rows self rc dc (ev_det_x b) (ev_det_y b)
                      (ev_time b) (ev_energy b) 0%Z n) as HB
    end.
    cbn [ev_det_x ev_det_y ev_time ev_energy] in HB.
    destruct HB as (Hal & Hne & Hrows); try apply uniform_size.
    + eapply Forall_impl; [| apply uniform_range; exact HT].
      simpl. intros t Ht. exact Ht.
    + eapply Forall_impl; [| apply uniform_range; reflexivity].
      simpl. intros e He. lra.
    + lia.
    + intros _. split; apply uniform_range; reflexivity.
    + split; [exact Hal | split; [exact Hne | split; [reflexivity |]]].
      exact Hrows.
  - apply Nat.ltb_ge in Hn. assert (n = 0%nat) as Hn0 by lia.
    exists no_events. rewrite extend_no_events_r, Hn0.
    split; [reflexivity |]. split; [reflexivity |].
    split; [exact aligned_no_events |]. split; [reflexivity |].
    split; [reflexivity | apply all_rows_no_events].
Qed.

(** The lines printed for the sources numbered from [i]: one line for each
    source that got events, in the order of the list, with its tuple. *)
Inductive source_lines : nat -> list source -> list message -> Prop :=
| lines_done (i : nat) : source_lines i [] []
| lines_silent (i : nat) (src : source) (rest : list source)
    (out : list message) :
    source_lines (S i) rest out -> source_lines i (src :: rest) out
| lines_print (i : nat) (ra dec flux : Q) (n : nat) (rest : list source)
    (out : list message) :
    (0 < n)%nat ->
    source_lines (S i) rest out ->
    source_lines i ((ra, dec, flux) :: rest)
      (MsgSource (Z.of_nat i + 1) ra dec flux n :: out).

Lemma announced_ids_app (o1 o2 : list message) :
  announced_ids (o1 ++ o2) = announced_ids o1 ++ announced_ids o2.
Proof. apply flat_map_app. Qed.

Lemma simulate_sources_spec (self : XRayEventSimulator) (rc dc : Q)
    (sources : list source) :
  0 < exposure_time self ->
  Forall (fun src => 0 <= snd src * exposure_time self) sources ->
  forall (i : nat) (acc : events) (w : world),
    let r := simulate_sources self rc dc i sources acc w in
    exists blk,
      value r = Ok (extend acc blk) /\
      aligned blk /\
      all_rows (row_ok self rc dc) blk /\
      ev_source_id blk = announced_ids (printed r) /\
      source_lines i sources (printed r).
Proof.
  intros HT Hflux.
  induction Hflux as [| [[ra dec] flux] rest Hsrc Hrest IH];
    intros i acc w r; subst r.
  - exists no_events. simpl. rewrite extend_no_events_r.
    split; [reflexivity |]. split; [exact aligned_no_events |].
    split; [apply all_rows_no_events |].
    split; [reflexivity | constructor].
  - simpl in Hsrc.
    destruct (simulate_source_spec self rc dc i ra dec flux acc w HT Hsrc)
      as (b1 & Hv1 & Hp1 & Hal1 & Hn1 & Hid1 & Hrows1).
    cbn [simulate_sources].
    destruct (bind_ok _
                (fun acc' => simulate_sources self rc dc (S i) rest acc')
                w _ Hv1) as (Hv & Hp & _).
    rewrite Hv, Hp. clear Hv Hp.
    set (w1 := after (simulate_source self rc dc i (ra, dec, flux) acc w)).
    destruct (IH (S i) (extend acc b1) w1)
      as (b2 & Hv2 & Hal2 & Hrows2 & Hid2 & Hl2).
    exists (extend b1 b2).
    rewrite Hv2, extend_assoc.
    split; [reflexivity |].
    split; [apply aligned_extend; assumption |].
    split; [apply all_rows_extend; assumption |].
    rewrite announced_ids_app. split.
    + unfold extend at 1. cbn [ev_source_id]. rewrite Hid1, Hid2, Hp1.
      f_equal. destruct (0 <? _)%nat eqn:Hn.
      * simpl. rewrite app_nil_r. reflexivity.
      * apply Nat.ltb_ge in Hn.
        replace (fst (poisson (flux * exposure_time self) (np_random w)))
          with 0%nat by lia.
        reflexivity.
    + rewrite Hp1. destruct (0 <? _)%nat eqn:Hn.
      * simpl. apply lines_print; [apply Nat.ltb_lt; exact Hn | exact Hl2].
      * simpl. apply lines_silent. exact Hl2.
Qed.

(** The line printed for the background, if it got events. *)
Definition background_line (n : nat) : list message :=
  if (0 <? n)%nat then [MsgBackground n] else [].

Lemma announced_ids_background (n : nat) :
  announced_ids (background_line n) = repeat 0%Z n.
Proof.
  unfold background_line. destruct (0 <? n)%nat eqn:Hn.
  - simpl. apply app_nil_r.
  - apply Nat.ltb_ge in Hn. replace n with 0%nat by lia. reflexivity.
Qed.

(** Every flux is non-negative, as [np.random.poisson] requires. *)
Definition nonneg_flux (sources : list source) : Prop :=
  Forall (fun src => 0 <= snd src) sources.

Lemma create_simple_events_spec (self : XRayEventSimulator) (rc dc : Q)
    (sources : list source) (w : world) :
  0 < exposure_time self ->
  0 <= background_rate self ->
  nonneg_flux sources ->
  exists (all : events) (out_src : list message) (n_bg : nat),
    value (accumulate_events self sources rc dc w) = Ok all /\
    value (create_simple_events self sources rc dc w)
    = Ok (sort_by_time all) /\
    printed (create_simple_events self sources rc dc w)
    = MsgSimulating (length sources) :: out_src ++ background_line n_bg /\
    source_lines 0 sources out_src /\
    aligned all /\
    all_rows (row_ok self rc dc) all /\
    ev_source_id all = announced_ids (out_src ++ background_line n_bg).
Proof.
  intros HT Hbg Hflux.
  assert (Hflux' : Forall (fun src => 0 <= snd src * exposure_time self)
                     sources).
  { eapply Forall_impl; [| exact Hflux]. simpl. intros src H.
    apply Qmult_le_0_compat; lra. }
  assert (Hlam : 0 <= background_rate self * 384 * 384 * exposure_time self).
  { repeat apply Qmult_le_0_compat; lra. }
  set (w0 := after (print (MsgSimulating (length sources)) w)).
  destruct (simulate_sources_spec self rc dc sources HT Hflux' 0%nat
              no_events w0) as (b1 & Hv1 & Hal1 & Hrows1 & Hid1 & Hl1).
  rewrite extend_no_events_l in Hv1.
  set (r1 := simulate_sources self rc dc 0 sources no_events w0) in *.
  destruct (simulate_background_spec self rc dc b1 (after r1) HT Hlam)
    as (b2 & Hv2 & Hp2 & Hal2 & Hn2 & Hid2 & Hrows2).
  set (n_bg := fst (poisson _ (np_random (after r1)))) in *.
  exists (extend b1 b2), (printed r1), n_bg.
  assert (Hacc :
    value (accumulate_events self sources rc dc w) = Ok (extend b1 b2) /\
    printed (accumulate_events self sources rc dc w)
    = MsgSimulating (length sources) :: printed r1 ++ background_line n_bg).
  { unfold accumulate_events.
    destruct (bind_ok (print (MsgSimulating (length sources)))
                (fun _ =>
                   acc <- simulate_sources self rc dc 0 sources no_events ;;
                   simulate_background self rc dc acc) w tt eq_refl)
      as (Hv & Hp & _).
    rewrite Hv, Hp. fold w0.
    destruct (bind_ok _ (fun acc => simulate_background self rc dc acc)
                w0 _ Hv1) as (Hv' & Hp' & _).
    rewrite Hv', Hp'. fold r1. rewrite Hv2, Hp2.
    split; reflexivity. }
  destruct Hacc as [Hva Hpa].
  unfold create_simple_events.
  destruct (bind_ok (accumulate_events self sources rc dc)
              (fun all => ret (sort_by_time all)) w _ Hva)
    as (Hv & Hp & _).
  split; [exact Hva |].
  rewrite Hv, Hp, Hpa. unfold ret. cbn [value printed].
  rewrite app_nil_r.
  split; [reflexivity |]. split; [reflexivity |]. split; [exact Hl1 |].
  split; [| split].
  - apply aligned_extend; assumption.
  - apply all_rows_extend; assumption.
  - unfold extend. cbn [ev_source_id].
    rewrite announced_ids_app, announced_ids_background, Hid1, Hid2.
    reflexivity.
Qed.

(** ** The event list and its columns *)

Lemma attributes_exposure (id : string) : 0 < exposure_time (attributes id).
Proof. reflexivity. Qed.

Lemma attributes_background (id : string) :
  0 <= background_rate (attributes id).
Proof. discriminate. Qed.

(** C2.  The event list returned by [create_simple_events] is ordered by
    time: [time[i] <= time[j]] whenever [i < j].  One index array
    [time_order], a permutation of the positions of the accumulated arrays,
    selects every one of the seven returned columns. *)
Theorem create_simple_events_sorted (id : string) (sources : list source)
    (ra_center dec_center : Q) (w : world) :
  nonneg_flux sources ->
  exists all evs time_order,
    value (accumulate_events (attributes id) sources ra_center dec_center w)
    = Ok all /\
    value (create_simple_events (attributes id) sources ra_center
             dec_center w) = Ok evs /\
    (forall i j, (i < j)%nat -> (j < n_events evs)%nat ->
                 nth i (ev_time evs) 0 <= nth j (ev_time evs) 0) /\
    aligned all /\
    Permutation time_order (seq 0 (n_events all)) /\
    ev_time evs = take 0 (ev_time all) time_order /\
    ev_det_x evs = take 0 (ev_det_x all) time_order /\
    ev_det_y evs = take 0 (ev_det_y all) time_order /\
    ev_energy evs = take 0 (ev_energy all) time_order /\
    ev_ra evs = take 0 (ev_ra all) time_order /\
    ev_dec evs = take 0 (ev_dec all) time_order /\
    ev_source_id evs = take 0%Z (ev_source_id all) time_order.
Proof.
  intros Hflux.
  destruct (create_simple_events_spec (attributes id) ra_center dec_center
              sources w (attributes_exposure id) (attributes_background id)
              Hflux)
    as (all & out & n_bg & Hacc & Hval & _ & _ & Hal & _ & _).
  exists all, (sort_by_time all), (np_argsort (ev_time all)).
  split; [exact Hacc |]. split; [exact Hval |].
  split.
  - intros i j Hij Hj. apply strongly_sorted_nth; try assumption.
    apply take_argsort_sorted.
  - split; [exact Hal |]. split; [apply argsort_perm |].
    repeat split; reflexivity.
Qed.

(** C3.  Every event of the returned list has its energy in [0.2, 10], and
    every event with source id 0 (a background event) has both detector
    coordinates in [0, 384). *)
Theorem create_simple_events_ranges (id : string) (sources : list source)
    (ra_center dec_center : Q) (w : world) :
  nonneg_flux sources ->
  exists evs,
    value (create_simple_events (attributes id) sources ra_center
             dec_center w) = Ok evs /\
    forall k, (k < n_events evs)%nat ->
      (2 # 10 <= nth k (ev_energy evs) 0 /\ nth k (ev_energy evs) 0 <= 10) /\
      (nth k (ev_source_id evs) 0%Z = 0%Z ->
       (0 <= nth k (ev_det_x evs) 0 /\ nth k (ev_det_x evs) 0 < 384) /\
       (0 <= nth k (ev_det_y evs) 0 /\ nth k (ev_det_y evs) 0 < 384)).
Proof.
  intros Hflux.
  destruct (create_simple_events_spec (attributes id) ra_center dec_center
              sources w (attributes_exposure id) (attributes_background id)
              Hflux)
    as (all & out & n_bg & _ & Hval & _ & _ & _ & Hrows & _).
  exists (sort_by_time all). split; [exact Hval |].
  intros k Hk.
  destruct (all_rows_sort _ _ Hrows k Hk) as (He & _ & Hbg & _).
  split; [exact He | exact Hbg].
Qed.

Lemma add_realistic_columns_value (self : XRayEventSimulator) (evs : events)
    (w : world) :
  exists grade status,
    value (add_realistic_columns self evs w)
    = Ok (mk_detector_events evs
            (np_clip_int
               (astype_int
                  (np_round
                     (map
                        (fun e =>
                           float_div
                             (float_sub e (binary64 (energy_offset self)))
                             (binary64 (energy_gain self)))
                        (ev_energy evs)))) 0 4095)
            grade status
            (astype_int
               (map (fun t => float_div t (binary64 (26 # 10)))
                  (ev_time evs)))) /\
    length grade = n_events evs /\
    length status = n_events evs /\
    Forall (fun g => (0 <= g <= 4)%Z) grade /\
    Forall (fun s => s = 0%Z \/ s = 1%Z) status.
Proof.
  unfold add_realistic_columns, np_random_choice, bind, draw, ret. simpl.
  eexists. eexists. split; [reflexivity |].
  split; [apply choice_size; discriminate |].
  split; [apply choice_size; discriminate |].
  split.
  - eapply Forall_impl; [| apply choice_range; discriminate].
    simpl. intros g Hg. lia.
  - eapply Forall_impl; [| apply choice_range; discriminate].
    simpl. intros s Hs. lia.
Qed.

(** C1.  For every event, the PI channel written by [add_realistic_columns]
    is [clamp(round((energy - 0.2) / 0.005), 0, 4095)], the subtraction and
    the division being those of binary64 floats on the float literals 0.2
    and 0.005: the integer nearest to the float quotient (halves to even),
    clamped to the 12-bit range. *)
Theorem add_realistic_columns_pi (id : string) (evs : events) (w : world) :
  exists devs,
    value (add_realistic_columns (attributes id) evs w) = Ok devs /\
    ev_base devs = evs /\
    length (ev_pi devs) = length (ev_energy evs) /\
    forall k, (k < length (ev_energy evs))%nat ->
      exists n,
        nearest_even
          (float_div (float_sub (nth k (ev_energy evs) 0) (binary64 (2 # 10)))
             (binary64 (5 # 1000))) n /\
        nth k (ev_pi devs) 0%Z = clamp n 0 4095 /\
        (0 <= nth k (ev_pi devs) 0 <= 4095)%Z.
Proof.
  destruct (add_realistic_columns_value (attributes id) evs w)
    as (grade & status & Hv & _).
  eexists. split; [exact Hv |]. cbn [ev_base ev_pi].
  split; [reflexivity |].
  split.
  - unfold np_clip_int, astype_int, np_round. rewrite !length_map.
    reflexivity.
  - intros k Hk.
    exists (round_half_even
              (float_div
                 (float_sub (nth k (ev_energy evs) 0) (binary64 (2 # 10)))
                 (binary64 (5 # 1000)))).
    split; [apply round_half_even_nearest |].
    unfold np_clip_int, astype_int, np_round.
    rewrite (nth_map_lt _ _ 0%Z) by (rewrite !length_map; exact Hk).
    rewrite (nth_map_lt _ _ 0) by (rewrite !length_map; exact Hk).
    rewrite (nth_map_lt _ _ 0) by (rewrite !length_map; exact Hk).
    rewrite (nth_map_lt _ _ 0) by exact Hk.
    rewrite trunc_inject_Z. cbn [energy_offset energy_gain attributes].
    split; [apply clip1_int_clamp; lia | apply clip1_int_range; lia].
Qed.

(** The frame of a time within the exposure: [1000 / 2.6] on floats is
    below 385. *)
Lemma frame_range (t : Q) :
  0 <= t -> t <= 1000 ->
  (0 <= trunc (float_div t (binary64 (26 # 10))) <= 384)%Z.
Proof.
  intros H0 H1.
  assert (Hc : 0 < binary64 (26 # 10)) by (vm_compute; reflexivity).
  pose proof (float_div_monotone 0 t _ Hc H0) as Hlo.
  pose proof (float_div_monotone t 1000 _ Hc H1) as Hhi.
  assert (E0 : float_div 0 (binary64 (26 # 10)) == 0)
    by (vm_compute; reflexivity).
  assert (E1 : Qfloor (float_div 1000 (binary64 (26 # 10))) = 384%Z)
    by (vm_compute; reflexivity).
  rewrite <- E1. apply trunc_range; lra.
Qed.

(** [header[key]]. *)
Fixpoint card_of (key : string) (h : header) : option card :=
  match h with
  | [] => None
  | (k, c) :: rest => if String.eqb k key then Some c else card_of key rest
  end.

(** C10.  Every event time lies between the header values [TSTART] = 0 and
    [TSTOP] = 1000; every frame index lies in [0, floor(1000 / 2.6)], which
    is [0, 384]; every grade is one of 0..4 and every status is 0 or 1. *)
Theorem detector_columns_ranges (id : string) (sources : list source)
    (ra_center dec_center : Q) (w : world) :
  nonneg_flux sources ->
  exists devs,
    value ((evs <- create_simple_events (attributes id) sources ra_center
                     dec_center ;;
            add_realistic_columns (attributes id) evs) w) = Ok devs /\
    (forall date,
       card_of "TSTART" (primary_cards (attributes id) ra_center dec_center
                           date) = Some (CardFloat 0) /\
       card_of "TSTOP" (primary_cards (attributes id) ra_center dec_center
                          date) = Some (CardFloat 1000)) /\
    Qfloor (exposure_time (attributes id) / (26 # 10)) = 384%Z /\
    length (ev_frame devs) = n_events (ev_base devs) /\
    length (ev_grade devs) = n_events (ev_base devs) /\
    length (ev_status devs) = n_events (ev_base devs) /\
    forall k, (k < n_events (ev_base devs))%nat ->
      (0 <= nth k (ev_time (ev_base devs)) 0 /\
       nth k (ev_time (ev_base devs)) 0 <= 1000) /\
      (0 <= nth k (ev_frame devs) 0 <= 384)%Z /\
      (0 <= nth k (ev_grade devs) 0 <= 4)%Z /\
      (nth k (ev_status devs) 0%Z = 0%Z \/ nth k (ev_status devs) 0%Z = 1%Z).
Proof.
  intros Hflux.
  destruct (create_simple_events_spec (attributes id) ra_center dec_center
              sources w (attributes_exposure id) (attributes_background id)
              Hflux)
    as (all & out & n_bg & _ & Hval & _ & _ & _ & Hrows & _).
  destruct (bind_ok _ (fun evs => add_realistic_columns (attributes id) evs)
              w _ Hval) as (Hv & _).
  rewrite Hv. clear Hv.
  set (w1 := after _).
  destruct (add_realistic_columns_value (attributes id) (sort_by_time all) w1)
    as (grade & status & Hv & Lg & Ls & Hg & Hs).
  eexists. split; [exact Hv |].
  cbn [ev_base ev_frame ev_grade ev_status].
  split; [intros date; split; reflexivity |].
  split; [reflexivity |].
  split; [unfold astype_int; rewrite !length_map; reflexivity |].
  split; [exact Lg |]. split; [exact Ls |].
  intros k Hk.
  destruct (all_rows_sort _ _ Hrows k Hk) as (_ & Ht & _).
  cbn [row_at r_time exposure_time attributes] in Ht.
  split; [lra |]. split; [| split].
  - unfold astype_int.
    rewrite (nth_map_lt _ _ 0) by (rewrite length_map; exact Hk).
    rewrite (nth_map_lt _ _ 0) by exact Hk.
    apply frame_range; lra.
  - apply Forall_nth_lt; [exact Hg | lia].
  - apply Forall_nth_lt; [exact Hs | lia].
Qed.

(** C8.  Over exact arithmetic the two linear maps are inverse to each
    other, for every field center, and every event of the returned list,
    from a source or from the background, has its sky coordinates and its
    detector coordinates related by them. *)
Theorem sky_det_round_trip (id : string) :
  (forall center sky,
     det_to_sky (attributes id) center (sky_to_det (attributes id) center sky)
     == sky) /\
  (forall center det,
     sky_to_det (attributes id) center (det_to_sky (attributes id) center det)
     == det) /\
  (forall sources ra_center dec_center w,
     nonneg_flux sources ->
     exists evs,
       value (create_simple_events (attributes id) sources ra_center
                dec_center w) = Ok evs /\
       forall k, (k < n_events evs)%nat ->
         nth k (ev_ra evs) 0
         = det_to_sky (attributes id) ra_center (nth k (ev_det_x evs) 0) /\
         nth k (ev_dec evs) 0
         = det_to_sky (attributes id) dec_center (nth k (ev_det_y evs) 0) /\
         sky_to_det (attributes id) ra_center (nth k (ev_ra evs) 0)
         == nth k (ev_det_x evs) 0 /\
         sky_to_det (attributes id) dec_center (nth k (ev_dec evs) 0)
         == nth k (ev_det_y evs) 0).
Proof.
  assert (Hdet : forall center sky,
             det_to_sky (attributes id) center
               (sky_to_det (attributes id) center sky) == sky).
  { intros center sky. unfold det_to_sky, sky_to_det.
    cbn [pixel_scale attributes]. field. }
  assert (Hsky : forall center det,
             sky_to_det (attributes id) center
               (det_to_sky (attributes id) center det) == det).
  { intros center det. unfold det_to_sky, sky_to_det.
    cbn [pixel_scale attributes]. field. }
  split; [exact Hdet |]. split; [exact Hsky |].
  intros sources ra_center dec_center w Hflux.
  destruct (create_simple_events_spec (attributes id) ra_center dec_center
              sources w (attributes_exposure id) (attributes_background id)
              Hflux)
    as (all & out & n_bg & _ & Hval & _ & _ & _ & Hrows & _).
  exists (sort_by_time all). split; [exact Hval |].
  intros k Hk.
  destruct (all_rows_sort _ _ Hrows k Hk) as (_ & _ & _ & Hra & Hdec & _).
  cbn [row_at r_ra r_dec r_det_x r_det_y] in Hra, Hdec.
  split; [exact Hra |]. split; [exact Hdec |].
  rewrite Hra, Hdec. split; apply Hsky.
Qed.

(** ** Counts: printed lines against source ids *)

(** The number of events a printed line reports. *)
Definition message_events (m : message) : nat :=
  match m with
  | MsgSource _ _ _ _ total_counts => total_counts
  | MsgBackground bg_counts => bg_counts
  | _ => 0
  end.

Definition printed_total (out : list message) : nat :=
  list_sum (map message_events out).

(** The number of events a printed line reports for the source id [sid]. *)
Definition message_count (sid : Z) (m : message) : nat :=
  match m with
  | MsgSource id _ _ _ total_counts =>
      if (id =? sid)%Z then total_counts else 0
  | MsgBackground bg_counts => if (sid =? 0)%Z then bg_counts else 0
  | _ => 0
  end.

Definition printed_count (sid : Z) (out : list message) : nat :=
  list_sum (map (message_count sid) out).

Lemma announced_ids_length (out : list message) :
  length (announced_ids out) = printed_total out.
Proof.
  unfold announced_ids, printed_total.
  induction out as [| m out IH]; simpl.
  - reflexivity.
  - rewrite length_app, IH. f_equal.
    destruct m; simpl; try reflexivity; apply repeat_length.
Qed.

Lemma count_occ_repeat (x y : Z) (n : nat) :
  count_occ Z.eq_dec (repeat y n) x = if (y =? x)%Z then n else 0%nat.
Proof.
  destruct (Z.eqb_spec y x) as [E | E].
  - apply count_occ_repeat_eq. congruence.
  - apply count_occ_repeat_neq. congruence.
Qed.

Lemma announced_ids_count (sid : Z) (out : list message) :
  count_occ Z.eq_dec (announced_ids out) sid = printed_count sid out.
Proof.
  unfold announced_ids, printed_count.
  induction out as [| m out IH]; simpl.
  - reflexivity.
  - rewrite count_occ_app, IH. f_equal.
    destruct m; simpl; try reflexivity.
    + apply count_occ_repeat.
    + rewrite count_occ_repeat, Z.eqb_sym. reflexivity.
Qed.

Lemma count_if_app {A : Type} (f : A -> bool) (l1 l2 : list A) :
  count_if f (l1 ++ l2) = (count_if f l1 + count_if f l2)%nat.
Proof. unfold count_if. rewrite filter_app. apply length_app. Qed.

Lemma count_if_repeat {A : Type} (f : A -> bool) (x : A) (n : nat) :
  count_if f (repeat x n) = if f x then n else 0%nat.
Proof.
  unfold count_if. induction n as [| n IH]; simpl.
  - destruct (f x); reflexivity.
  - destruct (f x); simpl; [f_equal |]; exact IH.
Qed.

Lemma count_if_perm {A : Type} (f : A -> bool) (l1 l2 : list A) :
  Permutation l1 l2 -> count_if f l1 = count_if f l2.
Proof.
  unfold count_if.
  induction 1 as [| x l1 l2 _ IH | x y l | l1 l2 l3 _ IH1 _ IH2]; simpl.
  - reflexivity.
  - destruct (f x); simpl; congruence.
  - destruct (f x); destruct (f y); reflexivity.
  - congruence.
Qed.

(** A line printed for a source names the source at its position. *)
Lemma source_lines_in (i : nat) (sources : list source)
    (out : list message) :
  source_lines i sources out ->
  forall m, In m out ->
    exists j ra dec flux n,
      m = MsgSource (Z.of_nat (i + j) + 1) ra dec flux n /\
      nth_error sources j = Some (ra, dec, flux) /\
      (0 < n)%nat.
Proof.
  induction 1 as [i | i src rest out _ IH | i ra dec flux n rest out Hn _ IH];
    intros m Hin.
  - destruct Hin.
  - destruct (IH m Hin) as (j & ra & dec & flux & n & Hm & Hj & Hn).
    exists (S j), ra, dec, flux, n.
    rewrite Nat.add_succ_r. auto.
  - destruct Hin as [Hm | Hin].
    + exists 0%nat, ra, dec, flux, n. rewrite Nat.add_0_r. auto.
    + destruct (IH m Hin) as (j & ra' & dec' & flux' & n' & Hm & Hj & Hn').
      exists (S j), ra', dec', flux', n'.
      rewrite Nat.add_succ_r. auto.
Qed.

(** Among the ids announced for the sources numbered from [i], every one
    exceeds [i], and none exceeds [i] plus the number of sources. *)
Lemma source_lines_ids (i : nat) (sources : list source)
    (out : list message) :
  source_lines i sources out ->
  Forall (fun s => (Z.of_nat i < s <= Z.of_nat (i + length sources))%Z)
    (announced_ids out).
Proof.
  intros H. apply Forall_forall. intros s Hs.
  unfold announced_ids in Hs. apply in_flat_map in Hs.
  destruct Hs as (m & Hm & Hs).
  destruct (source_lines_in _ _ _ H m Hm)
    as (j & ra & dec & flux & n & -> & Hj & _).
  simpl in Hs. apply repeat_spec in Hs. subst s.
  assert (j < length sources)%nat
    by (apply nth_error_Some; congruence).
  lia.
Qed.

Lemma count_if_none {A : Type} (f : A -> bool) (l : list A) :
  Forall (fun x => f x = false) l -> count_if f l = 0%nat.
Proof.
  unfold count_if. induction 1 as [| x l Hx _ IH]; simpl.
  - reflexivity.
  - rewrite Hx. exact IH.
Qed.

Lemma count_if_all {A : Type} (f : A -> bool) (l : list A) :
  Forall (fun x => f x = true) l -> count_if f l = length l.
Proof.
  unfold count_if. induction 1 as [| x l Hx _ IH]; simpl.
  - reflexivity.
  - rewrite Hx. simpl. f_equal. exact IH.
Qed.

(** C5.  The number of rows is the sum of the counts on the printed source
    lines plus the background count.  The source id column is a
    rearrangement of the ids the printed lines announce: [i + 1] once per
    event of the line of source [i], 0 once per background event; so each
    id occurs as often as its printed count, id 0 exactly on the background
    events, ids of sources are at least 1, and the two totals of the
    summary in [main] are the source total and the background count. *)
Theorem source_ids_partition (id : string) (sources : list source)
    (ra_center dec_center : Q) (w : world) :
  nonneg_flux sources ->
  exists evs out_src n_bg,
    value (create_simple_events (attributes id) sources ra_center
             dec_center w) = Ok evs /\
    printed (create_simple_events (attributes id) sources ra_center
               dec_center w)
    = MsgSimulating (length sources) :: out_src ++ background_line n_bg /\
    source_lines 0 sources out_src /\
    (forall m, In m out_src ->
       exists i ra dec flux n,
         m = MsgSource (Z.of_nat i + 1) ra dec flux n /\
         nth_error sources i = Some (ra, dec, flux) /\ (0 < n)%nat) /\
    n_events evs = (printed_total out_src + n_bg)%nat /\
    length (ev_source_id evs) = n_events evs /\
    Permutation (ev_source_id evs) (announced_ids out_src ++ repeat 0%Z n_bg) /\
    (forall sid,
       count_occ Z.eq_dec (ev_source_id evs) sid
       = printed_count sid
           (printed (create_simple_events (attributes id) sources ra_center
                       dec_center w))) /\
    Forall (fun s => (1 <= s <= Z.of_nat (length sources))%Z)
      (announced_ids out_src) /\
    count_if (fun s => (s =? 0)%Z) (ev_source_id evs) = n_bg /\
    count_if (fun s => (0 <? s)%Z) (ev_source_id evs) = printed_total out_src.
Proof.
  intros Hflux.
  destruct (create_simple_events_spec (attributes id) ra_center dec_center
              sources w (attributes_exposure id) (attributes_background id)
              Hflux)
    as (all & out & n_bg & _ & Hval & Hpr & Hlines & Hal & _ & Hids).
  exists (sort_by_time all), out, n_bg.
  rewrite announced_ids_app, announced_ids_background in Hids.
  assert (Hlen : length (ev_source_id all) = n_events all) by apply Hal.
  assert (Hperm : Permutation (ev_source_id (sort_by_time all))
                    (announced_ids out ++ repeat 0%Z n_bg)).
  { rewrite <- Hids. unfold sort_by_time. cbn [ev_source_id].
    apply take_perm. rewrite Hlen. apply argsort_perm. }
  assert (Hrange : Forall (fun s => (1 <= s <= Z.of_nat (length sources))%Z)
                     (announced_ids out)).
  { eapply Forall_impl; [| apply (source_lines_ids _ _ _ Hlines)].
    simpl. intros s Hs. lia. }
  split; [exact Hval |]. split; [exact Hpr |]. split; [exact Hlines |].
  split.
  { intros m Hm.
    destruct (source_lines_in _ _ _ Hlines m Hm)
      as (j & ra & dec & flux & n & Hm' & Hj & Hn).
    exists j, ra, dec, flux, n. auto. }
  split.
  { rewrite n_events_sort, <- Hlen, Hids, length_app, announced_ids_length,
      repeat_length. reflexivity. }
  split; [apply aligned_sort |].
  split; [exact Hperm |].
  split.
  { intros sid. rewrite Hpr.
    rewrite (proj1 (Permutation_count_occ Z.eq_dec _ _) Hperm sid).
    rewrite <- announced_ids_background, <- announced_ids_app.
    rewrite announced_ids_count. reflexivity. }
  split; [exact Hrange |].
  split.
  - rewrite (count_if_perm _ _ _ Hperm), count_if_app, count_if_repeat.
    rewrite count_if_none; [reflexivity |].
    eapply Forall_impl; [| exact Hrange]. simpl. intros s Hs.
    apply Z.eqb_neq. lia.
  - rewrite (count_if_perm _ _ _ Hperm), count_if_app, count_if_repeat.
    rewrite count_if_all.
    + simpl. rewrite announced_ids_length. lia.
    + eapply Forall_impl; [| exact Hrange]. simpl. intros s Hs.
      apply Z.ltb_lt. lia.
Qed.

(** ** The events of one source *)

(** The world in which the pass of the loop for source number [i] (counted
    from 0) starts: the passes for the sources before it have run.  The
    line printed before the loop changes nothing. *)
Definition world_before_source (self : XRayEventSimulator) (rc dc : Q)
    (sources : list source) (i : nat) (w : world) : world :=
  after (simulate_sources self rc dc 0 (firstn i sources) no_events w).

(** How many events of the returned list carry the id of source number
    [i]. *)
Definition source_events (self : XRayEventSimulator) (sources : list source)
    (rc dc : Q) (i : nat) (w : world) : nat :=
  match value (create_simple_events self sources rc dc w) with
  | Ok evs => count_occ Z.eq_dec (ev_source_id evs) (Z.of_nat i + 1)%Z
  | Raise _ => 0%nat
  end.

(** The loop over [l1 ++ l2] is the loop over [l1] followed by the loop
    over [l2]. *)
Lemma simulate_sources_app (self : XRayEventSimulator) (rc dc : Q)
    (l1 l2 : list source) :
  forall i acc w acc1,
    value (simulate_sources self rc dc i l1 acc w) = Ok acc1 ->
    value (simulate_sources self rc dc i (l1 ++ l2) acc w)
    = value (simulate_sources self rc dc (i + length l1) l2 acc1
               (after (simulate_sources self rc dc i l1 acc w))).
Proof.
  induction l1 as [| src rest IH]; intros i acc w acc1 H.
  - cbn [simulate_sources app length] in *. unfold ret in H.
    cbn [value] in H. injection H as <-. rewrite Nat.add_0_r.
    reflexivity.
  - cbn [simulate_sources app length] in *.
    destruct (value (simulate_source self rc dc i src acc w))
      as [a | e] eqn:E.
    + destruct (bind_ok _
                  (fun acc' => simulate_sources self rc dc (S i) rest acc')
                  w a E) as (Hv & _ & Ha).
      destruct (bind_ok _
                  (fun acc' =>
                     simulate_sources self rc dc (S i) (rest ++ l2) acc')
                  w a E) as (Hv' & _).
      rewrite Hv in H. rewrite Hv', Ha, Nat.add_succ_r.
      apply (IH (S i) a _ acc1 H).
    + rewrite (proj1 (bind_raise _
                        (fun acc' =>
                           simulate_sources self rc dc (S i) rest acc')
                        w e E)) in H.
      discriminate H.
Qed.

Lemma count_occ_none (l : list Z) (x : Z) :
  Forall (fun s => s <> x) l -> count_occ Z.eq_dec l x = 0%nat.
Proof.
  intros H. apply count_occ_not_In. intros Hin.
  rewrite Forall_forall in H. exact (H x Hin eq_refl).
Qed.

(** The events with the id of a source are those its pass generated, as
    many as the Poisson count drawn at the start of the pass. *)
Lemma source_events_drawn (self : XRayEventSimulator) (rc dc : Q)
    (sources : list source) (i : nat) (ra dec flux : Q) (w : world) :
  0 < exposure_time self ->
  0 <= background_rate self ->
  nonneg_flux sources ->
  nth_error sources i = Some (ra, dec, flux) ->
  exists evs,
    value (create_simple_events self sources rc dc w) = Ok evs /\
    count_occ Z.eq_dec (ev_source_id evs) (Z.of_nat i + 1)%Z
    = fst (poisson (flux * exposure_time self)
             (np_random (world_before_source self rc dc sources i w))).
Proof.
  intros HT Hbg Hflux Hnth.
  destruct (create_simple_events_spec self rc dc sources w HT Hbg Hflux)
    as (all & out & n_bg' & Hacc & Hval & _ & _ & Hal & _ & _).
  exists (sort_by_time all). split; [exact Hval |].
  assert (Hlen : length (ev_source_id all) = n_events all) by apply Hal.
  assert (Hperm : Permutation (ev_source_id (sort_by_time all))
                    (ev_source_id all)).
  { unfold sort_by_time. cbn [ev_source_id].
    apply take_perm. rewrite Hlen. apply argsort_perm. }
  rewrite (proj1 (Permutation_count_occ Z.eq_dec _ _) Hperm).
  clear Hperm Hlen Hal Hval.
  destruct (nth_error_split sources i Hnth) as (l1 & l2 & Hsrc & Hi).
  unfold world_before_source.
  assert (Hfirst : firstn i sources = l1).
  { rewrite Hsrc, <- Hi, firstn_app, Nat.sub_diag, firstn_all.
    cbn [firstn]. apply app_nil_r. }
  rewrite Hfirst. clear Hfirst.
  assert (Hflux' : Forall (fun src => 0 <= snd src * exposure_time self)
                     sources).
  { eapply Forall_impl; [| exact Hflux]. simpl. intros src H.
    apply Qmult_le_0_compat; lra. }
  rewrite Hsrc in Hflux'. apply Forall_app in Hflux'.
  destruct Hflux' as [Hf1 Hf2].
  inversion Hf2 as [| ? ? Hsrc0 Hf3]; subst. cbn [snd] in Hsrc0.
  (* the passes before, the pass of the source, the passes after *)
  destruct (simulate_sources_spec self rc dc l1 HT Hf1 0%nat no_events w)
    as (b1 & Hv1 & _ & _ & Hid1 & Hl1).
  set (r1 := simulate_sources self rc dc 0 l1 no_events w) in *.
  destruct (simulate_source_spec self rc dc (length l1) ra dec flux
              (extend no_events b1) (after r1) HT Hsrc0)
    as (b2 & Hv2 & _ & _ & _ & Hid2 & _).
  set (n := fst (poisson (flux * exposure_time self)
                   (np_random (after r1)))) in *.
  set (r2 := simulate_source self rc dc (length l1) (ra, dec, flux)
               (extend no_events b1) (after r1)) in *.
  destruct (simulate_sources_spec self rc dc l2 HT Hf3 (S (length l1))
              (extend (extend no_events b1) b2) (after r2))
    as (b3 & Hv3 & _ & _ & Hid3 & Hl3).
  set (r3 := simulate_sources self rc dc (S (length l1)) l2
               (extend (extend no_events b1) b2) (after r2)) in *.
  assert (Hloop : value (simulate_sources self rc dc 0
                           (l1 ++ (ra, dec, flux) :: l2) no_events w)
                  = Ok (extend (extend (extend no_events b1) b2) b3)).
  { rewrite (simulate_sources_app self rc dc l1 _ 0 no_events w _ Hv1).
    fold r1. cbn [Nat.add simulate_sources].
    rewrite (proj1 (bind_ok _
                      (fun acc' =>
                         simulate_sources self rc dc (S (length l1)) l2 acc')
                      (after r1) _ Hv2)).
    exact Hv3. }
  assert (Hlam : 0 <= background_rate self * 384 * 384 * exposure_time self).
  { repeat apply Qmult_le_0_compat; lra. }
  set (loop := simulate_sources self rc dc 0 (l1 ++ (ra, dec, flux) :: l2)
                 no_events) in *.
  destruct (simulate_background_spec self rc dc
              (extend (extend (extend no_events b1) b2) b3)
              (after (loop w)) HT Hlam)
    as (b4 & Hv4 & _ & _ & _ & Hid4 & _).
  assert (Hall : value (accumulate_events self
                          (l1 ++ (ra, dec, flux) :: l2) rc dc w)
                 = Ok (extend (extend (extend (extend no_events b1) b2) b3)
                         b4)).
  { unfold accumulate_events. rewrite bind_print_value.
    change (after (print (MsgSimulating
                            (length (l1 ++ (ra, dec, flux) :: l2))) w))
      with w.
    fold loop.
    rewrite (proj1 (bind_ok loop
                      (fun acc => simulate_background self rc dc acc)
                      w _ Hloop)).
    exact Hv4. }
  assert (E : Ok all
              = Ok (extend (extend (extend (extend no_events b1) b2) b3) b4))
    by (rewrite <- Hacc; exact Hall).
  injection E as ->.
  unfold extend. cbn [ev_source_id app].
  assert (Z1 : count_occ Z.eq_dec (announced_ids (printed r1))
                 (Z.of_nat (length l1) + 1)%Z = 0%nat).
  { apply count_occ_none.
    eapply Forall_impl; [| exact (source_lines_ids _ _ _ Hl1)].
    cbv beta. intros s Hs. lia. }
  assert (Z3 : count_occ Z.eq_dec (announced_ids (printed r3))
                 (Z.of_nat (length l1) + 1)%Z = 0%nat).
  { apply count_occ_none.
    eapply Forall_impl; [| exact (source_lines_ids _ _ _ Hl3)].
    cbv beta. intros s Hs. lia. }
  rewrite !count_occ_app, Hid1, Hid2, Hid3, Hid4, Z1, Z3.
  rewrite !count_occ_repeat, Z.eqb_refl.
  replace (0 =? Z.of_nat (length l1) + 1)%Z with false
    by (symmetry; apply Z.eqb_neq; lia).
  cbn [count_occ ev_source_id no_events]. lia.
Qed.

End EventProperties.

(** * Properties of the script *)

Section ScriptProperties.

Context {sampler : NumpyRandom} {os : OperatingSystem}.

(** ** Module level: a missing package *)

Lemma import_all_missing (importable : string -> bool) (names : list string)
    (w : world) :
  (exists name, In name names /\ importable name = false) ->
  exists name,
    In name names /\ importable name = false /\
    import_all importable names w = mk_outcome (Raise (ImportError name)) w [].
Proof.
  induction names as [| n names IH]; intros (name & Hin & Hmiss).
  - destruct Hin.
  - cbn [import_all]. unfold bind, import_module.
    destruct (importable n) eqn:En.
    + destruct Hin as [-> | Hin]; [congruence |].
      destruct IH as (name' & Hin' & Hmiss' & Hrun);
        [exists name; auto |].
      exists name'. split; [right; exact Hin' |]. split; [exact Hmiss' |].
      unfold ret. cbn [value after printed]. rewrite Hrun. reflexivity.
    + exists n. split; [left; reflexivity |]. split; [exact En |].
      reflexivity.
Qed.

Lemma bind_ok_eq {A B : Type} (m : M A) (k : A -> M B) (w : world)
    (a : A) :
  value (m w) = Ok a ->
  bind m k w
  = mk_outcome (value (k a (after (m w)))) (after (k a (after (m w))))
      (printed (m w) ++ printed (k a (after (m w)))).
Proof. intros H. unfold bind. rewrite H. reflexivity. Qed.

Lemma bind_raise_eq {A B : Type} (m : M A) (k : A -> M B) (w : world)
    (e : exception) :
  value (m w) = Raise e ->
  bind m k w = mk_outcome (Raise e) (after (m w)) (printed (m w)).
Proof. intros H. unfold bind. rewrite H. reflexivity. Qed.

(** The guarded imports with their handler, when one of them fails. *)
Lemma guarded_imports_exit (importable : string -> bool) (w : world) :
  (exists name, In name guarded_imports /\ importable name = false) ->
  exists name,
    In name guarded_imports /\ importable name = false /\
    try_except_ImportError (import_all importable guarded_imports)
      (fun name =>
         print (MsgMissingPackages name) ;;
         print MsgInstallHint ;;
         raise (SystemExit 1)) w
    = mk_outcome (Raise (SystemExit 1)) w
        [MsgMissingPackages name; MsgInstallHint].
Proof.
  intros Hmiss.
  destruct (import_all_missing importable guarded_imports w Hmiss)
    as (name & Hin & Hname & Hrun).
  exists name. split; [exact Hin |]. split; [exact Hname |].
  unfold try_except_ImportError. rewrite Hrun.
  reflexivity.
Qed.

(** C7.  If any required package cannot be imported, the process ends with
    status 1 and a diagnostic, and nothing else has happened: the world is
    as it was (no file written, sampler and clock untouched) and nothing
    but the diagnostic was printed.  A missing [numpy] is reported by the
    interpreter's traceback; any other missing package by the two lines of
    the handler followed by [exit(1)]. *)
Theorem missing_dependency_exits (importable : string -> bool) (w : world) :
  (exists name, In name required_imports /\ importable name = false) ->
  exit_status (run_script importable w) = 1%Z /\
  final (run_script importable w) = w /\
  ((importable "numpy" = false /\
    proc_stdout (run_script importable w) = [] /\
    traceback (run_script importable w) = Some (ImportError "numpy")) \/
   (importable "numpy" = true /\
    traceback (run_script importable w) = None /\
    exists name,
      In name guarded_imports /\ importable name = false /\
      proc_stdout (run_script importable w)
      = [MsgMissingPackages name; MsgInstallHint])).
Proof.
  intros (name & Hin & Hmiss).
  unfold run_script, script. generalize (@main sampler os). intros body.
  destruct (importable "numpy") eqn:Enp.
  - destruct Hin as [<- | Hin]; [congruence |].
    destruct (guarded_imports_exit importable w)
      as (name' & Hin' & Hmiss' & Hrun); [exists name; auto |].
    rewrite (bind_ok_eq _ _ w tt)
      by (unfold import_module; rewrite Enp; reflexivity).
    assert (Hw : after (import_module importable "numpy" w) = w)
      by (unfold import_module; rewrite Enp; reflexivity).
    assert (Hp : printed (import_module importable "numpy" w) = [])
      by (unfold import_module; rewrite Enp; reflexivity).
    rewrite Hw, Hp.
    rewrite (bind_raise_eq _ _ w (SystemExit 1)) by (rewrite Hrun; reflexivity).
    rewrite Hrun. cbn [value after printed app].
    cbn [exit_status final proc_stdout traceback].
    split; [reflexivity |]. split; [reflexivity |].
    right. split; [reflexivity |]. split; [reflexivity |].
    exists name'. auto.
  - rewrite (bind_raise_eq _ _ w (ImportError "numpy"))
      by (unfold import_module; rewrite Enp; reflexivity).
    assert (Hw : after (import_module importable "numpy" w) = w)
      by (unfold import_module; rewrite Enp; reflexivity).
    assert (Hp : printed (import_module importable "numpy" w) = [])
      by (unfold import_module; rewrite Enp; reflexivity).
    rewrite Hw, Hp. cbn [value after printed].
    cbn [exit_status final proc_stdout traceback].
    split; [reflexivity |]. split; [reflexivity |].
    left. auto.
Qed.

(** ** The catalog file *)

(** Reading a catalog row back: fields separated by blanks, [int(text)]
    and [float(text)] for plain decimal text. *)
Fixpoint split_blank (cs cur : list ascii) : list (list ascii) :=
  match cs with
  | [] => match cur with [] => [] | _ => [rev cur] end
  | c :: cs' =>
      if Ascii.eqb c " "%char then
        match cur with
        | [] => split_blank cs' []
        | _ => rev cur :: split_blank cs' []
        end
      else split_blank cs' (c :: cur)
  end.

Definition fields (line : string) : list string :=
  map string_of_list_ascii (split_blank (list_ascii_of_string line) []).

Definition digit (c : ascii) : option Z :=
  let n := nat_of_ascii c in
  if ((48 <=? n) && (n <=? 57))%nat then Some (Z.of_nat (n - 48)) else None.

(** The digits of [cs] appended to the number [acc]. *)
Fixpoint read_digits (cs : list ascii) (acc : Z) : option Z :=
  match cs with
  | [] => Some acc
  | c :: cs' =>
      match digit c with
      | Some d => read_digits cs' (10 * acc + d)
      | None => None
      end
  end.

Definition read_int (s : string) : option Z :=
  match list_ascii_of_string s with
  | [] => None
  | cs => read_digits cs 0
  end.

(** The characters before and after the first ["."]. *)
Fixpoint split_dot (cs : list ascii) : list ascii * list ascii :=
  match cs with
  | [] => ([], [])
  | c :: cs' =>
      if Ascii.eqb c "."%char then ([], cs')
      else let r := split_dot cs' in (c :: fst r, snd r)
  end.

Definition read_float (s : string) : option Q :=
  let cs := list_ascii_of_string s in
  let negative := match cs with "-"%char :: _ => true | _ => false end in
  let cs := match cs with "-"%char :: rest => rest | _ => cs end in
  let parts := split_dot cs in
  match fst parts, read_digits (fst parts ++ snd parts) 0 with
  | _ :: _, Some m =>
      let x := m # Pos.pow 10 (Pos.of_nat (length (snd parts))) in
      Some (if negative then - x else x)
  | _, _ => None
  end.

Definition reads_as (text : string) (x : Q) : bool :=
  match read_float text with
  | Some y => Qeq_bool y x
  | None => false
  end.

(** The row names observation [id], source number [i + 1], and the exact
    tuple [src]. *)
Definition row_reproduces (line : string) (entry : string * nat * source)
  : bool :=
  let '(id, i, (ra, dec, flux)) := entry in
  match fields line with
  | [f_id; f_index; f_ra; f_dec; f_flux] =>
      String.eqb f_id id
      && match read_int f_index with
         | Some k => (k =? Z.of_nat i + 1)%Z
         | None => false
         end
      && reads_as f_ra ra && reads_as f_dec dec && reads_as f_flux flux
  | _ => false
  end.

(** Every configured source with its observation and its position. *)
Definition configured_sources (observations : list observation)
  : list (string * nat * source) :=
  flat_map
    (fun o =>
       map (fun p => (cfg_obs_id o, fst p, snd p))
         (combine (seq 0 (length (cfg_sources o))) (cfg_sources o)))
    observations.

Lemma bind_inv_ok {A B : Type} (m : M A) (k : A -> M B) (w : world)
    (b : B) :
  value (bind m k w) = Ok b ->
  exists a, value (m w) = Ok a /\ value (k a (after (m w))) = Ok b.
Proof.
  unfold bind. destruct (value (m w)) as [a | e] eqn:E; simpl.
  - intros H. exists a. auto.
  - discriminate.
Qed.

Lemma print_files_run (generated_files : list string) (w : world) :
  value (print_files generated_files w) = Ok tt /\
  after (print_files generated_files w) = w /\
  printed (print_files generated_files w) = map MsgFile generated_files.
Proof.
  induction generated_files as [| f l IH]; simpl.
  - auto.
  - unfold bind, print. simpl. destruct IH as (Hv & Ha & Hp).
    rewrite Hv, Ha, Hp. auto.
Qed.

Lemma catalog_rows_length (observations : list observation) :
  length (flat_map catalog_rows observations)
  = list_sum (map (fun o => length (cfg_sources o)) observations).
Proof.
  induction observations as [| o l IH]; simpl.
  - reflexivity.
  - rewrite length_app, IH. f_equal.
    unfold catalog_rows.
    rewrite length_map, length_combine, length_seq. apply Nat.min_id.
Qed.

(** A decidable test for [Forall2]. *)
Fixpoint forall2b {A B : Type} (f : A -> B -> bool) (l1 : list A)
    (l2 : list B) : bool :=
  match l1, l2 with
  | [], [] => true
  | a :: l1', b :: l2' => f a b && forall2b f l1' l2'
  | _, _ => false
  end.

Lemma forall2b_Forall2 {A B : Type} (f : A -> B -> bool) (l1 : list A)
    (l2 : list B) :
  forall2b f l1 l2 = true -> Forall2 (fun a b => f a b = true) l1 l2.
Proof.
  revert l2. induction l1 as [| a l1 IH]; intros [| b l2] H;
    simpl in H; try discriminate.
  - constructor.
  - apply andb_true_iff in H. destruct H as [Hab H].
    constructor; [exact Hab | apply IH; exact H].
Qed.

(** Rewrite the world after a [bind] whose first action returns, by [H]. *)
Ltac after_bind H :=
  match goal with
  | |- context [after (bind ?m ?k ?w)] =>
      rewrite (proj2 (proj2 (bind_ok m k w _ H)))
  end.

(** C6.  When [main] completes, the catalog file holds two comment lines
    (a title and the column format) followed by one row per configured
    source, eight in all, each in the fixed format and reading back as the
    observation id, source number, and exact RA, DEC and flux. *)
Theorem catalog_written (w : world) :
  value (main w) = Ok tt ->
  read_file catalog_path (files (after (main w)))
  = Some (TextFile (catalog_lines create_test_observations)) /\
  catalog_lines create_test_observations
  = [ "# MinieSASS Test Source Catalog";
      "# Format: OBS_ID  SOURCE_ID  RA_DEG  DEC_DEG  FLUX_CTS_PER_SEC";
      "TEST001   1   30.0500   10.0300    0.1500";
      "TEST001   2   29.9500   10.0800    0.0800";
      "TEST001   3   30.0800    9.9200    0.0400";
      "TEST001   4   29.9200    9.9500    0.0250";
      "TEST001   5   30.0200   10.1500    0.2000";
      "TEST002   1   45.0300   -4.9700    0.1200";
      "TEST002   2   44.9800   -5.0500    0.0600";
      "TEST002   3   45.1200   -4.8800    0.1800" ] /\
  length (flat_map catalog_rows create_test_observations)
  = list_sum (map (fun o => length (cfg_sources o)) create_test_observations)
  /\
  length (flat_map catalog_rows create_test_observations) = 8%nat /\
  Forall2 (fun line entry => row_reproduces line entry = true)
    (flat_map catalog_rows create_test_observations)
    (configured_sources create_test_observations).
Proof.
  intros Hok.
  split.
  - unfold main in *. revert Hok.
    generalize (catalog_lines create_test_observations).
    generalize create_test_observations. intros obs lines Hok.
    apply bind_inv_ok in Hok. destruct Hok as ([] & _ & Hok).
    apply bind_inv_ok in Hok. destruct Hok as ([] & _ & Hok).
    apply bind_inv_ok in Hok. destruct Hok as ([] & Hdir & Hok).
    apply bind_inv_ok in Hok. destruct Hok as (gf & Hgen & Hok).
    apply bind_inv_ok in Hok. destruct Hok as ([] & Hwr & _).
    after_bind (@eq_refl (result unit) (Ok tt)).
    after_bind (@eq_refl (result unit) (Ok tt)).
    after_bind Hdir.
    after_bind Hgen.
    set (w1 := after (generate_observations _ obs [] _)) in *.
    after_bind Hwr.
    after_bind (@eq_refl (result unit) (Ok tt)).
    after_bind (@eq_refl (result unit) (Ok tt)).
    match goal with
    | |- context [after (bind (print_files gf) ?k ?w)] =>
        rewrite (proj2 (proj2 (bind_ok (print_files gf) k w tt
                                 (proj1 (print_files_run gf w))))),
          (proj1 (proj2 (print_files_run gf w)))
    end.
    unfold write_file in Hwr |- *.
    destruct (can_write catalog_path); [| discriminate Hwr].
    unfold bind, print. cbn [value after printed files read_file fst].
    rewrite String.eqb_refl. reflexivity.
  - split; [vm_compute; reflexivity |].
    split; [apply catalog_rows_length |].
    split; [vm_compute; reflexivity |].
    apply forall2b_Forall2. vm_compute. reflexivity.
Qed.

(** ** Two runs *)

(** A file with the [DATE-OBS] card of its primary header removed. *)
Definition without_date (f : file) : file :=
  match f with
  | FitsFile x =>
      FitsFile
        (mk_fits
           (filter (fun c => negb (String.eqb (fst c) "DATE-OBS"))
              (primary_header x))
           (table_name x) (table_header x) (table_columns x))
  | TextFile lines => TextFile lines
  end.

(** Both disks hold a file at [path], the same but for [DATE-OBS]. *)
Definition same_output (path : string) (w1 w2 : world) : Prop :=
  exists f1 f2,
    read_file path (files w1) = Some f1 /\
    read_file path (files w2) = Some f2 /\
    without_date f1 = without_date f2.

Definition twin (paths : list string) (w1 w2 : world) : Prop :=
  forall p, In p paths -> same_output p w1 w2.

(** Run from two worlds with the same sampler state, [m] returns and
    prints the same, leaves the same sampler state, keeps every pair of
    files that agreed in agreement, and, if it returns a value, has written
    agreeing files at [paths]. *)
Definition det {A : Type} (paths : list string) (m : M A) : Prop :=
  forall written w1 w2,
    np_random w1 = np_random w2 ->
    twin written w1 w2 ->
    value (m w1) = value (m w2) /\
    printed (m w1) = printed (m w2) /\
    np_random (after (m w1)) = np_random (after (m w2)) /\
    twin written (after (m w1)) (after (m w2)) /\
    ((exists a, value (m w1) = Ok a) ->
     twin paths (after (m w1)) (after (m w2))).

(** The same from any two sampler states, as after a reseeding. *)
Definition det0 {A : Type} (paths : list string) (m : M A) : Prop :=
  forall written w1 w2,
    twin written w1 w2 ->
    value (m w1) = value (m w2) /\
    printed (m w1) = printed (m w2) /\
    twin written (after (m w1)) (after (m w2)) /\
    ((exists a, value (m w1) = Ok a) ->
     twin paths (after (m w1)) (after (m w2))).

Lemma twin_nil (w1 w2 : world) : twin [] w1 w2.
Proof. intros p []. Qed.

Lemma twin_app (ps qs : list string) (w1 w2 : world) :
  twin (ps ++ qs) w1 w2 <-> twin ps w1 w2 /\ twin qs w1 w2.
Proof.
  unfold twin. split.
  - intros H. split; intros p Hp; apply H; apply in_or_app; auto.
  - intros [H1 H2] p Hp. apply in_app_or in Hp. destruct Hp; auto.
Qed.

Lemma twin_files (ps : list string) (w1 w2 w1' w2' : world) :
  files w1' = files w1 -> files w2' = files w2 ->
  twin ps w1 w2 -> twin ps w1' w2'.
Proof.
  intros E1 E2 H p Hp. destruct (H p Hp) as (f1 & f2 & H1 & H2 & Hf).
  exists f1, f2. rewrite E1, E2. auto.
Qed.

Lemma det_ret {A : Type} (a : A) : det [] (ret a).
Proof.
  intros written w1 w2 Hs Ht. unfold ret. simpl.
  repeat split; auto using twin_nil.
Qed.

Lemma det_print (m : message) : det [] (print m).
Proof.
  intros written w1 w2 Hs Ht. unfold print. simpl.
  repeat split; auto using twin_nil.
Qed.

Lemma det0_raise {A : Type} (ps : list string) (e : exception) :
  det0 ps (raise (A := A) e).
Proof.
  intros written w1 w2 Ht. unfold raise. simpl.
  repeat split; auto. intros (a & Ha). discriminate.
Qed.

Lemma det_raise {A : Type} (ps : list string) (e : exception) :
  det ps (raise (A := A) e).
Proof.
  intros written w1 w2 Hs Ht. unfold raise. simpl.
  repeat split; auto. intros (a & Ha). discriminate.
Qed.

Lemma det_draw {A : Type} (f : rng_state -> A * rng_state) :
  det [] (draw f).
Proof.
  intros written w1 w2 Hs Ht. unfold draw. simpl. rewrite Hs.
  repeat split; auto using twin_nil.
Qed.

Lemma det_bind {A B : Type} (ps1 ps2 : list string) (m : M A)
    (k : A -> M B) :
  det ps1 m -> (forall a, det ps2 (k a)) -> det (ps1 ++ ps2) (bind m k).
Proof.
  intros Hm Hk written w1 w2 Hs Ht.
  destruct (Hm written w1 w2 Hs Ht) as (Hv & Hp & Hs' & Ht' & Hw).
  unfold bind. rewrite <- Hv, <- Hp.
  destruct (value (m w1)) as [a | e] eqn:E; cbn [value after printed].
  - assert (Ht1 : twin (ps1 ++ written) (after (m w1)) (after (m w2))).
    { apply twin_app. split; [apply Hw; exists a; reflexivity | exact Ht']. }
    destruct (Hk a (ps1 ++ written) _ _ Hs' Ht1)
      as (Hv2 & Hp2 & Hs2 & Ht2 & Hw2).
    apply twin_app in Ht2. destruct Ht2 as [Hps1 Hwr].
    split; [exact Hv2 |]. split; [rewrite Hp2; reflexivity |].
    split; [exact Hs2 |]. split; [exact Hwr |].
    intros Hok. apply twin_app. split; [exact Hps1 | apply Hw2; exact Hok].
  - split; [reflexivity |]. split; [reflexivity |].
    split; [exact Hs' |]. split; [exact Ht' |].
    intros (b & Hb). discriminate.
Qed.

Lemma det0_ret {A : Type} (a : A) : det0 [] (ret a).
Proof.
  intros written w1 w2 Ht. unfold ret. simpl.
  repeat split; auto using twin_nil.
Qed.

Lemma det0_print (m : message) : det0 [] (print m).
Proof.
  intros written w1 w2 Ht. unfold print. simpl.
  repeat split; auto using twin_nil.
Qed.

Lemma det0_bind {A B : Type} (ps1 ps2 : list string) (m : M A)
    (k : A -> M B) :
  det0 ps1 m -> (forall a, det0 ps2 (k a)) -> det0 (ps1 ++ ps2) (bind m k).
Proof.
  intros Hm Hk written w1 w2 Ht.
  destruct (Hm written w1 w2 Ht) as (Hv & Hp & Ht' & Hw).
  unfold bind. rewrite <- Hv, <- Hp.
  destruct (value (m w1)) as [a | e] eqn:E; cbn [value after printed].
  - assert (Ht1 : twin (ps1 ++ written) (after (m w1)) (after (m w2))).
    { apply twin_app. split; [apply Hw; exists a; reflexivity | exact Ht']. }
    destruct (Hk a (ps1 ++ written) _ _ Ht1) as (Hv2 & Hp2 & Ht2 & Hw2).
    apply twin_app in Ht2. destruct Ht2 as [Hps1 Hwr].
    split; [exact Hv2 |]. split; [rewrite Hp2; reflexivity |].
    split; [exact Hwr |].
    intros Hok. apply twin_app. split; [exact Hps1 | apply Hw2; exact Hok].
  - split; [reflexivity |]. split; [reflexivity |]. split; [exact Ht' |].
    intros (b & Hb). discriminate.
Qed.

(** After [__init__] has seeded the sampler the two runs are in step. *)
Lemma det0_init {A : Type} (ps : list string) (id : string)
    (k : XRayEventSimulator -> M A) :
  (forall self, det ps (k self)) -> det0 ps (bind (init id) k).
Proof.
  intros Hk written w1 w2 Ht.
  unfold bind at 1 3 5 7 9. unfold init, bind, np_random_seed, ret.
  cbn [value after printed app].
  set (w1' := mk_world (seed 42) (wall_clock w1) (files w1)).
  set (w2' := mk_world (seed 42) (wall_clock w2) (files w2)).
  assert (Ht' : twin written w1' w2')
    by (apply (twin_files _ w1 w2); auto).
  destruct (Hk (attributes id) written w1' w2' eq_refl Ht')
    as (Hv & Hp & _ & Ht2 & Hw).
  auto.
Qed.

Lemma read_file_write (p q : string) (f : file)
    (fs : list (string * file)) :
  read_file q ((p, f) :: filter (fun e => negb (String.eqb (fst e) p)) fs)
  = if String.eqb p q then Some f else read_file q fs.
Proof.
  cbn [read_file]. destruct (String.eqb p q) eqn:E; [reflexivity |].
  induction fs as [| [p' f'] fs IH]; cbn [filter read_file fst].
  - reflexivity.
  - destruct (String.eqb p' p) eqn:E'; cbn [negb read_file].
    + apply String.eqb_eq in E'. subst p'. rewrite E. exact IH.
    + rewrite IH. reflexivity.
Qed.

(** Writing files that agree but for the date keeps the disks in step. *)
Lemma twin_write (written : list string) (path : string) (f1 f2 : file)
    (w1 w2 : world) :
  can_write path = true ->
  without_date f1 = without_date f2 ->
  twin written w1 w2 ->
  twin (path :: written) (after (write_file path f1 w1))
    (after (write_file path f2 w2)).
Proof.
  intros Hcw Hf Ht p Hp. unfold same_output, write_file. rewrite Hcw.
  cbn [after files].
  rewrite !read_file_write.
  destruct (String.eqb path p) eqn:E.
  - exists f1, f2. auto.
  - destruct Hp as [-> | Hp]; [rewrite String.eqb_refl in E; discriminate |].
    exact (Ht p Hp).
Qed.

(** A refused write leaves the world as it was, in both runs. *)
Lemma write_file_refused (path : string) (f : file) (w : world) :
  can_write path = false ->
  write_file path f w = mk_outcome (Raise (OSError path)) w [].
Proof. intros Hcw. unfold write_file. rewrite Hcw. reflexivity. Qed.

Lemma write_file_value (path : string) (f : file) (w : world) :
  can_write path = true -> value (write_file path f w) = Ok tt.
Proof. intros Hcw. unfold write_file. rewrite Hcw. reflexivity. Qed.

Lemma det0_write_file (path : string) (f : file) :
  det0 [path] (write_file path f).
Proof.
  intros written w1 w2 Ht.
  destruct (can_write path) eqn:Hcw.
  - pose proof (twin_write written path f f w1 w2 Hcw eq_refl Ht) as H.
    change (path :: written) with ([path] ++ written) in H.
    apply twin_app in H. destruct H as [H1 H2].
    rewrite !(write_file_value path f _ Hcw).
    split; [reflexivity |].
    split; [unfold write_file; rewrite Hcw; reflexivity |]. auto.
  - rewrite !(write_file_refused path f _ Hcw). cbn [value after printed].
    split; [reflexivity |]. split; [reflexivity |]. split; [exact Ht |].
    intros (a & Ha). discriminate Ha.
Qed.

Lemma det0_os_makedirs (path : string) : det0 [] (os_makedirs path).
Proof.
  unfold os_makedirs.
  destruct (can_makedirs path); [apply det0_ret | apply det0_raise].
Qed.

Lemma det_poisson (lam : Q) : det [] (np_random_poisson lam).
Proof.
  unfold np_random_poisson.
  destruct (Qlt_le_dec lam 0); [apply det_raise | apply det_draw].
Qed.

(** Chain the rule for [bind] over actions that write no file. *)
Ltac det_steps :=
  repeat first
    [ apply det_ret | apply det_print | apply det_draw | apply det_poisson
    | apply det_raise
    | apply (det_bind [] []); [| intro] ].

Lemma det_simulate_source (self : XRayEventSimulator) (rc dc : Q) (i : nat)
    (src : source) (acc : events) :
  det [] (simulate_source self rc dc i src acc).
Proof.
  destruct src as [[ra dec] flux]. unfold simulate_source.
  apply (det_bind [] []); [apply det_poisson | intros n].
  destruct (0 <? n)%nat.
  - unfold np_random_normal, np_random_uniform, np_random_exponential.
    det_steps.
  - apply det_ret.
Qed.

Lemma det_simulate_sources (self : XRayEventSimulator) (rc dc : Q)
    (sources : list source) :
  forall i acc, det [] (simulate_sources self rc dc i sources acc).
Proof.
  induction sources as [| src rest IH]; intros i acc; cbn [simulate_sources].
  - apply det_ret.
  - apply (det_bind [] []); [apply det_simulate_source |].
    intros acc'. apply IH.
Qed.

Lemma det_simulate_background (self : XRayEventSimulator) (rc dc : Q)
    (acc : events) :
  det [] (simulate_background self rc dc acc).
Proof.
  unfold simulate_background.
  apply (det_bind [] []); [apply det_poisson | intros n].
  destruct (0 <? n)%nat.
  - unfold np_random_uniform. det_steps.
  - apply det_ret.
Qed.

Lemma det_create_simple_events (self : XRayEventSimulator)
    (sources : list source) (rc dc : Q) :
  det [] (create_simple_events self sources rc dc).
Proof.
  unfold create_simple_events, accumulate_events.
  apply (det_bind [] []); [| intros all; apply det_ret].
  apply (det_bind [] []); [apply det_print | intros _].
  apply (det_bind [] []); [apply det_simulate_sources | intros acc].
  apply det_simulate_background.
Qed.

Lemma det_add_realistic_columns (self : XRayEventSimulator) (evs : events) :
  det [] (add_realistic_columns self evs).
Proof.
  unfold add_realistic_columns, np_random_choice. det_steps.
Qed.


(** The two runs read their own clocks, so the files written differ in
    [DATE-OBS] and in nothing else. *)
Lemma det_write_fits_file (self : XRayEventSimulator)
    (evs : detector_events) (filename : string) (rc dc : Q) :
  det [filename] (write_fits_file self evs filename rc dc).
Proof.
  intros written w1 w2 Hs Ht.
  set (f1 := FitsFile
               (mk_fits (primary_cards self rc dc (wall_clock w1 0%nat))
                  "EVENTS" (table_cards self) (table_cols evs))).
  set (f2 := FitsFile
               (mk_fits (primary_cards self rc dc (wall_clock w2 0%nat))
                  "EVENTS" (table_cards self) (table_cols evs))).
  set (u1 := mk_world (np_random w1) (fun k => wall_clock w1 (S k))
               (files w1)).
  set (u2 := mk_world (np_random w2) (fun k => wall_clock w2 (S k))
               (files w2)).
  assert (Hf : without_date f1 = without_date f2) by reflexivity.
  assert (Hu : twin written u1 u2) by (apply (twin_files _ w1 w2); auto).
  assert (E : forall w : world,
             write_fits_file self evs filename rc dc w
             = let u := mk_world (np_random w)
                          (fun k => wall_clock w (S k)) (files w) in
               let r := write_file filename
                          (FitsFile
                             (mk_fits
                                (primary_cards self rc dc
                                   (wall_clock w 0%nat))
                                "EVENTS" (table_cards self)
                                (table_cols evs))) u in
               match value r with
               | Ok _ =>
                   mk_outcome (Ok filename) (after r)
                     [MsgWriting (length (ev_time (ev_base evs))) filename;
                      MsgWritten filename]
               | Raise e =>
                   mk_outcome (Raise e) u
                     [MsgWriting (length (ev_time (ev_base evs))) filename]
               end).
  { intros w. unfold write_fits_file, bind, print, datetime_now_isoformat,
      write_file, ret.
    cbn [value after printed app].
    destruct (can_write filename); reflexivity. }
  rewrite !E. cbv zeta. fold f1 f2 u1 u2.
  destruct (can_write filename) eqn:Hcw.
  - pose proof (twin_write written filename f1 f2 u1 u2 Hcw Hf Hu) as H.
    change (filename :: written) with ([filename] ++ written) in H.
    apply twin_app in H. destruct H as [H1 H2].
    rewrite !(write_file_value filename _ _ Hcw). cbn [value after printed].
    split; [reflexivity |]. split; [reflexivity |].
    split; [unfold write_file; rewrite Hcw; exact Hs |].
    split; [exact H2 |]. intros _. exact H1.
  - rewrite !(write_file_refused filename _ _ Hcw). cbn [value after printed].
    split; [reflexivity |]. split; [reflexivity |].
    split; [exact Hs |]. split; [exact Hu |].
    intros (a & Ha). discriminate Ha.
Qed.

Lemma det_array_min (a : list Q) : det [] (array_min a).
Proof. destruct a; [apply det_raise | apply det_ret]. Qed.

Lemma det_array_max (a : list Q) : det [] (array_max a).
Proof. destruct a; [apply det_raise | apply det_ret]. Qed.

(** The path of the table written for an observation. *)
Definition fits_path (output_dir : string) (obs_config : observation)
  : string :=
  path_join output_dir (cfg_obs_id obs_config ++ "_events.fits")%string.

Lemma det0_generate_observation (output_dir : string)
    (obs_config : observation) :
  det0 [fits_path output_dir obs_config]
    (generate_observation output_dir obs_config).
Proof.
  unfold generate_observation. fold (fits_path output_dir obs_config).
  set (fn := fits_path output_dir obs_config).
  apply (det0_bind [] [fn]); [apply det0_print | intros _].
  apply (det0_bind [] [fn]); [apply det0_print | intros _].
  apply (det0_bind [] [fn]); [apply det0_print | intros _].
  apply det0_init. intros self.
  apply (det_bind [] [fn]); [apply det_create_simple_events | intros evs].
  apply (det_bind [] [fn]); [apply det_add_realistic_columns | intros devs].
  cbv zeta.
  apply (det_bind [fn] []); [apply det_write_fits_file | intros _].
  apply (det_bind [] []); [apply det_print | intros _].
  apply (det_bind [] []); [apply det_print | intros _].
  apply (det_bind [] []); [apply det_print | intros _].
  apply (det_bind [] []); [apply det_print | intros _].
  apply (det_bind [] []); [apply det_array_min | intros lo].
  apply (det_bind [] []); [apply det_array_max | intros hi].
  apply (det_bind [] []); [apply det_print | intros _].
  apply det_ret.
Qed.

Lemma det0_generate_observations (output_dir : string)
    (observations : list observation) :
  forall generated_files,
    det0 (map (fits_path output_dir) observations)
      (generate_observations output_dir observations generated_files).
Proof.
  induction observations as [| o rest IH]; intros gf;
    cbn [generate_observations map].
  - apply det0_ret.
  - apply (det0_bind [fits_path output_dir o]
             (map (fits_path output_dir) rest)).
    + apply det0_generate_observation.
    + intros filename. apply IH.
Qed.

Lemma det0_print_files (generated_files : list string) :
  det0 [] (print_files generated_files).
Proof.
  induction generated_files as [| f l IH]; cbn [print_files].
  - apply det0_ret.
  - apply (det0_bind [] []); [apply det0_print | intros _; exact IH].
Qed.

(** The files [main] writes. *)
Definition output_paths : list string :=
  [ "data/simulated/raw/TEST001_events.fits";
    "data/simulated/raw/TEST002_events.fits";
    "data/simulated/source_catalog.txt" ].

Lemma det0_main : det0 output_paths main.
Proof.
  change output_paths
    with (map (fits_path "data/simulated/raw") create_test_observations
            ++ [catalog_path]).
  unfold main.
  generalize (catalog_lines create_test_observations).
  generalize create_test_observations. intros obs lines.
  apply (det0_bind [] (map (fits_path "data/simulated/raw") obs
                         ++ [catalog_path]));
    [apply det0_print | intros _].
  apply (det0_bind [] (map (fits_path "data/simulated/raw") obs
                         ++ [catalog_path]));
    [apply det0_print | intros _].
  apply (det0_bind [] (map (fits_path "data/simulated/raw") obs
                         ++ [catalog_path]));
    [apply det0_os_makedirs | intros _].
  apply (det0_bind (map (fits_path "data/simulated/raw") obs)
           [catalog_path]);
    [apply det0_generate_observations | intros gf].
  apply (det0_bind [catalog_path] []); [apply det0_write_file | intros _].
  apply (det0_bind [] []); [apply det0_print | intros _].
  apply (det0_bind [] []); [apply det0_print | intros _].
  apply (det0_bind [] []); [apply det0_print_files | intros _].
  apply (det0_bind [] []); [apply det0_print | intros _].
  apply det0_print.
Qed.

(** C9 (as amended).  Two runs of [main] on one machine, whatever the
    sampler states, clocks and files they start from, return the same,
    print the same, and when they complete leave at each output path files
    that are equal once the [DATE-OBS] card, the wall-clock time of the
    run, is removed from the primary header: the same event tables, the
    same other header cards, the same catalog. *)
Theorem runs_agree_but_for_date (w1 w2 : world) :
  value (main w1) = value (main w2) /\
  printed (main w1) = printed (main w2) /\
  ((exists a, value (main w1) = Ok a) ->
   forall p, In p output_paths ->
     exists f1 f2,
       read_file p (files (after (main w1))) = Some f1 /\
       read_file p (files (after (main w2))) = Some f2 /\
       without_date f1 = without_date f2).
Proof.
  destruct (det0_main [] w1 w2 (twin_nil w1 w2)) as (Hv & Hp & _ & Hw).
  split; [exact Hv |]. split; [exact Hp |].
  intros Hok p Hp'. exact (Hw Hok p Hp').
Qed.

End ScriptProperties.

(** * A sampler to run the model *)

(** A linear congruential generator with the distributions derived from its
    unit draws.  It satisfies the laws of [NumpyRandom]; it makes no claim
    to the shapes of the distributions. *)
Module Lcg.

Definition modulus : Z := 2147483648.

Definition next (s : Z) : Z := ((1103515245 * s + 12345) mod modulus)%Z.

(** A state as a number in [0, 1). *)
Definition unit_draw (s : Z) : Q := (s mod modulus)%Z # 2147483648.

(** The next [n] states, and the last of them. *)
Fixpoint states (n : nat) (s : Z) : list Z * Z :=
  match n with
  | O => ([], s)
  | S n' =>
      let s1 := next s in
      let r := states n' s1 in
      (s1 :: fst r, snd r)
  end.

Definition sample (f : Z -> Q) (n : nat) (s : Z) : list Q * Z :=
  let r := states n s in (map f (fst r), snd r).

Definition poisson (lam : Q) (s : Z) : nat * Z :=
  let s1 := next s in
  (if Qle_bool lam 0 then 0%nat else Z.to_nat (s1 / 65536 mod 4), s1).

Definition normal (loc scale : Q) : nat -> Z -> list Q * Z :=
  sample (fun k => loc + scale * (6 * unit_draw k - 3)).

Definition uniform (lo hi : Q) : nat -> Z -> list Q * Z :=
  sample (fun k => lo + (hi - lo) * unit_draw k).

Definition exponential (scale : Q) : nat -> Z -> list Q * Z :=
  sample (fun k => scale * (8 * unit_draw k)).

Definition choice (a : list Z) (n : nat) (p : list Q) (s : Z)
  : list Z * Z :=
  let r := states n s in
  (map (fun k => nth (Z.to_nat (k / 65536 mod Z.of_nat (length a))) a 0%Z)
     (fst r),
   snd r).

Lemma states_length (n : nat) (s : Z) : length (fst (states n s)) = n.
Proof.
  revert s. induction n as [| n IH]; intros s; simpl.
  - reflexivity.
  - f_equal. apply IH.
Qed.

Lemma sample_length (f : Z -> Q) (n : nat) (s : Z) :
  length (fst (sample f n s)) = n.
Proof. unfold sample. simpl. rewrite length_map. apply states_length. Qed.

Lemma unit_draw_range (s : Z) : 0 <= unit_draw s /\ unit_draw s < 1.
Proof.
  unfold unit_draw.
  pose proof (Z.mod_pos_bound s modulus eq_refl) as H.
  unfold modulus in *. unfold Qle, Qlt. simpl. lia.
Qed.

Lemma uniform_range (lo hi : Q) (n : nat) (s : Z) :
  lo < hi ->
  Forall (fun x => lo <= x /\ x < hi) (fst (uniform lo hi n s)).
Proof.
  intros Hlh. unfold uniform, sample. simpl.
  apply Forall_map. apply Forall_forall. intros k _.
  destruct (unit_draw_range k) as [H0 H1]. split; nra.
Qed.

Lemma choice_length (a : list Z) (n : nat) (p : list Q) (s : Z) :
  a <> [] -> length (fst (choice a n p s)) = n.
Proof.
  intros _. unfold choice. simpl. rewrite length_map. apply states_length.
Qed.

Lemma choice_range (a : list Z) (n : nat) (p : list Q) (s : Z) :
  a <> [] -> Forall (fun x => In x a) (fst (choice a n p s)).
Proof.
  intros Ha. unfold choice. simpl.
  apply Forall_map. apply Forall_forall. intros k _.
  apply nth_In.
  assert (0 < Z.of_nat (length a))%Z
    by (destruct a; [congruence | simpl; lia]).
  pose proof (Z.mod_pos_bound (k / 65536) (Z.of_nat (length a)) H). lia.
Qed.

End Lcg.

#[export] Instance lcg : NumpyRandom := {|
  rng_state := Z;
  seed := fun k => k;
  poisson := Lcg.poisson;
  normal := Lcg.normal;
  uniform := Lcg.uniform;
  exponential := Lcg.exponential;
  choice := Lcg.choice;
  normal_size := fun loc scale => Lcg.sample_length _;
  uniform_size := fun lo hi => Lcg.sample_length _;
  exponential_size := fun scale => Lcg.sample_length _;
  choice_size := Lcg.choice_length;
  uniform_range := Lcg.uniform_range;
  choice_range := Lcg.choice_range
|}.

(** A machine that refuses nothing. *)
#[export] Instance permissive : OperatingSystem := {|
  can_makedirs := fun _ => true;
  can_write := fun _ => true
|}.

(** A world to start from: an unseeded sampler, a clock that reads the two
    given instants and then the second for ever, and an empty disk. *)
Definition start (s : Z) (t0 t1 : string) : @world lcg :=
  mk_world s (fun k => match k with O => t0 | _ => t1 end) [].

(** * The model on concrete inputs *)

(** The sources of the first observation and a world to run them in. *)
Definition demo_sources : list source :=
  [ (3005 # 100, 1003 # 100, 150 # 1000);
    (2995 # 100, 1008 # 100, 80 # 1000);
    (3008 # 100, 992 # 100, 40 # 1000) ].

Definition demo_world : @world lcg :=
  start 42 "2025-07-01T10:00:00" "2025-07-01T10:00:05".

Lemma demo_sources_nonneg : nonneg_flux demo_sources.
Proof. repeat constructor; discriminate. Qed.

Example demo_run :
  option_map ev_source_id
    (match value (create_simple_events (attributes "TEST001") demo_sources
                    30 10 demo_world) with
     | Ok evs => Some evs
     | Raise _ => None
     end)
  = Some [0; 2; 0; 1]%Z.
Proof. vm_compute. reflexivity. Qed.

Lemma create_simple_events_sorted_witness :
  nonneg_flux demo_sources /\
  exists evs,
    value (create_simple_events (attributes "TEST001") demo_sources 30 10
             demo_world) = Ok evs /\
    forall i j, (i < j)%nat -> (j < n_events evs)%nat ->
                nth i (ev_time evs) 0 <= nth j (ev_time evs) 0.
Proof.
  split; [exact demo_sources_nonneg |].
  destruct (create_simple_events_sorted "TEST001" demo_sources 30 10
              demo_world demo_sources_nonneg)
    as (all & evs & order & _ & Hv & Hs & _).
  exists evs. split; [exact Hv | exact Hs].
Defined.

Lemma create_simple_events_ranges_witness :
  nonneg_flux demo_sources /\
  exists evs,
    value (create_simple_events (attributes "TEST001") demo_sources 30 10
             demo_world) = Ok evs /\
    forall k, (k < n_events evs)%nat ->
      2 # 10 <= nth k (ev_energy evs) 0 /\ nth k (ev_energy evs) 0 <= 10.
Proof.
  split; [exact demo_sources_nonneg |].
  destruct (create_simple_events_ranges "TEST001" demo_sources 30 10
              demo_world demo_sources_nonneg) as (evs & Hv & H).
  exists evs. split; [exact Hv |]. intros k Hk. exact (proj1 (H k Hk)).
Defined.

Lemma detector_columns_ranges_witness :
  nonneg_flux demo_sources /\
  exists devs,
    value ((evs <- create_simple_events (attributes "TEST001") demo_sources
                     30 10 ;;
            add_realistic_columns (attributes "TEST001") evs) demo_world)
    = Ok devs /\
    forall k, (k < n_events (ev_base devs))%nat ->
      (0 <= nth k (ev_frame devs) 0 <= 384)%Z.
Proof.
  split; [exact demo_sources_nonneg |].
  destruct (detector_columns_ranges "TEST001" demo_sources 30 10 demo_world
              demo_sources_nonneg) as (devs & Hv & _ & _ & _ & _ & _ & H).
  exists devs. split; [exact Hv |]. intros k Hk.
  exact (proj1 (proj2 (H k Hk))).
Defined.

Lemma source_ids_partition_witness :
  nonneg_flux demo_sources /\
  exists evs n_bg,
    value (create_simple_events (attributes "TEST001") demo_sources 30 10
             demo_world) = Ok evs /\
    count_if (fun s => (s =? 0)%Z) (ev_source_id evs) = n_bg.
Proof.
  split; [exact demo_sources_nonneg |].
  destruct (source_ids_partition "TEST001" demo_sources 30 10 demo_world
              demo_sources_nonneg)
    as (evs & out & n_bg & Hv & _ & _ & _ & _ & _ & _ & _ & _ & Hbg & _).
  exists evs, n_bg. split; [exact Hv | exact Hbg].
Defined.

Lemma demo_main_completes : value (main demo_world) = Ok tt.
Proof. vm_compute. reflexivity. Qed.

Lemma catalog_written_witness :
  value (main demo_world) = Ok tt /\
  read_file catalog_path (files (after (main demo_world)))
  = Some (TextFile (catalog_lines create_test_observations)).
Proof.
  split; [exact demo_main_completes |].
  exact (proj1 (catalog_written demo_world demo_main_completes)).
Defined.

(** An installation without [astropy]. *)
Definition no_astropy (name : string) : bool :=
  negb (String.prefix "astropy" name).

Lemma missing_dependency_exits_witness :
  (exists name, In name required_imports /\ no_astropy name = false) /\
  exit_status (run_script no_astropy demo_world) = 1%Z /\
  final (run_script no_astropy demo_world) = demo_world.
Proof.
  assert (H : exists name,
             In name required_imports /\ no_astropy name = false).
  { exists "astropy.io.fits". split; [| reflexivity].
    right. right. left. reflexivity. }
  split; [exact H |].
  destruct (missing_dependency_exits no_astropy demo_world H)
    as (He & Hf & _).
  split; [exact He | exact Hf].
Defined.

(** C9, as stated, fails: the primary header carries [DATE-OBS], the
    wall-clock time at which the file was written, so two runs at
    different times leave different files at the path of a table. *)
Lemma runs_differ_in_date :
  ~ (forall (w1 w2 : @world lcg) (p : string),
       In p output_paths ->
       read_file p (files (after (main w1)))
       = read_file p (files (after (main w2)))).
Proof.
  intros H.
  specialize (H demo_world
                (start 42 "2025-07-02T09:30:00" "2025-07-02T09:30:05")
                "data/simulated/raw/TEST001_events.fits"
                (or_introl eq_refl)).
  apply (f_equal
           (fun o =>
              match o with
              | Some (FitsFile f) => card_of "DATE-OBS" (primary_header f)
              | _ => None
              end)) in H.
  vm_compute in H. discriminate H.
Qed.

(** * Further properties of the generated table *)

Section TableProperties.

Context {sampler : NumpyRandom}.

(** The channel of an energy within the band: the float quotient of 10 keV
    is 1960, and that of 0.2 keV rounds to 0. *)
Lemma pi_range (e : Q) :
  2 # 10 <= e -> e <= 10 ->
  (0 <= round_half_even
          (float_div (float_sub e (binary64 (2 # 10))) (binary64 (5 # 1000)))
   <= 1960)%Z.
Proof.
  intros H0 H1.
  assert (Hc : 0 < binary64 (5 # 1000)) by (vm_compute; reflexivity).
  pose proof (float_div_monotone _ _ _ Hc
                (float_sub_monotone _ _ (binary64 (2 # 10)) H0)) as Hlo.
  pose proof (float_div_monotone _ _ _ Hc
                (float_sub_monotone _ _ (binary64 (2 # 10)) H1)) as Hhi.
  apply round_half_even_monotone in Hlo, Hhi.
  assert (E0 : round_half_even
                 (float_div (float_sub (2 # 10) (binary64 (2 # 10)))
                    (binary64 (5 # 1000))) = 0%Z)
    by (vm_compute; reflexivity).
  assert (E1 : round_half_even
                 (float_div (float_sub 10 (binary64 (2 # 10)))
                    (binary64 (5 # 1000))) = 1960%Z)
    by (vm_compute; reflexivity).
  lia.
Qed.

Lemma trunc_monotone (x y : Q) :
  0 <= x -> x <= y -> (trunc x <= trunc y)%Z.
Proof.
  intros Hx Hxy. rewrite !trunc_floor by lra.
  apply Qfloor_resp_le. exact Hxy.
Qed.

(** The number of entries of a column array. *)
Definition array_length (a : array) : nat :=
  match a with
  | FloatArray l => length l
  | IntArray l => length l
  end.

(** The two calls [main] chains for each observation (lines 298-303). *)
Definition simulate (id : string) (sources : list source)
    (ra_center dec_center : Q) : M detector_events :=
  evs <- create_simple_events (attributes id) sources ra_center dec_center ;;
  add_realistic_columns (attributes id) evs.

Lemma simulate_spec (id : string) (sources : list source) (rc dc : Q)
    (w : world) :
  nonneg_flux sources ->
  exists all grade status,
    value (simulate id sources rc dc w)
    = Ok (mk_detector_events (sort_by_time all)
            (np_clip_int
               (astype_int
                  (np_round
                     (map
                        (fun e =>
                           float_div (float_sub e (binary64 (2 # 10)))
                             (binary64 (5 # 1000)))
                        (ev_energy (sort_by_time all))))) 0 4095)
            grade status
            (astype_int
               (map (fun t => float_div t (binary64 (26 # 10)))
                  (ev_time (sort_by_time all)))))
    /\
    aligned all /\
    all_rows (row_ok (attributes id) rc dc) all /\
    length grade = n_events all /\
    length status = n_events all.
Proof.
  intros Hflux.
  destruct (create_simple_events_spec (attributes id) rc dc sources w
              (attributes_exposure id) (attributes_background id) Hflux)
    as (all & out & n_bg & _ & Hval & _ & _ & Hal & Hrows & _).
  unfold simulate.
  destruct (bind_ok _ (fun evs => add_realistic_columns (attributes id) evs)
              w _ Hval) as (Hv & _).
  rewrite Hv. clear Hv. set (w1 := after _).
  destruct (add_realistic_columns_value (attributes id) (sort_by_time all) w1)
    as (grade & status & Hv & Lg & Ls & _).
  exists all, grade, status.
  rewrite n_events_sort in Lg, Ls.
  split; [exact Hv |]. auto.
Qed.

(** X1.  For the events of a simulated observation the 12-bit clamp never
    acts: every PI channel is the rounded float quotient itself and lies in
    [0, 1960], the channel of the largest energy, 10 keV. *)
Theorem simulated_pi_unclamped (id : string) (sources : list source)
    (ra_center dec_center : Q) (w : world) :
  nonneg_flux sources ->
  exists devs,
    value (simulate id sources ra_center dec_center w) = Ok devs /\
    forall k, (k < n_events (ev_base devs))%nat ->
      nth k (ev_pi devs) 0%Z
      = round_half_even
          (float_div
             (float_sub (nth k (ev_energy (ev_base devs)) 0)
                (binary64 (2 # 10)))
             (binary64 (5 # 1000))) /\
      (0 <= nth k (ev_pi devs) 0 <= 1960)%Z.
Proof.
  intros Hflux.
  destruct (simulate_spec id sources ra_center dec_center w Hflux)
    as (all & grade & status & Hv & Hal & Hrows & _).
  eexists. split; [exact Hv |]. cbn [ev_base ev_pi].
  intros k Hk.
  assert (Hk' : (k < length (ev_energy (sort_by_time all)))%nat).
  { destruct (aligned_sort all) as (_ & _ & He & _). rewrite He. exact Hk. }
  destruct (all_rows_sort _ _ Hrows k Hk) as ((He1 & He2) & _).
  cbn [row_at r_energy] in He1, He2.
  unfold np_clip_int, astype_int, np_round.
  rewrite (nth_map_lt _ _ 0%Z) by (rewrite !length_map; exact Hk').
  rewrite (nth_map_lt _ _ 0) by (rewrite !length_map; exact Hk').
  rewrite (nth_map_lt _ _ 0) by (rewrite !length_map; exact Hk').
  rewrite (nth_map_lt _ _ 0) by exact Hk'.
  rewrite trunc_inject_Z.
  set (e := nth k (ev_energy (sort_by_time all)) 0) in *.
  pose proof (pi_range e He1 He2) as Hr.
  split; [unfold clip1_int; lia | unfold clip1_int; lia].
Qed.

(** X2.  Frame indices never decrease along the table, the rows being in
    order of time. *)
Theorem simulated_frames_ordered (id : string) (sources : list source)
    (ra_center dec_center : Q) (w : world) :
  nonneg_flux sources ->
  exists devs,
    value (simulate id sources ra_center dec_center w) = Ok devs /\
    forall i j, (i < j)%nat -> (j < n_events (ev_base devs))%nat ->
      (nth i (ev_frame devs) 0 <= nth j (ev_frame devs) 0)%Z.
Proof.
  intros Hflux.
  destruct (simulate_spec id sources ra_center dec_center w Hflux)
    as (all & grade & status & Hv & Hal & Hrows & _).
  eexists. split; [exact Hv |]. cbn [ev_base ev_frame].
  intros i j Hij Hj.
  assert (Hi : (i < n_events (sort_by_time all))%nat) by lia.
  unfold astype_int.
  rewrite !(nth_map_lt _ _ 0) by (rewrite ?length_map; assumption).
  destruct (all_rows_sort _ _ Hrows i Hi) as (_ & (Ht & _) & _).
  cbn [row_at r_time] in Ht.
  assert (Hle : nth i (ev_time (sort_by_time all)) 0
                <= nth j (ev_time (sort_by_time all)) 0).
  { apply strongly_sorted_nth; [apply take_argsort_sorted | exact Hij |].
    exact Hj. }
  assert (Hc : 0 < binary64 (26 # 10)) by (vm_compute; reflexivity).
  apply trunc_monotone.
  - apply (Qle_trans _ (float_div 0 (binary64 (26 # 10))));
      [vm_compute; discriminate | apply float_div_monotone; assumption].
  - apply float_div_monotone; assumption.
Qed.

(** X3.  Every one of the eleven columns handed to the table has one entry
    per event. *)
Theorem simulated_table_aligned (id : string) (sources : list source)
    (ra_center dec_center : Q) (w : world) :
  nonneg_flux sources ->
  exists devs,
    value (simulate id sources ra_center dec_center w) = Ok devs /\
    length (table_cols devs) = 11%nat /\
    Forall (fun c => array_length (col_array c) = n_events (ev_base devs))
      (table_cols devs).
Proof.
  intros Hflux.
  destruct (simulate_spec id sources ra_center dec_center w Hflux)
    as (all & grade & status & Hv & Hal & Hrows & Lg & Ls).
  eexists. split; [exact Hv |]. split; [reflexivity |].
  destruct (aligned_sort all) as (A1 & A2 & A3 & A4 & A5 & A6).
  unfold table_cols. cbn [ev_base ev_pi ev_grade ev_status ev_frame].
  repeat constructor; cbn [col_array array_length]; try assumption.
  - unfold np_clip_int, astype_int, np_round. rewrite !length_map.
    exact A3.
  - rewrite n_events_sort. exact Lg.
  - rewrite n_events_sort. exact Ls.
  - unfold astype_int. rewrite !length_map. reflexivity.
Qed.

(** X4.  With no source configured the call still simulates the background:
    the first thing it asks of the sampler is the Poisson count of rate
    [1e-4 * 384 * 384 * 1000]; it returns exactly that many events, all with
    the id 0, and prints the header line and the background line only. *)
Theorem create_simple_events_no_sources (id : string)
    (ra_center dec_center : Q) (w : world) :
  let n_bg :=
    fst (poisson ((1 # 10000) * 384 * 384 * 1000) (np_random w)) in
  exists evs,
    value (create_simple_events (attributes id) [] ra_center dec_center w)
    = Ok evs /\
    printed (create_simple_events (attributes id) [] ra_center dec_center w)
    = MsgSimulating 0 :: background_line n_bg /\
    n_events evs = n_bg /\
    length (ev_source_id evs) = n_bg /\
    Forall (fun s => s = 0%Z) (ev_source_id evs).
Proof.
  intros n_bg.
  assert (Hlam : 0 <= background_rate (attributes id) * 384 * 384
                      * exposure_time (attributes id)) by discriminate.
  destruct (simulate_background_spec (attributes id) ra_center dec_center
              no_events w (attributes_exposure id) Hlam)
    as (blk & Hv & Hp & Hal & Hn & Hids & _).
  cbn [background_rate exposure_time attributes] in Hn, Hids, Hp.
  fold n_bg in Hn, Hids, Hp.
  rewrite extend_no_events_l in Hv.
  assert (Hlen : length (ev_source_id blk) = n_events blk) by apply Hal.
  assert (Hacc : accumulate_events (attributes id) [] ra_center dec_center w
                 = mk_outcome
                     (value (simulate_background (attributes id) ra_center
                               dec_center no_events w))
                     (after (simulate_background (attributes id) ra_center
                               dec_center no_events w))
                     (MsgSimulating 0
                        :: printed (simulate_background (attributes id)
                                      ra_center dec_center no_events w))).
  { unfold accumulate_events, bind, print, simulate_sources, ret.
    cbn [value after printed app length]. rewrite Hv. reflexivity. }
  exists (sort_by_time blk).
  unfold create_simple_events, bind. rewrite Hacc.
  cbn [value after printed]. rewrite Hv, Hp. unfold ret.
  cbn [value after printed]. rewrite app_nil_r.
  split; [reflexivity |]. split; [reflexivity |].
  assert (Hperm : Permutation (take 0%Z (ev_source_id blk)
                                 (np_argsort (ev_time blk)))
                    (ev_source_id blk)).
  { apply take_perm. rewrite Hlen. apply argsort_perm. }
  split; [rewrite n_events_sort; exact Hn |].
  split.
  - unfold sort_by_time. cbn [ev_source_id].
    rewrite (Permutation_length Hperm), Hlen. exact Hn.
  - apply Forall_forall. intros s Hs.
    unfold sort_by_time in Hs. cbn [ev_source_id] in Hs.
    apply (Permutation_in _ Hperm) in Hs. rewrite Hids in Hs.
    apply repeat_spec in Hs. exact Hs.
Qed.

End TableProperties.

(** * Failure and partial output *)

Section RunProperties.

Context {sampler : NumpyRandom} {os : OperatingSystem}.

(** [m] leaves the disk and the clock alone, and raises nothing but
    [ValueError]. *)
Definition sampling {A : Type} (m : M A) : Prop :=
  forall w,
    files (after (m w)) = files w /\
    wall_clock (after (m w)) = wall_clock w /\
    (forall e, value (m w) = Raise e -> exists what, e = ValueError what).

Lemma sampling_ret {A : Type} (a : A) : sampling (ret a).
Proof.
  intros w. unfold ret. cbn. repeat split. intros e H. discriminate.
Qed.

Lemma sampling_print (m : message) : sampling (print m).
Proof.
  intros w. unfold print. cbn. repeat split. intros e H. discriminate.
Qed.

Lemma sampling_draw {A : Type} (f : rng_state -> A * rng_state) :
  sampling (draw f).
Proof.
  intros w. unfold draw. cbn. repeat split. intros e H. discriminate.
Qed.

Lemma sampling_raise {A : Type} (what : string) :
  sampling (raise (A := A) (ValueError what)).
Proof.
  intros w. unfold raise. cbn. repeat split.
  intros e H. injection H as <-. exists what. reflexivity.
Qed.

Lemma sampling_bind {A B : Type} (m : M A) (k : A -> M B) :
  sampling m -> (forall a, sampling (k a)) -> sampling (bind m k).
Proof.
  intros Hm Hk w. destruct (Hm w) as (Hf & Hc & He).
  unfold bind. destruct (value (m w)) as [a | e] eqn:E;
    cbn [value after printed].
  - destruct (Hk a (after (m w))) as (Hf' & Hc' & He').
    rewrite Hf', Hc'. auto.
  - split; [exact Hf |]. split; [exact Hc |].
    intros e' H. injection H as <-. apply He. reflexivity.
Qed.

Lemma sampling_poisson (lam : Q) : sampling (np_random_poisson lam).
Proof.
  unfold np_random_poisson.
  destruct (Qlt_le_dec lam 0); [apply sampling_raise | apply sampling_draw].
Qed.

Ltac sampling_steps :=
  repeat first
    [ apply sampling_ret | apply sampling_print | apply sampling_draw
    | apply sampling_poisson | apply sampling_raise
    | apply sampling_bind; [| intro] ].

Lemma sampling_simulate_source (self : XRayEventSimulator) (rc dc : Q)
    (i : nat) (src : source) (acc : events) :
  sampling (simulate_source self rc dc i src acc).
Proof.
  destruct src as [[ra dec] flux]. unfold simulate_source.
  apply sampling_bind; [apply sampling_poisson | intros n].
  destruct (0 <? n)%nat.
  - unfold np_random_normal, np_random_uniform, np_random_exponential.
    sampling_steps.
  - apply sampling_ret.
Qed.

Lemma sampling_simulate_sources (self : XRayEventSimulator) (rc dc : Q)
    (sources : list source) :
  forall i acc, sampling (simulate_sources self rc dc i sources acc).
Proof.
  induction sources as [| src rest IH]; intros i acc; cbn [simulate_sources].
  - apply sampling_ret.
  - apply sampling_bind; [apply sampling_simulate_source |].
    intros acc'. apply IH.
Qed.

Lemma sampling_simulate_background (self : XRayEventSimulator) (rc dc : Q)
    (acc : events) :
  sampling (simulate_background self rc dc acc).
Proof.
  unfold simulate_background.
  apply sampling_bind; [apply sampling_poisson | intros n].
  destruct (0 <? n)%nat.
  - unfold np_random_uniform. sampling_steps.
  - apply sampling_ret.
Qed.

Lemma sampling_create_simple_events (self : XRayEventSimulator)
    (sources : list source) (rc dc : Q) :
  sampling (create_simple_events self sources rc dc).
Proof.
  unfold create_simple_events, accumulate_events.
  apply sampling_bind; [| intros all; apply sampling_ret].
  apply sampling_bind; [apply sampling_print | intros _].
  apply sampling_bind; [apply sampling_simulate_sources | intros acc].
  apply sampling_simulate_background.
Qed.

Lemma sampling_add_realistic_columns (self : XRayEventSimulator)
    (evs : events) :
  sampling (add_realistic_columns self evs).
Proof.
  unfold add_realistic_columns, np_random_choice. sampling_steps.
Qed.

Lemma sampling_array_min (a : list Q) : sampling (array_min a).
Proof. destruct a; [apply sampling_raise | apply sampling_ret]. Qed.

Lemma sampling_array_max (a : list Q) : sampling (array_max a).
Proof. destruct a; [apply sampling_raise | apply sampling_ret]. Qed.

Lemma bind_raise_value {A B : Type} (m : M A) (k : A -> M B) (w : world)
    (e : exception) :
  value (m w) = Raise e -> value (bind m k w) = Raise e.
Proof. intros H. apply (bind_raise m k w e H). Qed.

Lemma bind_ok_value {A B : Type} (m : M A) (k : A -> M B) (w : world)
    (a : A) :
  value (m w) = Ok a -> value (bind m k w) = value (k a (after (m w))).
Proof. intros H. apply (bind_ok m k w a H). Qed.

(** ** A negative flux *)

Lemma simulate_source_negative (self : XRayEventSimulator) (rc dc : Q)
    (i : nat) (ra dec flux : Q) (acc : events) (w : world) :
  flux * exposure_time self < 0 ->
  simulate_source self rc dc i (ra, dec, flux) acc w
  = mk_outcome (Raise (ValueError "lam < 0")) w [].
Proof.
  intros Hneg. unfold simulate_source, np_random_poisson.
  destruct (Qlt_le_dec (flux * exposure_time self) 0) as [_ | Hge];
    [reflexivity | lra].
Qed.

Lemma simulate_sources_negative (self : XRayEventSimulator) (rc dc : Q)
    (sources : list source) :
  0 < exposure_time self ->
  Exists (fun src => snd src < 0) sources ->
  forall i acc w,
    value (simulate_sources self rc dc i sources acc w)
    = Raise (ValueError "lam < 0").
Proof.
  intros HT. induction sources as [| [[ra dec] flux] rest IH];
    intros Hex i acc w.
  - inversion Hex.
  - cbn [simulate_sources].
    destruct (Qlt_le_dec flux 0) as [Hneg | Hpos].
    + apply bind_raise_value.
      rewrite simulate_source_negative; [reflexivity | nra].
    + assert (Hrest : Exists (fun src => snd src < 0) rest).
      { inversion Hex as [? ? H | ? ? H]; subst; [simpl in H; lra | exact H]. }
      assert (Hlam : 0 <= flux * exposure_time self) by nra.
      destruct (simulate_source_spec self rc dc i ra dec flux acc w HT Hlam)
        as (blk & Hv & _).
      rewrite (bind_ok_value _ _ w _ Hv).
      apply IH. exact Hrest.
Qed.

Lemma create_simple_events_raises (self : XRayEventSimulator)
    (sources : list source) (rc dc : Q) (w : world) :
  0 < exposure_time self ->
  Exists (fun src => snd src < 0) sources ->
  value (create_simple_events self sources rc dc w)
  = Raise (ValueError "lam < 0").
Proof.
  intros HT Hex.
  unfold create_simple_events, accumulate_events.
  apply bind_raise_value.
  rewrite bind_print_value.
  apply bind_raise_value.
  apply simulate_sources_negative; assumption.
Qed.

(** X5.  A source with a negative flux makes [create_simple_events] raise
    the [ValueError] of [np.random.poisson]; no event list is returned,
    and the disk is as it was. *)
Theorem create_simple_events_negative_flux (id : string)
    (sources : list source) (ra_center dec_center : Q) (w : world) :
  Exists (fun src => snd src < 0) sources ->
  value (create_simple_events (attributes id) sources ra_center dec_center w)
  = Raise (ValueError "lam < 0") /\
  files (after (create_simple_events (attributes id) sources ra_center
                  dec_center w)) = files w.
Proof.
  intros Hex. split.
  - apply create_simple_events_raises;
      [apply attributes_exposure | exact Hex].
  - apply sampling_create_simple_events.
Qed.

(** ** One observation *)

Lemma bind_ok_after {A B : Type} (m : M A) (k : A -> M B) (w : world)
    (a : A) :
  value (m w) = Ok a -> after (bind m k w) = after (k a (after (m w))).
Proof. intros H. apply (bind_ok m k w a H). Qed.

Lemma bind_raise_after {A B : Type} (m : M A) (k : A -> M B) (w : world)
    (e : exception) :
  value (m w) = Raise e -> after (bind m k w) = after (m w).
Proof. intros H. apply (bind_raise m k w e H). Qed.

Lemma bind_print_after {B : Type} (m : message) (k : unit -> M B)
    (w : world) :
  after (bind (print m) k w) = after (k tt w).
Proof. reflexivity. Qed.

(** The table [write_fits_file] builds for an observation at date
    [date_obs]. *)
Definition fits_of (obs_config : observation) (devs : detector_events)
    (date_obs : string) : file :=
  FitsFile
    (mk_fits
       (primary_cards (attributes (cfg_obs_id obs_config))
          (cfg_ra_center obs_config) (cfg_dec_center obs_config) date_obs)
       "EVENTS" (table_cards (attributes (cfg_obs_id obs_config)))
       (table_cols devs)).

(** The world in which the simulation of an observation starts: the
    sampler freshly seeded. *)
Definition seeded (w : world) : world :=
  mk_world (seed 42) (wall_clock w) (files w).

(** A run of [write_fits_file]: the clock is read once; the table is
    stored if the path may be written. *)
Lemma write_fits_file_run (self : XRayEventSimulator)
    (devs : detector_events) (filename : string) (rc dc : Q) (w : world) :
  write_fits_file self devs filename rc dc w
  = if can_write filename then
      mk_outcome (Ok filename)
        (mk_world (np_random w) (fun k => wall_clock w (S k))
           ((filename,
             FitsFile
               (mk_fits (primary_cards self rc dc (wall_clock w 0%nat))
                  "EVENTS" (table_cards self) (table_cols devs)))
              :: filter (fun e => negb (String.eqb (fst e) filename))
                   (files w)))
        [MsgWriting (length (ev_time (ev_base devs))) filename;
         MsgWritten filename]
    else
      mk_outcome (Raise (OSError filename))
        (mk_world (np_random w) (fun k => wall_clock w (S k)) (files w))
        [MsgWriting (length (ev_time (ev_base devs))) filename].
Proof.
  unfold write_fits_file, bind, print, datetime_now_isoformat, write_file,
    ret.
  cbn [value after printed app].
  destruct (can_write filename); reflexivity.
Qed.

Lemma generate_observation_run (output_dir : string)
    (obs_config : observation) (w : world) (evs : events)
    (devs : detector_events) :
  value (create_simple_events (attributes (cfg_obs_id obs_config))
           (cfg_sources obs_config) (cfg_ra_center obs_config)
           (cfg_dec_center obs_config) (seeded w)) = Ok evs ->
  value (add_realistic_columns (attributes (cfg_obs_id obs_config)) evs
           (after (create_simple_events (attributes (cfg_obs_id obs_config))
                     (cfg_sources obs_config) (cfg_ra_center obs_config)
                     (cfg_dec_center obs_config) (seeded w)))) = Ok devs ->
  value (generate_observation output_dir obs_config w)
  = (if can_write (fits_path output_dir obs_config) then
       match ev_energy (ev_base devs) with
       | [] => Raise
                 (ValueError
                    "zero-size array to reduction operation minimum")
       | _ :: _ => Ok (fits_path output_dir obs_config)
       end
     else Raise (OSError (fits_path output_dir obs_config))) /\
  files (after (generate_observation output_dir obs_config w))
  = (if can_write (fits_path output_dir obs_config) then
       (fits_path output_dir obs_config,
        fits_of obs_config devs (wall_clock w 0%nat))
         :: filter
              (fun e =>
                 negb (String.eqb (fst e) (fits_path output_dir obs_config)))
              (files w)
     else files w).
Proof.
  intros Hc Ha.
  set (id := cfg_obs_id obs_config) in *.
  set (c := create_simple_events _ _ _ _ (seeded w)) in *.
  set (a := add_realistic_columns _ evs (after c)) in *.
  assert (Hfa : files (after a) = files w /\
                wall_clock (after a) = wall_clock w).
  { destruct (sampling_add_realistic_columns (attributes id) evs (after c))
      as (F2 & C2 & _).
    destruct (sampling_create_simple_events (attributes id)
                (cfg_sources obs_config) (cfg_ra_center obs_config)
                (cfg_dec_center obs_config) (seeded w)) as (F1 & C1 & _).
    fold c in F1, C1. fold a in F2, C2.
    rewrite F2, F1, C2, C1. split; reflexivity. }
  destruct Hfa as [Hf Hcl].
  unfold generate_observation. fold id. fold (fits_path output_dir obs_config).
  set (fn := fits_path output_dir obs_config).
  pose proof (write_fits_file_run (attributes id) devs fn
                (cfg_ra_center obs_config) (cfg_dec_center obs_config)
                (after a)) as HW.
  set (W := write_fits_file (attributes id) devs fn
              (cfg_ra_center obs_config) (cfg_dec_center obs_config)) in *.
  rewrite !bind_print_value, !bind_print_after.
  change (value (bind (init id) ?k w))
    with (value (k (attributes id) (seeded w))).
  change (after (bind (init id) ?k w))
    with (after (k (attributes id) (seeded w))).
  cbv beta. fold c.
  rewrite (bind_ok_value _ _ _ _ Hc), (bind_ok_after _ _ _ _ Hc). fold a.
  rewrite (bind_ok_value _ _ _ _ Ha), (bind_ok_after _ _ _ _ Ha). cbv zeta.
  fold W.
  destruct (can_write fn) eqn:Hcw.
  - assert (HWv : value (W (after a)) = Ok fn) by (rewrite HW; reflexivity).
    rewrite (bind_ok_value _ _ _ _ HWv), (bind_ok_after _ _ _ _ HWv).
    assert (HWf : files (after (W (after a)))
                  = (fn, fits_of obs_config devs (wall_clock w 0%nat))
                      :: filter (fun e => negb (String.eqb (fst e) fn))
                           (files w)).
    { rewrite HW. cbn [after files]. rewrite Hcl, Hf. reflexivity. }
    rewrite <- HWf.
    rewrite !bind_print_value, !bind_print_after.
    destruct (ev_energy (ev_base devs)) as [| e es].
    + split; [apply bind_raise_value; reflexivity |].
      rewrite (bind_raise_after _ _ _
                 (ValueError "zero-size array to reduction operation minimum"))
        by reflexivity.
      reflexivity.
    + split; reflexivity.
  - assert (HWv : value (W (after a)) = Raise (OSError fn))
      by (rewrite HW; reflexivity).
    rewrite (bind_raise_value _ _ _ _ HWv), (bind_raise_after _ _ _ _ HWv).
    split; [reflexivity |].
    rewrite HW. cbn [after files]. exact Hf.
Qed.

Lemma generate_observation_cases (output_dir : string)
    (obs_config : observation) (w : world) :
  nonneg_flux (cfg_sources obs_config) ->
  exists devs,
    value (simulate (cfg_obs_id obs_config) (cfg_sources obs_config)
             (cfg_ra_center obs_config) (cfg_dec_center obs_config)
             (seeded w)) = Ok devs /\
    length (ev_energy (ev_base devs)) = n_events (ev_base devs) /\
    value (generate_observation output_dir obs_config w)
    = (if can_write (fits_path output_dir obs_config) then
         match ev_energy (ev_base devs) with
         | [] => Raise
                   (ValueError
                      "zero-size array to reduction operation minimum")
         | _ :: _ => Ok (fits_path output_dir obs_config)
         end
       else Raise (OSError (fits_path output_dir obs_config))) /\
    files (after (generate_observation output_dir obs_config w))
    = (if can_write (fits_path output_dir obs_config) then
         (fits_path output_dir obs_config,
          fits_of obs_config devs (wall_clock w 0%nat))
           :: filter
                (fun e =>
                   negb
                     (String.eqb (fst e) (fits_path output_dir obs_config)))
                (files w)
       else files w).
Proof.
  intros Hflux.
  set (id := cfg_obs_id obs_config).
  destruct (create_simple_events_spec (attributes id)
              (cfg_ra_center obs_config) (cfg_dec_center obs_config)
              (cfg_sources obs_config) (seeded w)
              (attributes_exposure id) (attributes_background id) Hflux)
    as (all & out & n_bg & _ & Hc & _ & _ & Hal & _ & _).
  destruct (add_realistic_columns_value (attributes id) (sort_by_time all)
              (after (create_simple_events (attributes id)
                        (cfg_sources obs_config) (cfg_ra_center obs_config)
                        (cfg_dec_center obs_config) (seeded w))))
    as (grade & status & Ha & _).
  destruct (generate_observation_run output_dir obs_config w _ _ Hc Ha)
    as (Hv & Hf).
  eexists. split.
  { unfold simulate. fold id. rewrite (bind_ok_value _ _ _ _ Hc). exact Ha. }
  cbn [ev_base] in *.
  split; [apply aligned_sort |]. split; [exact Hv | exact Hf].
Qed.

(** X6.  An observation whose sources have non-negative fluxes.  No file
    changes but the one at the path of its table,
    [os.path.join(output_dir, obs_id + "_events.fits")].  If the operating
    system refuses that path the call raises [OSError].  Otherwise the
    table is written there, at the date the clock shows, with the
    simulated columns; then, if the table has no event, the summary raises
    [ValueError] (the minimum of an empty array), the file staying
    written, and if it has events the path is returned. *)
Theorem generate_observation_outcome (output_dir : string)
    (obs_config : observation) (w : world) :
  nonneg_flux (cfg_sources obs_config) ->
  exists devs,
    value (simulate (cfg_obs_id obs_config) (cfg_sources obs_config)
             (cfg_ra_center obs_config) (cfg_dec_center obs_config)
             (seeded w)) = Ok devs /\
    (forall q, q <> fits_path output_dir obs_config ->
       read_file q
         (files (after (generate_observation output_dir obs_config w)))
       = read_file q (files w)) /\
    (can_write (fits_path output_dir obs_config) = false ->
     value (generate_observation output_dir obs_config w)
     = Raise (OSError (fits_path output_dir obs_config))) /\
    (can_write (fits_path output_dir obs_config) = true ->
     read_file (fits_path output_dir obs_config)
       (files (after (generate_observation output_dir obs_config w)))
     = Some (fits_of obs_config devs (wall_clock w 0%nat)) /\
     (n_events (ev_base devs) = 0%nat ->
      value (generate_observation output_dir obs_config w)
      = Raise (ValueError "zero-size array to reduction operation minimum"))
     /\
     ((0 < n_events (ev_base devs))%nat ->
      value (generate_observation output_dir obs_config w)
      = Ok (fits_path output_dir obs_config))).
Proof.
  intros Hflux.
  destruct (generate_observation_cases output_dir obs_config w Hflux)
    as (devs & Hs & He & Hv & Hf).
  exists devs. split; [exact Hs |].
  rewrite Hf, Hv.
  destruct (can_write (fits_path output_dir obs_config)).
  - split.
    { intros q Hq. rewrite read_file_write.
      destruct (String.eqb_spec (fits_path output_dir obs_config) q);
        [congruence | reflexivity]. }
    split; [intros H; discriminate H |].
    intros _.
    split; [rewrite read_file_write, String.eqb_refl; reflexivity |].
    destruct (ev_energy (ev_base devs)) as [| e es];
      cbn [length] in He; split; intros Hn; try reflexivity; lia.
  - split; [reflexivity |].
    split; [intros _; reflexivity | intros H; discriminate H].
Qed.

(** X7.  An observation with a negative flux: [ValueError], and no table
    is written. *)
Theorem generate_observation_negative_flux (output_dir : string)
    (obs_config : observation) (w : world) :
  Exists (fun src => snd src < 0) (cfg_sources obs_config) ->
  value (generate_observation output_dir obs_config w)
  = Raise (ValueError "lam < 0") /\
  files (after (generate_observation output_dir obs_config w)) = files w.
Proof.
  intros Hex.
  set (id := cfg_obs_id obs_config).
  pose proof (create_simple_events_raises (attributes id)
                (cfg_sources obs_config) (cfg_ra_center obs_config)
                (cfg_dec_center obs_config) (seeded w)
                (attributes_exposure id) Hex) as Hv.
  assert (Hf : files (after (create_simple_events (attributes id)
                               (cfg_sources obs_config)
                               (cfg_ra_center obs_config)
                               (cfg_dec_center obs_config) (seeded w)))
               = files w)
    by exact (proj1 (sampling_create_simple_events (attributes id)
                       (cfg_sources obs_config) (cfg_ra_center obs_config)
                       (cfg_dec_center obs_config) (seeded w))).
  unfold generate_observation. fold id. split.
  - rewrite !bind_print_value.
    change (value (bind (init id) ?k w))
      with (value (k (attributes id) (seeded w))).
    cbv beta. apply bind_raise_value. exact Hv.
  - rewrite !bind_print_after.
    change (after (bind (init id) ?k w))
      with (after (k (attributes id) (seeded w))).
    cbv beta. rewrite (bind_raise_after _ _ _ _ Hv). exact Hf.
Qed.

(** ** The loop over the observations *)

Lemma generate_observations_spec (output_dir : string)
    (observations : list observation) :
  Forall (fun o => nonneg_flux (cfg_sources o)) observations ->
  forall (generated_files : list string) (w : world),
    (forall q, ~ In q (map (fits_path output_dir) observations) ->
       read_file q
         (files (after (generate_observations output_dir observations
                          generated_files w)))
       = read_file q (files w)) /\
    match
      value (generate_observations output_dir observations generated_files w)
    with
    | Ok l =>
        l = generated_files ++ map (fits_path output_dir) observations /\
        forall p, In p (map (fits_path output_dir) observations) ->
          can_write p = true /\
          exists f,
            read_file p
              (files (after (generate_observations output_dir observations
                               generated_files w))) = Some f
    | Raise e =>
        e = ValueError "zero-size array to reduction operation minimum" \/
        exists p,
          In p (map (fits_path output_dir) observations) /\
          can_write p = false /\ e = OSError p
    end.
Proof.
  induction 1 as [| o rest Ho _ IH]; intros gf w.
  - cbn [generate_observations map]. unfold ret. cbn [value after].
    split; [reflexivity |]. split; [symmetry; apply app_nil_r |].
    intros p [].
  - cbn [generate_observations map].
    destruct (generate_observation_cases output_dir o w Ho)
      as (devs & _ & _ & Hv & Hf).
    set (fn := fits_path output_dir o) in *.
    set (g := generate_observation output_dir o) in *.
    assert (Hother : forall q, q <> fn ->
              read_file q (files (after (g w))) = read_file q (files w)).
    { intros q Hq. rewrite Hf. destruct (can_write fn); [| reflexivity].
      rewrite read_file_write.
      destruct (String.eqb_spec fn q); [congruence | reflexivity]. }
    destruct (can_write fn) eqn:Hcw;
      [destruct (ev_energy (ev_base devs)) as [| e es] |].
    + rewrite (bind_raise_value _ _ _ _ Hv), (bind_raise_after _ _ _ _ Hv).
      split; [| left; reflexivity].
      intros q Hq. apply Hother. intros ->. apply Hq. left. reflexivity.
    + rewrite (bind_ok_value _ _ _ _ Hv), (bind_ok_after _ _ _ _ Hv).
      destruct (IH (gf ++ [fn]) (after (g w))) as (Hkeep & Hres).
      split.
      * intros q Hq. rewrite Hkeep by (intros Hin; apply Hq; right; exact Hin).
        apply Hother. intros ->. apply Hq. left. reflexivity.
      * destruct (value (generate_observations output_dir rest (gf ++ [fn])
                           (after (g w)))) as [l | err].
        -- destruct Hres as (Hl & Hex). split.
           ++ rewrite Hl, <- app_assoc. reflexivity.
           ++ intros p Hp.
              destruct (in_dec string_dec p
                          (map (fits_path output_dir) rest)) as [Hin | Hout].
              ** apply Hex. exact Hin.
              ** destruct Hp as [<- | Hp]; [| contradiction].
                 split; [exact Hcw |].
                 rewrite (Hkeep fn Hout), Hf, read_file_write,
                   String.eqb_refl.
                 eexists. reflexivity.
        -- destruct Hres as [-> | (p & Hp & Hno & ->)];
             [left; reflexivity |].
           right. exists p. split; [right; exact Hp | auto].
    + rewrite (bind_raise_value _ _ _ _ Hv), (bind_raise_after _ _ _ _ Hv).
      split.
      * intros q Hq. apply Hother. intros ->. apply Hq. left. reflexivity.
      * right. exists fn. split; [left; reflexivity | auto].
Qed.

(** X8.  For observations with non-negative fluxes, the loop changes no
    file but those at the paths of their tables.  It fails in two ways
    only: the [ValueError] of an empty table, or the [OSError] of a table
    path the operating system refuses.  When it returns, the list it
    returns is the list it was given followed by the paths of the tables
    in order, and each of these paths was writable and holds a file. *)
Theorem generate_observations_outcome (output_dir : string)
    (observations : list observation) (generated_files : list string)
    (w : world) :
  Forall (fun o => nonneg_flux (cfg_sources o)) observations ->
  (forall q, ~ In q (map (fits_path output_dir) observations) ->
     read_file q
       (files (after (generate_observations output_dir observations
                        generated_files w)))
     = read_file q (files w)) /\
  (forall e,
     value (generate_observations output_dir observations generated_files w)
     = Raise e ->
     e = ValueError "zero-size array to reduction operation minimum" \/
     exists p,
       In p (map (fits_path output_dir) observations) /\
       can_write p = false /\ e = OSError p) /\
  (forall l,
     value (generate_observations output_dir observations generated_files w)
     = Ok l ->
     l = generated_files ++ map (fits_path output_dir) observations /\
     forall p, In p l -> ~ In p generated_files ->
       can_write p = true /\
       exists f,
         read_file p
           (files (after (generate_observations output_dir observations
                            generated_files w))) = Some f).
Proof.
  intros Hflux.
  destruct (generate_observations_spec output_dir observations Hflux
              generated_files w) as (Hkeep & Hres).
  split; [exact Hkeep |].
  destruct (value (generate_observations output_dir observations
                     generated_files w)) as [l0 | e0].
  - destruct Hres as (Hl & Hex). split.
    + intros e He. discriminate He.
    + intros l Hl'. injection Hl' as <-. split; [exact Hl |].
      intros p Hp Hnew. apply Hex. rewrite Hl in Hp.
      apply in_app_or in Hp. destruct Hp; [contradiction | assumption].
  - split.
    + intros e He. injection He as <-. exact Hres.
    + intros l Hl. discriminate Hl.
Qed.

Lemma configured_fluxes_nonneg :
  Forall (fun o => nonneg_flux (cfg_sources o)) create_test_observations.
Proof. repeat constructor; discriminate. Qed.

Lemma os_makedirs_granted {B : Type} (path : string) (k : unit -> M B)
    (w : world) :
  can_makedirs path = true ->
  value (bind (os_makedirs path) k w) = value (k tt w) /\
  after (bind (os_makedirs path) k w) = after (k tt w).
Proof.
  intros H. unfold os_makedirs. rewrite H. split; reflexivity.
Qed.

Lemma os_makedirs_refused {B : Type} (path : string) (k : unit -> M B)
    (w : world) :
  can_makedirs path = false ->
  value (bind (os_makedirs path) k w) = Raise (OSError path) /\
  after (bind (os_makedirs path) k w) = w.
Proof.
  intros H. unfold os_makedirs. rewrite H. split; reflexivity.
Qed.

(** The ways [main] fails: an observation without events, the output
    directory refused, or an output path refused. *)
Definition main_failure (e : exception) : Prop :=
  e = ValueError "zero-size array to reduction operation minimum" \/
  (can_makedirs "data/simulated/raw" = false /\
   e = OSError "data/simulated/raw") \/
  exists p, In p output_paths /\ can_write p = false /\ e = OSError p.

Lemma main_spec (w : world) :
  (forall q, ~ In q output_paths ->
     read_file q (files (after (main w))) = read_file q (files w)) /\
  match value (main w) with
  | Ok _ =>
      can_makedirs "data/simulated/raw" = true /\
      forall p, In p output_paths ->
        can_write p = true /\
        exists f, read_file p (files (after (main w))) = Some f
  | Raise e =>
      main_failure e /\
      read_file catalog_path (files (after (main w)))
      = read_file catalog_path (files w)
  end.
Proof.
  pose proof (fun u => generate_observations_spec "data/simulated/raw"
                create_test_observations configured_fluxes_nonneg [] u)
    as Hgen.
  assert (Hpaths : output_paths
                   = map (fits_path "data/simulated/raw")
                       create_test_observations ++ [catalog_path])
    by reflexivity.
  assert (Hcat : ~ In catalog_path
                     (map (fits_path "data/simulated/raw")
                        create_test_observations)).
  { intros [H | [H | []]]; discriminate H. }
  unfold main_failure. rewrite Hpaths. unfold main.
  revert Hgen Hcat.
  generalize (catalog_lines create_test_observations).
  generalize (map (fits_path "data/simulated/raw") create_test_observations).
  generalize create_test_observations.
  intros obs paths lines Hgen Hcat.
  rewrite !bind_print_value, !bind_print_after. cbv zeta.
  destruct (can_makedirs "data/simulated/raw") eqn:Hdir.
  2:{ rewrite (proj1 (os_makedirs_refused _ _ w Hdir)),
        (proj2 (os_makedirs_refused _ _ w Hdir)).
      split; [reflexivity |]. split; [| reflexivity].
      right. left. auto. }
  rewrite (proj1 (os_makedirs_granted _ _ w Hdir)),
    (proj2 (os_makedirs_granted _ _ w Hdir)).
  destruct (Hgen w) as (Hkeep & Hres). clear Hgen.
  set (g := generate_observations "data/simulated/raw" obs []) in *.
  destruct (value (g w)) as [l | e] eqn:Hg.
  - destruct Hres as (_ & Hex).
    rewrite (bind_ok_value _ _ _ _ Hg), (bind_ok_after _ _ _ _ Hg).
    destruct (can_write catalog_path) eqn:Hcw.
    + assert (Hrest :
        forall k : M unit,
          (forall u, value (k u) = Ok tt /\ after (k u) = u) ->
          value (bind (write_file catalog_path (TextFile lines))
                   (fun _ => k) (after (g w))) = Ok tt /\
          files (after (bind (write_file catalog_path (TextFile lines))
                          (fun _ => k) (after (g w))))
          = (catalog_path, TextFile lines)
              :: filter (fun e => negb (String.eqb (fst e) catalog_path))
                   (files (after (g w)))).
      { intros k Hk.
        pose proof (write_file_value catalog_path (TextFile lines)
                      (after (g w)) Hcw) as Hv.
        rewrite (bind_ok_value _ _ _ tt Hv), (bind_ok_after _ _ _ tt Hv).
        destruct (Hk (after (write_file catalog_path (TextFile lines)
                               (after (g w))))) as (Hv' & Ha').
        rewrite Hv', Ha'. unfold write_file. rewrite Hcw.
        split; reflexivity. }
      destruct (Hrest
                  (print MsgComplete ;;
                   print (MsgGenerated (length l)) ;;
                   print_files l ;;
                   print (MsgCatalog catalog_path) ;;
                   print MsgReady)) as (Hv & Hf).
      { intros u. rewrite !bind_print_value, !bind_print_after.
        rewrite (bind_ok_value _ _ _ tt (proj1 (print_files_run l u))),
          (bind_ok_after _ _ _ tt (proj1 (print_files_run l u))).
        rewrite (proj1 (proj2 (print_files_run l u))).
        split; reflexivity. }
      rewrite Hv, Hf. split.
      * intros q Hq. rewrite read_file_write.
        destruct (String.eqb_spec catalog_path q) as [E | Hne].
        -- exfalso. apply Hq. apply in_or_app. right. left. exact E.
        -- apply Hkeep. intros Hin. apply Hq. apply in_or_app. left.
           exact Hin.
      * split; [reflexivity |].
        intros p Hp. rewrite read_file_write.
        destruct (String.eqb_spec catalog_path p) as [E | Hne].
        -- split; [rewrite <- E; exact Hcw | eexists; reflexivity].
        -- apply Hex. apply in_app_or in Hp.
           destruct Hp as [Hp | [Hp | []]]; [exact Hp | congruence].
    + pose proof (write_file_refused catalog_path (TextFile lines)
                    (after (g w)) Hcw) as Hw.
      assert (Hv : value (write_file catalog_path (TextFile lines)
                            (after (g w))) = Raise (OSError catalog_path))
        by (rewrite Hw; reflexivity).
      rewrite (bind_raise_value _ _ _ _ Hv), (bind_raise_after _ _ _ _ Hv).
      rewrite Hw. cbn [after]. split.
      * intros q Hq. apply Hkeep. intros Hin. apply Hq.
        apply in_or_app. left. exact Hin.
      * split; [| apply Hkeep; exact Hcat].
        right. right. exists catalog_path.
        split; [apply in_or_app; right; left; reflexivity | auto].
  - rewrite (bind_raise_value _ _ _ _ Hg), (bind_raise_after _ _ _ _ Hg).
    split.
    + intros q Hq. apply Hkeep. intros Hin. apply Hq.
      apply in_or_app. left. exact Hin.
    + split; [| apply Hkeep; exact Hcat].
      destruct Hres as [-> | (p & Hp & Hno & ->)]; [left; reflexivity |].
      right. right. exists p.
      split; [apply in_or_app; left; exact Hp | auto].
Qed.

(** X9.  [main] changes no file but its three outputs.  It fails in three
    ways only: the [ValueError] of an observation without events, the
    [OSError] of the output directory when the operating system refuses
    it, and the [OSError] of an output path it refuses; unless it is the
    catalog that was refused, the catalog has not been touched.  When it
    completes, the directory and the three paths were granted and the
    three outputs exist. *)
Theorem main_outcome (w : world) :
  (forall q, ~ In q output_paths ->
     read_file q (files (after (main w))) = read_file q (files w)) /\
  (forall e, value (main w) = Raise e ->
     (e = ValueError "zero-size array to reduction operation minimum" \/
      (can_makedirs "data/simulated/raw" = false /\
       e = OSError "data/simulated/raw") \/
      exists p, In p output_paths /\ can_write p = false /\ e = OSError p) /\
     (e <> OSError catalog_path ->
      read_file catalog_path (files (after (main w)))
      = read_file catalog_path (files w))) /\
  (value (main w) = Ok tt ->
   can_makedirs "data/simulated/raw" = true /\
   forall p, In p output_paths ->
     can_write p = true /\
     exists f, read_file p (files (after (main w))) = Some f).
Proof.
  destruct (main_spec w) as (Hkeep & Hres).
  split; [exact Hkeep |].
  destruct (value (main w)) as [[] | e0].
  - split.
    + intros e He. discriminate He.
    + intros _. exact Hres.
  - split.
    + intros e He. injection He as <-.
      split; [exact (proj1 Hres) | intros _; exact (proj2 Hres)].
    + intros H. discriminate H.
Qed.

(** ** The script with every package installed *)

Lemma import_all_ok (importable : string -> bool) (names : list string)
    (w : world) :
  Forall (fun name => importable name = true) names ->
  import_all importable names w = mk_outcome (Ok tt) w [].
Proof.
  induction 1 as [| n names Hn _ IH]; cbn [import_all].
  - reflexivity.
  - unfold bind, import_module. rewrite Hn. unfold ret.
    cbn [value after printed]. rewrite IH. reflexivity.
Qed.

(** X10.  With every required package importable the process is a run of
    [main]: it prints what [main] prints and leaves the world [main]
    leaves; the exit status is 0 when [main] returns, and 1 with the
    traceback of the exception when [main] fails, which is a [ValueError]
    or an [OSError], never the [SystemExit] of the import handler. *)
Theorem script_runs_main (importable : string -> bool) (w : world) :
  (forall name, In name required_imports -> importable name = true) ->
  proc_stdout (run_script importable w) = printed (main w) /\
  final (run_script importable w) = after (main w) /\
  match value (main w) with
  | Ok _ =>
      exit_status (run_script importable w) = 0%Z /\
      traceback (run_script importable w) = None
  | Raise e =>
      exit_status (run_script importable w) = 1%Z /\
      traceback (run_script importable w) = Some e /\
      (e = ValueError "zero-size array to reduction operation minimum" \/
       exists p, e = OSError p)
  end.
Proof.
  intros Hall.
  pose proof (main_spec w) as (_ & Hmain).
  assert (Hnp : importable "numpy" = true)
    by (apply Hall; left; reflexivity).
  assert (Hg : import_all importable guarded_imports w
               = mk_outcome (Ok tt) w []).
  { apply import_all_ok. apply Forall_forall. intros name Hin.
    apply Hall. right. exact Hin. }
  unfold run_script, script.
  unfold main_failure in Hmain.
  revert Hmain. generalize (@main sampler os). intros body Hmain.
  assert (E : forall k : M unit,
             bind (import_module importable "numpy")
               (fun _ =>
                  bind (try_except_ImportError
                          (import_all importable guarded_imports)
                          (fun name =>
                             print (MsgMissingPackages name) ;;
                             print MsgInstallHint ;;
                             raise (SystemExit 1)))
                    (fun _ => k)) w
             = mk_outcome (value (k w)) (after (k w)) (printed (k w))).
  { intros k. unfold bind at 1. unfold import_module. rewrite Hnp.
    unfold ret. cbn [value after printed app].
    unfold bind, try_except_ImportError. rewrite Hg.
    cbn [value after printed app]. reflexivity. }
  rewrite E. cbn [value after printed].
  destruct (value (body w)) as [[] | e].
  - cbn. auto.
  - destruct Hmain as ([-> | [(_ & ->) | (p & _ & _ & ->)]] & _); cbn;
      repeat (split; [reflexivity |]);
      [left; reflexivity | right; eexists; reflexivity
      | right; eexists; reflexivity].
Qed.

(** ** Observations with the same configuration *)

Lemma simulate_source_any_id (id1 id2 : string) (rc dc : Q) (i : nat)
    (src : source) (acc : events) (w : world) :
  simulate_source (attributes id1) rc dc i src acc w
  = simulate_source (attributes id2) rc dc i src acc w.
Proof. destruct src as [[ra dec] flux]. reflexivity. Qed.

Lemma simulate_sources_any_id (id1 id2 : string) (rc dc : Q)
    (sources : list source) :
  forall i acc w,
    simulate_sources (attributes id1) rc dc i sources acc w
    = simulate_sources (attributes id2) rc dc i sources acc w.
Proof.
  induction sources as [| src rest IH]; intros i acc w;
    cbn [simulate_sources].
  - reflexivity.
  - unfold bind. rewrite (simulate_source_any_id id1 id2).
    destruct (value (simulate_source (attributes id2) rc dc i src acc w));
      [rewrite IH |]; reflexivity.
Qed.

Lemma bind_ext {A B : Type} (m m' : M A) (k k' : A -> M B) (w : world) :
  m w = m' w -> (forall a u, k a u = k' a u) -> bind m k w = bind m' k' w.
Proof.
  intros Hm Hk. unfold bind. rewrite Hm.
  destruct (value (m' w)); [rewrite Hk |]; reflexivity.
Qed.

Lemma simulate_any_id (id1 id2 : string) (sources : list source)
    (rc dc : Q) (w : world) :
  simulate id1 sources rc dc w = simulate id2 sources rc dc w.
Proof.
  unfold simulate, create_simple_events, accumulate_events.
  apply bind_ext; [| reflexivity].
  apply bind_ext; [| reflexivity].
  apply bind_ext; [reflexivity |]. intros _ u.
  apply bind_ext; [apply simulate_sources_any_id | reflexivity].
Qed.

(** X11.  The sampler is seeded anew for each observation, and the
    observation id enters the header and the path only: two observations
    with the same sources and field center get tables with the same
    columns, whatever ran before them and wherever they are written, if
    the two paths may be written. *)
Theorem same_configuration_same_table (dir1 dir2 : string)
    (o1 o2 : observation) (w1 w2 : world) :
  cfg_sources o1 = cfg_sources o2 ->
  cfg_ra_center o1 = cfg_ra_center o2 ->
  cfg_dec_center o1 = cfg_dec_center o2 ->
  nonneg_flux (cfg_sources o1) ->
  can_write (fits_path dir1 o1) = true ->
  can_write (fits_path dir2 o2) = true ->
  exists devs,
    read_file (fits_path dir1 o1)
      (files (after (generate_observation dir1 o1 w1)))
    = Some (fits_of o1 devs (wall_clock w1 0%nat)) /\
    read_file (fits_path dir2 o2)
      (files (after (generate_observation dir2 o2 w2)))
    = Some (fits_of o2 devs (wall_clock w2 0%nat)).
Proof.
  intros Hs Hra Hdec Hflux Hw1 Hw2.
  destruct (generate_observation_cases dir1 o1 w1 Hflux)
    as (d1 & Hv1 & _ & _ & Hf1).
  assert (Hflux2 : nonneg_flux (cfg_sources o2))
    by (rewrite <- Hs; exact Hflux).
  destruct (generate_observation_cases dir2 o2 w2 Hflux2)
    as (d2 & Hv2 & _ & _ & Hf2).
  rewrite Hw1 in Hf1. rewrite Hw2 in Hf2.
  exists d1. rewrite Hf1, Hf2, !read_file_write, !String.eqb_refl.
  split; [reflexivity |]. do 2 f_equal.
  rewrite <- Hs, <- Hra, <- Hdec in Hv2.
  rewrite (simulate_any_id _ (cfg_obs_id o1)) in Hv2.
  assert (Hdet : det [] (simulate (cfg_obs_id o1) (cfg_sources o1)
                           (cfg_ra_center o1) (cfg_dec_center o1))).
  { unfold simulate. apply (det_bind [] []).
    - apply det_create_simple_events.
    - intros evs. apply det_add_realistic_columns. }
  destruct (Hdet [] (seeded w1) (seeded w2) eq_refl
              (twin_nil (seeded w1) (seeded w2))) as (Hv & _).
  congruence.
Qed.

End RunProperties.

(** * Further runs on concrete inputs *)

Lemma simulated_pi_unclamped_witness :
  nonneg_flux demo_sources /\
  exists devs,
    value (simulate "TEST001" demo_sources 30 10 demo_world) = Ok devs /\
    forall k, (k < n_events (ev_base devs))%nat ->
      (0 <= nth k (ev_pi devs) 0 <= 1960)%Z.
Proof.
  split; [exact demo_sources_nonneg |].
  destruct (simulated_pi_unclamped "TEST001" demo_sources 30 10 demo_world
              demo_sources_nonneg) as (devs & Hv & H).
  exists devs. split; [exact Hv |]. intros k Hk. exact (proj2 (H k Hk)).
Defined.

Lemma simulated_frames_ordered_witness :
  nonneg_flux demo_sources /\
  exists devs,
    value (simulate "TEST001" demo_sources 30 10 demo_world) = Ok devs /\
    forall i j, (i < j)%nat -> (j < n_events (ev_base devs))%nat ->
      (nth i (ev_frame devs) 0 <= nth j (ev_frame devs) 0)%Z.
Proof.
  split; [exact demo_sources_nonneg |].
  exact (simulated_frames_ordered "TEST001" demo_sources 30 10 demo_world
           demo_sources_nonneg).
Defined.

Lemma simulated_table_aligned_witness :
  nonneg_flux demo_sources /\
  exists devs,
    value (simulate "TEST001" demo_sources 30 10 demo_world) = Ok devs /\
    length (table_cols devs) = 11%nat /\
    Forall (fun c => array_length (col_array c) = n_events (ev_base devs))
      (table_cols devs).
Proof.
  split; [exact demo_sources_nonneg |].
  exact (simulated_table_aligned "TEST001" demo_sources 30 10 demo_world
           demo_sources_nonneg).
Defined.

(** A source list whose second flux is negative. *)
Definition bad_sources : list source :=
  [ (3005 # 100, 1003 # 100, 150 # 1000);
    (2995 # 100, 1008 # 100, - (80 # 1000)) ].

Lemma bad_sources_negative : Exists (fun src => snd src < 0) bad_sources.
Proof. right. left. reflexivity. Qed.

Lemma create_simple_events_negative_flux_witness :
  Exists (fun src => snd src < 0) bad_sources /\
  value (create_simple_events (attributes "TEST001") bad_sources 30 10
           demo_world) = Raise (ValueError "lam < 0").
Proof.
  split; [exact bad_sources_negative |].
  exact (proj1 (create_simple_events_negative_flux "TEST001" bad_sources 30
                  10 demo_world bad_sources_negative)).
Defined.

Definition demo_observation : observation :=
  mk_observation "TEST001" 30 10 demo_sources.

Definition bad_observation : observation :=
  mk_observation "TEST003" 30 10 bad_sources.

Lemma generate_observation_outcome_witness :
  nonneg_flux (cfg_sources demo_observation) /\
  exists devs,
    read_file (fits_path "out" demo_observation)
      (files (after (generate_observation "out" demo_observation
                       demo_world)))
    = Some (fits_of demo_observation devs "2025-07-01T10:00:00").
Proof.
  split; [exact demo_sources_nonneg |].
  destruct (generate_observation_outcome "out" demo_observation demo_world
              demo_sources_nonneg) as (devs & _ & _ & _ & Hgranted).
  exists devs. exact (proj1 (Hgranted eq_refl)).
Defined.

Lemma generate_observation_negative_flux_witness :
  Exists (fun src => snd src < 0) (cfg_sources bad_observation) /\
  value (generate_observation "out" bad_observation demo_world)
  = Raise (ValueError "lam < 0") /\
  files (after (generate_observation "out" bad_observation demo_world)) = [].
Proof.
  split; [exact bad_sources_negative |].
  exact (generate_observation_negative_flux "out" bad_observation demo_world
           bad_sources_negative).
Defined.

Lemma generate_observations_outcome_witness :
  Forall (fun o => nonneg_flux (cfg_sources o)) [demo_observation] /\
  forall q, ~ In q (map (fits_path "out") [demo_observation]) ->
    read_file q
      (files (after (generate_observations "out" [demo_observation] []
                       demo_world)))
    = read_file q (files demo_world).
Proof.
  assert (H : Forall (fun o => nonneg_flux (cfg_sources o))
                [demo_observation]).
  { constructor; [exact demo_sources_nonneg | constructor]. }
  split; [exact H |].
  destruct (generate_observations_outcome "out" [demo_observation] []
              demo_world H) as (Hkeep & _).
  exact Hkeep.
Defined.

(** An installation with every package. *)
Definition all_installed (name : string) : bool := true.

Lemma script_runs_main_witness :
  (forall name, In name required_imports -> all_installed name = true) /\
  proc_stdout (run_script all_installed demo_world)
  = printed (main demo_world) /\
  final (run_script all_installed demo_world) = after (main demo_world).
Proof.
  assert (H : forall name,
             In name required_imports -> all_installed name = true)
    by (intros name _; reflexivity).
  split; [exact H |].
  destruct (script_runs_main all_installed demo_world H) as (Hp & Hf & _).
  split; [exact Hp | exact Hf].
Defined.

Definition other_observation : observation :=
  mk_observation "TEST009" 30 10 demo_sources.

Lemma same_configuration_same_table_witness :
  cfg_sources demo_observation = cfg_sources other_observation /\
  cfg_ra_center demo_observation = cfg_ra_center other_observation /\
  cfg_dec_center demo_observation = cfg_dec_center other_observation /\
  nonneg_flux (cfg_sources demo_observation) /\
  can_write (fits_path "out" demo_observation) = true /\
  can_write (fits_path "elsewhere" other_observation) = true /\
  exists devs d1 d2,
    read_file (fits_path "out" demo_observation)
      (files (after (generate_observation "out" demo_observation
                       demo_world)))
    = Some (fits_of demo_observation devs d1) /\
    read_file (fits_path "elsewhere" other_observation)
      (files (after (generate_observation "elsewhere" other_observation
                       (start 7 "2026-01-01T00:00:00"
                          "2026-01-01T00:00:09"))))
    = Some (fits_of other_observation devs d2).
Proof.
  split; [reflexivity |]. split; [reflexivity |]. split; [reflexivity |].
  split; [exact demo_sources_nonneg |].
  split; [reflexivity |]. split; [reflexivity |].
  destruct (same_configuration_same_table (os := permissive) "out"
              "elsewhere" demo_observation other_observation demo_world
              (start 7 "2026-01-01T00:00:00" "2026-01-01T00:00:09")
              eq_refl eq_refl eq_refl demo_sources_nonneg eq_refl eq_refl)
    as (devs & H1 & H2).
  exists devs. eexists. eexists. split; [exact H1 | exact H2].
Defined.

(** ** Rounding, paths and refusals on concrete inputs *)

(** The values of the literals 0.2, 0.005 and 2.6, and a subnormal. *)
Example binary64_literals :
  binary64 (2 # 10) == 3602879701896397 # 18014398509481984 /\
  binary64 (5 # 1000) == 5764607523034235 # 1152921504606846976 /\
  binary64 (26 # 10) == 5854679515581645 # 2251799813685248 /\
  binary64 (pow2 (-1075) + pow2 (-1080)) == pow2 (-1074) /\
  binary64 (pow2 (-1080)) == 0.
Proof. repeat split; vm_compute; reflexivity. Qed.

(** The float 0x1.c7ae147ae147bp-3: the float quotient is below 4.5 and the
    channel is 4, where the exact quotient is above 4.5. *)
Definition an_energy : Q := 8016407336719483 # 36028797018963968.

Example pi_of_a_float :
  binary64 an_energy == an_energy /\
  option_map ev_pi
    (match value (add_realistic_columns (attributes "TEST001")
                    (mk_events [0] [0] [0] [an_energy] [0] [0] [1%Z])
                    demo_world) with
     | Ok devs => Some devs
     | Raise _ => None
     end) = Some [4%Z] /\
  round_half_even ((an_energy - (2 # 10)) / (5 # 1000)) = 5%Z.
Proof.
  split; [vm_compute; reflexivity |].
  split; vm_compute; reflexivity.
Qed.

(** The float 7.8 divided by the float 2.6 is the float next above 3. *)
Example frame_of_a_float :
  trunc (float_div (binary64 (78 # 10)) (binary64 (26 # 10))) = 3%Z /\
  trunc (binary64 (78 # 10) / binary64 (26 # 10)) = 2%Z.
Proof. split; vm_compute; reflexivity. Qed.

Example path_join_cases :
  path_join "data/simulated/raw" "TEST001_events.fits"
  = "data/simulated/raw/TEST001_events.fits" /\
  path_join "out/" "TEST001_events.fits" = "out/TEST001_events.fits" /\
  path_join "" "TEST001_events.fits" = "TEST001_events.fits" /\
  path_join "out" "/tmp/x_events.fits" = "/tmp/x_events.fits".
Proof. repeat split. Qed.

(** A machine that refuses everything: [main] stops at [os.makedirs]. *)
Definition read_only : OperatingSystem := {|
  can_makedirs := fun _ => false;
  can_write := fun _ => false
|}.

Example main_refused :
  @main lcg read_only demo_world
  = mk_outcome (Raise (OSError "data/simulated/raw")) demo_world
      [MsgBanner; MsgIntro].
Proof. reflexivity. Qed.

(** A machine with the directories but a write-protected catalog. *)
Definition protected_catalog : OperatingSystem := {|
  can_makedirs := fun _ => true;
  can_write := fun path => negb (String.eqb path catalog_path)
|}.

Example catalog_refused :
  value (@main lcg protected_catalog demo_world)
  = Raise (OSError "data/simulated/source_catalog.txt") /\
  map fst (files (after (@main lcg protected_catalog demo_world)))
  = [ "data/simulated/raw/TEST002_events.fits";
      "data/simulated/raw/TEST001_events.fits" ].
Proof. split; vm_compute; reflexivity. Qed.

(** * Expected counts *)

From Stdlib Require Import Reals Qreals Lra.

Section ExpectedCounts.

Context {sampler : NumpyRandom}.

(** The probability that a Poisson variable of rate [lam] equals [k]. *)
Definition poisson_pmf (lam : R) (k : nat) : R :=
  (exp (- lam) * lam ^ k / INR (fact k))%R.

(** The distribution [pmf] on the naturals has mean [m]. *)
Definition mean_of (pmf : nat -> R) (m : R) : Prop :=
  infinite_sum (fun k => (INR k * pmf k)%R) m.

Lemma poisson_partial_mean (lam : R) (n : nat) :
  sum_f_R0 (fun k => (INR k * poisson_pmf lam k)%R) (S n)
  = (exp (- lam) * lam
     * sum_f_R0 (fun i => (/ INR (fact i) * lam ^ i)%R) n)%R.
Proof.
  induction n as [| n IH].
  - unfold poisson_pmf. simpl. field.
  - rewrite tech5, IH, (tech5 _ n). unfold poisson_pmf.
    rewrite Rmult_plus_distr_l. f_equal.
    assert (H1 : INR (fact (S n)) <> 0%R) by apply INR_fact_neq_0.
    assert (H2 : INR (S (S n)) <> 0%R) by (apply not_0_INR; discriminate).
    change (fact (S (S n))) with (S (S n) * fact (S n))%nat.
    rewrite mult_INR.
    change (lam ^ S (S n))%R with (lam * lam ^ S n)%R.
    field. split; assumption.
Qed.

Lemma poisson_mean (lam : R) : mean_of (poisson_pmf lam) lam.
Proof.
  unfold mean_of. intros eps Heps.
  set (c := (exp (- lam) * lam)%R).
  assert (Hc : (c * exp lam = lam)%R).
  { unfold c.
    replace (exp (- lam) * lam * exp lam)%R
      with (lam * (exp (- lam) * exp lam))%R by ring.
    rewrite <- exp_plus, Rplus_opp_l, exp_0. ring. }
  assert (Hpos : (0 < Rabs c + 1)%R)
    by (pose proof (Rabs_pos c); lra).
  destruct (proj2_sig (exist_exp lam) (eps / (Rabs c + 1))%R) as [N HN].
  { apply Rdiv_lt_0_compat; assumption. }
  exists (S N). intros n Hn.
  destruct n as [| n]; [lia |].
  rewrite poisson_partial_mean. fold c.
  unfold R_dist in *.
  assert (E : forall s, (c * s - lam = c * (s - exp lam))%R).
  { intros s. transitivity (c * s - c * exp lam)%R;
      [rewrite Hc; reflexivity | ring]. }
  rewrite E, Rabs_mult.
  specialize (HN n ltac:(lia)).
  apply Rle_lt_trans with (Rabs c * (eps / (Rabs c + 1)))%R.
  - apply Rmult_le_compat_l; [apply Rabs_pos | apply Rlt_le; exact HN].
  - apply Rmult_lt_reg_r with (Rabs c + 1)%R; [exact Hpos |].
    replace (Rabs c * (eps / (Rabs c + 1)) * (Rabs c + 1))%R
      with (Rabs c * eps)%R by (field; lra).
    pose proof (Rabs_pos c). nra.
Qed.

(** [w] with the sampler in the state [s]. *)
Definition with_state (w : world) (s : rng_state) : world :=
  mk_world s (wall_clock w) (files w).

(** [P A] is the probability that the sampler state passes the test [A].
    A number [X] that depends on the state has the distribution [law]
    when each of its values [k] has the probability [law k]. *)
Definition distributed (P : (rng_state -> bool) -> R)
    (X : rng_state -> nat) (law : nat -> R) : Prop :=
  forall k, P (fun s => Nat.eqb (X s) k) = law k.

Lemma mean_of_ext (f g : nat -> R) (m : R) :
  (forall k, f k = g k) -> mean_of g m -> mean_of f m.
Proof.
  intros E H eps Heps. destruct (H eps Heps) as [N HN].
  exists N. intros n Hn.
  rewrite (sum_eq (fun k => (INR k * f k)%R) (fun k => (INR k * g k)%R));
    [apply HN; exact Hn |].
  intros k _. rewrite E. reflexivity.
Qed.

(** C4.  For every source of the list, with flux [flux]: in every sampler
    state [s] the call returns, and the number of returned events that
    carry the id of the source is the number the sampler gives when, at
    the start of the pass for that source, it is asked for a Poisson count
    of rate [flux * exposure_time], which is [flux * 1000].  So, with
    whatever probabilities [P] the sampler state is random: if under [P]
    that draw follows the Poisson distribution of the rate it is asked
    for (the contract of [np.random.poisson]), the number of events of the
    source follows the Poisson distribution of rate [flux * 1000], and its
    mean is [flux * 1000]. *)
Theorem source_count_poisson (id : string) (sources : list source)
    (ra_center dec_center : Q) (i : nat) (ra dec flux : Q) (w : world)
    (P : (rng_state -> bool) -> R) :
  nonneg_flux sources ->
  nth_error sources i = Some (ra, dec, flux) ->
  (forall A B : rng_state -> bool, (forall s, A s = B s) -> P A = P B) ->
  distributed P
    (fun s =>
       fst (poisson (flux * 1000)%Q
              (np_random
                 (world_before_source (attributes id) ra_center dec_center
                    sources i (with_state w s)))))
    (poisson_pmf (Q2R flux * 1000)) ->
  (forall s,
     exists evs,
       value (create_simple_events (attributes id) sources ra_center
                dec_center (with_state w s)) = Ok evs /\
       count_occ Z.eq_dec (ev_source_id evs) (Z.of_nat i + 1)%Z
       = fst (poisson (flux * 1000)%Q
                (np_random
                   (world_before_source (attributes id) ra_center
                      dec_center sources i (with_state w s))))) /\
  distributed P
    (fun s =>
       source_events (attributes id) sources ra_center dec_center i
         (with_state w s))
    (poisson_pmf (Q2R flux * 1000)) /\
  mean_of
    (fun k =>
       P (fun s =>
            Nat.eqb
              (source_events (attributes id) sources ra_center dec_center i
                 (with_state w s)) k))
    (Q2R flux * 1000)%R.
Proof.
  intros Hflux Hnth Hext Hdraw.
  assert (Hrun : forall s,
             exists evs,
               value (create_simple_events (attributes id) sources
                        ra_center dec_center (with_state w s)) = Ok evs /\
               count_occ Z.eq_dec (ev_source_id evs) (Z.of_nat i + 1)%Z
               = fst (poisson (flux * 1000)%Q
                        (np_random
                           (world_before_source (attributes id) ra_center
                              dec_center sources i (with_state w s))))).
  { intros s.
    exact (source_events_drawn (attributes id) ra_center dec_center sources
             i ra dec flux (with_state w s) (attributes_exposure id)
             (attributes_background id) Hflux Hnth). }
  assert (Hlaw : distributed P
                   (fun s =>
                      source_events (attributes id) sources ra_center
                        dec_center i (with_state w s))
                   (poisson_pmf (Q2R flux * 1000))).
  { intros k. rewrite <- (Hdraw k). apply Hext. intros s.
    destruct (Hrun s) as (evs & Hv & Hc).
    unfold source_events. rewrite Hv, Hc. reflexivity. }
  split; [exact Hrun |]. split; [exact Hlaw |].
  apply (mean_of_ext _ (poisson_pmf (Q2R flux * 1000))); [exact Hlaw |].
  apply poisson_mean.
Qed.

End ExpectedCounts.

(** ** A sampler with a Poisson law *)

(** A sampler that replays its state: a Poisson draw returns the number
    the state holds, whatever the rate; the arrays are constant. *)
Module Replay.

Definition poisson (lam : Q) (s : nat) : nat * nat := (s, s).

Definition constant {A : Type} (x : A) (n : nat) (s : nat)
  : list A * nat := (repeat x n, s).

Definition choice (a : list Z) (n : nat) (p : list Q) (s : nat)
  : list Z * nat := constant (hd 0%Z a) n s.

Lemma constant_length {A : Type} (x : A) (n s : nat) :
  length (fst (constant x n s)) = n.
Proof. apply repeat_length. Qed.

Lemma constant_in_range (lo hi : Q) (n s : nat) :
  (lo < hi)%Q ->
  Forall (fun x => (lo <= x)%Q /\ (x < hi)%Q) (fst (constant lo n s)).
Proof.
  intros H. apply Forall_forall. intros x Hx.
  apply repeat_spec in Hx. subst x. split; [apply Qle_refl | exact H].
Qed.

Lemma choice_of_head (a : list Z) (n : nat) (p : list Q) (s : nat) :
  a <> [] -> Forall (fun x => In x a) (fst (choice a n p s)).
Proof.
  intros Ha. apply Forall_forall. intros x Hx.
  apply repeat_spec in Hx. subst x.
  destruct a as [| z a]; [congruence | left; reflexivity].
Qed.

End Replay.

Definition replay : NumpyRandom := {|
  rng_state := nat;
  seed := fun _ => 0%nat;
  poisson := Replay.poisson;
  normal := fun loc _ => Replay.constant loc;
  uniform := fun lo _ => Replay.constant lo;
  exponential := fun scale => Replay.constant scale;
  choice := Replay.choice;
  normal_size := fun loc _ => Replay.constant_length loc;
  uniform_size := fun lo _ => Replay.constant_length lo;
  exponential_size := fun scale => Replay.constant_length scale;
  choice_size := fun a n p s _ => Replay.constant_length (hd 0%Z a) n s;
  uniform_range := Replay.constant_in_range;
  choice_range := Replay.choice_of_head
|}.

(** The Poisson probability of a set of naturals given by a test: the sum
    of the probabilities of its members. *)
Section PoissonMeasure.

Variable lam : R.
Hypothesis lam_nonneg : (0 <= lam)%R.

Definition indicator (A : nat -> bool) (k : nat) : R :=
  if A k then 1%R else 0%R.

Lemma poisson_pmf_nonneg (k : nat) : (0 <= poisson_pmf lam k)%R.
Proof.
  unfold poisson_pmf.
  apply Rmult_le_pos.
  - apply Rmult_le_pos; [apply Rlt_le, exp_pos | apply pow_le, lam_nonneg].
  - apply Rlt_le, Rinv_0_lt_compat, INR_fact_lt_0.
Qed.

Lemma Un_cv_ext (Un Vn : nat -> R) (l : R) :
  (forall n, Un n = Vn n) -> Un_cv Un l -> Un_cv Vn l.
Proof.
  intros E H eps Heps. destruct (H eps Heps) as [N HN].
  exists N. intros n Hn. rewrite <- E. apply HN. exact Hn.
Qed.

Lemma poisson_pmf_series :
  {l : R | Un_cv (fun N => sum_f_R0 (poisson_pmf lam) N) l}.
Proof.
  exists (exp (- lam) * exp lam)%R.
  apply (Un_cv_ext
           (fun N =>
              ((fun _ : nat => exp (- lam)) N
               * sum_f_R0 (fun i => (/ INR (fact i) * lam ^ i)%R) N)%R)).
  - intros N. cbv beta. rewrite scal_sum. apply sum_eq.
    intros i _. unfold poisson_pmf. field. apply INR_fact_neq_0.
  - apply CV_mult.
    + intros eps Heps. exists 0%nat. intros n _.
      unfold Rdist. rewrite Rminus_diag, Rabs_R0. exact Heps.
    + unfold exp. exact (proj2_sig (exist_exp lam)).
Qed.

Lemma indicator_bounds (A : nat -> bool) (n : nat) :
  (0 <= poisson_pmf lam n * indicator A n <= poisson_pmf lam n)%R.
Proof.
  pose proof (poisson_pmf_nonneg n). unfold indicator.
  destruct (A n); lra.
Qed.

Definition poisson_measure (A : nat -> bool) : R :=
  proj1_sig
    (Rseries_CV_comp (fun k => (poisson_pmf lam k * indicator A k)%R)
       (poisson_pmf lam) (indicator_bounds A) poisson_pmf_series).

Lemma poisson_measure_sum (A : nat -> bool) :
  Un_cv
    (fun N => sum_f_R0 (fun k => (poisson_pmf lam k * indicator A k)%R) N)
    (poisson_measure A).
Proof.
  unfold poisson_measure.
  exact (proj2_sig (Rseries_CV_comp _ _ (indicator_bounds A)
                      poisson_pmf_series)).
Qed.

Lemma poisson_measure_ext (A B : nat -> bool) :
  (forall s, A s = B s) -> poisson_measure A = poisson_measure B.
Proof.
  intros E.
  apply (UL_sequence
           (fun N =>
              sum_f_R0 (fun k => (poisson_pmf lam k * indicator B k)%R) N)).
  - apply (Un_cv_ext
             (fun N =>
                sum_f_R0 (fun k => (poisson_pmf lam k * indicator A k)%R)
                  N)).
    + intros N. apply sum_eq. intros k _. unfold indicator.
      rewrite E. reflexivity.
    + apply poisson_measure_sum.
  - apply poisson_measure_sum.
Qed.

Lemma sum_point (f : nat -> R) (k N : nat) :
  sum_f_R0 (fun j => (f j * indicator (fun s => Nat.eqb s k) j)%R) N
  = if (k <=? N)%nat then f k else 0%R.
Proof.
  induction N as [| N IH].
  - cbn [sum_f_R0]. unfold indicator.
    destruct k as [| k]; cbn [Nat.eqb Nat.leb]; ring.
  - cbn [sum_f_R0]. rewrite IH. unfold indicator.
    destruct (Nat.eqb_spec (S N) k) as [<- | Hne].
    + rewrite Nat.leb_refl.
      replace (S N <=? N)%nat with false
        by (symmetry; apply Nat.leb_gt; lia).
      ring.
    + destruct (Nat.leb_spec k N) as [Hle | Hgt].
      * replace (k <=? S N)%nat with true
          by (symmetry; apply Nat.leb_le; lia).
        ring.
      * replace (k <=? S N)%nat with false
          by (symmetry; apply Nat.leb_gt; lia).
        ring.
Qed.

Lemma poisson_measure_point (k : nat) :
  poisson_measure (fun s => Nat.eqb s k) = poisson_pmf lam k.
Proof.
  apply (UL_sequence _ _ _ (poisson_measure_sum _)).
  intros eps Heps. exists k. intros n Hn.
  rewrite sum_point.
  replace (k <=? n)%nat with true by (symmetry; apply Nat.leb_le; lia).
  unfold Rdist. rewrite Rminus_diag, Rabs_R0. exact Heps.
Qed.

End PoissonMeasure.

(** The first configured source, flux 0.15, under the replay sampler with
    a state of Poisson law of rate 150. *)
Definition first_source : list source :=
  [ (3005 # 100, 1003 # 100, 150 # 1000) ].

Definition replay_world : @world replay :=
  mk_world (sampler := replay) 0%nat (fun _ => "2025-07-01T10:00:00") [].

Lemma rate_nonneg : (0 <= Q2R (150 # 1000) * 1000)%R.
Proof. unfold Q2R. simpl. lra. Qed.

Lemma source_count_poisson_witness :
  nonneg_flux first_source /\
  nth_error first_source 0 = Some (3005 # 100, 1003 # 100, 150 # 1000)%Q /\
  (forall A B : nat -> bool,
     (forall s, A s = B s) ->
     poisson_measure _ rate_nonneg A = poisson_measure _ rate_nonneg B) /\
  distributed (sampler := replay) (poisson_measure _ rate_nonneg)
    (fun s =>
       fst (@poisson replay ((150 # 1000) * 1000)%Q
              (np_random
                 (world_before_source (attributes "TEST001") 30 10
                    first_source 0 (with_state replay_world s)))))
    (poisson_pmf (Q2R (150 # 1000) * 1000)) /\
  mean_of
    (fun k =>
       poisson_measure _ rate_nonneg
         (fun s =>
            Nat.eqb
              (source_events (attributes "TEST001") first_source 30 10 0
                 (with_state replay_world s)) k))
    (Q2R (150 # 1000) * 1000)%R.
Proof.
  assert (H1 : nonneg_flux first_source)
    by (repeat constructor; discriminate).
  assert (H3 : forall A B : nat -> bool,
             (forall s, A s = B s) ->
             poisson_measure _ rate_nonneg A
             = poisson_measure _ rate_nonneg B)
    by (apply poisson_measure_ext).
  assert (H4 : distributed (sampler := replay)
                 (poisson_measure _ rate_nonneg)
                 (fun s =>
                    fst (@poisson replay ((150 # 1000) * 1000)%Q
                           (np_random
                              (world_before_source (attributes "TEST001")
                                 30 10 first_source 0
                                 (with_state replay_world s)))))
                 (poisson_pmf (Q2R (150 # 1000) * 1000)))
    by (intros k; apply poisson_measure_point).
  split; [exact H1 |]. split; [reflexivity |]. split; [exact H3 |].
  split; [exact H4 |].
  destruct (source_count_poisson (sampler := replay) "TEST001" first_source
              30 10 0 (3005 # 100) (1003 # 100) (150 # 1000) replay_world
              (poisson_measure _ rate_nonneg) H1 eq_refl H3 H4)
    as (_ & _ & Hmean).
  exact Hmean.
Defined.
